(** * Relational Memory Core (relational_rnn_general.py)

    A shallow embedding of [RelationalMemory] and the properties of its
    construction, memory seed, attention, gating and sequence driver.

    Conventions of the embedding.
    - A tensor of rank [n] is a list nested [n] times over the element
      type (row-major, as torch lays it out).  An axis of length 0 leaves
      no trace of the axes behind it, so wherever the source reads such an
      axis off the data ([memory.shape[1]], [inputs.shape[1]]) the model
      reads the first element and returns 0 when there is none.
    - The element type (torch's float32) is abstract: a carrier with the
      operations the source applies and no laws.  Everything proved below
      holds for every interpretation of those operations.
    - A raised exception is a value of [exn]; methods that can raise
      return a [result].  [ValueError] is raised by the module's own
      checks (and by a failed tuple unpacking), [RuntimeError] by torch
      when sizes do not fit, [IndexError] by indexing [shape] past the
      rank, [ZeroDivisionError] by [0 ** -0.5], [AssertionError] by a
      failed [assert].
    - The tensors of the computation are values, and a layer is its
      dimensions and the current values of its parameters.  What autograd
      records about a tensor appears only where [repackage_hidden] reads
      it ([tracked]). *)

From Stdlib Require Import String.
From Stdlib Require Import List ZArith Lia Bool Arith PeanoNat.
Import ListNotations.

Set Implicit Arguments.

(** ** Exceptions *)

Inductive exn : Type :=
| ValueError (msg : string)
| RuntimeError (msg : string)
| IndexError
| ZeroDivisionError
| AssertionError.

Inductive result (A : Type) : Type :=
| Ok (a : A)
| Raise (e : exn).

Arguments Ok {A} a.
Arguments Raise {A} e.

Definition bind {A B : Type} (c : result A) (k : A -> result B) : result B :=
  match c with
  | Ok a => k a
  | Raise e => Raise e
  end.

Declare Scope result_scope.
Delimit Scope result_scope with result.
Notation "x <- c ;; k" := (bind c (fun x => k))
  (at level 61, c at next level, right associativity) : result_scope.
Notation "' pat <- c ;; k" := (bind c (fun x => match x with pat => k end))
  (at level 61, pat pattern, c at next level, right associativity) : result_scope.
Open Scope result_scope.

Fixpoint mapM {A B : Type} (f : A -> result B) (l : list A) : result (list B) :=
  match l with
  | [] => Ok []
  | a :: l' => b <- f a ;; bs <- mapM f l' ;; Ok (b :: bs)
  end.

(** Pairwise combination of two lists of the same length; [e] is raised
    when the lengths differ. *)
Fixpoint zipM {A B C : Type} (e : exn) (f : A -> B -> result C)
         (l1 : list A) (l2 : list B) : result (list C) :=
  match l1, l2 with
  | [], [] => Ok []
  | a :: l1', b :: l2' => c <- f a b ;; cs <- zipM e f l1' l2' ;; Ok (c :: cs)
  | _, _ => Raise e
  end.

(** ** Elements *)

Class Scalar (F : Type) : Type := {
  s0 : F;                      (* 0. *)
  s1 : F;                      (* 1. *)
  sadd : F -> F -> F;
  ssub : F -> F -> F;
  smul : F -> F -> F;
  sdiv : F -> F -> F;
  ssqrt : F -> F;
  sexp : F -> F;
  stanh : F -> F;              (* torch.tanh *)
  ssigmoid : F -> F;           (* torch.sigmoid *)
  srelu : F -> F;              (* F.relu *)
  s_of_nat : nat -> F;
  s_eps : F;                   (* LayerNorm's eps, 1e-5 *)
  spow_neg_half : nat -> F     (* k ** -0.5 for k > 0 *)
}.

(** The free interpretation: an element is the expression that computes
    it.  It is the carrier of the concrete runs below. *)
Inductive term : Type :=
| TConst (z : Z)
| TEps
| TOfNat (n : nat)
| TPowNegHalf (n : nat)
| TAdd (a b : term)
| TSub (a b : term)
| TMul (a b : term)
| TDiv (a b : term)
| TSqrt (a : term)
| TExp (a : term)
| TTanh (a : term)
| TSigmoid (a : term)
| TRelu (a : term).

#[export] Instance term_Scalar : Scalar term := {
  s0 := TConst 0;
  s1 := TConst 1;
  sadd := TAdd;
  ssub := TSub;
  smul := TMul;
  sdiv := TDiv;
  ssqrt := TSqrt;
  sexp := TExp;
  stanh := TTanh;
  ssigmoid := TSigmoid;
  srelu := TRelu;
  s_of_nat := TOfNat;
  s_eps := TEps;
  spow_neg_half := TPowNegHalf
}.

(** ** Tensors *)

Fixpoint tensor (F : Type) (n : nat) : Type :=
  match n with
  | O => F
  | S n' => list (tensor F n')
  end.

(** A tensor of any rank; [ndim] is [len(t.shape)]. *)
Definition any_tensor (F : Type) : Type := { n : nat & tensor F n }.

Definition ndim {F : Type} (t : any_tensor F) : nat := projT1 t.

Definition of_rank {F : Type} (n : nat) (t : tensor F n) : any_tensor F :=
  existT _ n t.

(** All elements in storage order: the data of [t.view(-1)]. *)
Fixpoint flatten {F : Type} (n : nat) : tensor F n -> list F :=
  match n with
  | O => fun x => [x]
  | S n' => fun l => flat_map (flatten n') l
  end.

(** Shape tests on nested lists. *)
Definition shape1 {A : Type} (d0 : nat) (v : list A) : bool :=
  length v =? d0.

Definition shape2 {A : Type} (d0 d1 : nat) (m : list (list A)) : bool :=
  (length m =? d0) && forallb (shape1 d1) m.

Definition shape3 {A : Type} (d0 d1 d2 : nat) (t : list (list (list A))) : bool :=
  (length t =? d0) && forallb (shape2 d1 d2) t.


(** [t.shape[1]] and [t.shape[2]] of a rank-3 tensor. *)
Definition dim1 {A : Type} (t : list (list A)) : nat :=
  match t with
  | [] => 0
  | m :: _ => length m
  end.

Definition dim2 {A : Type} (t : list (list (list A))) : nat :=
  match t with
  | (r :: _) :: _ => length r
  | _ => 0
  end.

(** The fill value of an index past the end.  Tensors are rectangular, so
    no index used below falls there. *)
Definition default_tensor {F : Type} `{Scalar F} (n : nat) : tensor F n :=
  match n with
  | O => s0
  | S _ => []
  end.

(** ** List helpers *)

Fixpoint foldM {A B : Type} (f : A -> B -> result A) (a : A) (l : list B)
  : result A :=
  match l with
  | [] => Ok a
  | b :: l' => a' <- f a b ;; foldM f a' l'
  end.

Fixpoint mapi_from {A B : Type} (k : nat) (f : nat -> A -> B) (l : list A)
  : list B :=
  match l with
  | [] => []
  | a :: l' => f k a :: mapi_from (S k) f l'
  end.

Definition mapi {A B : Type} (f : nat -> A -> B) (l : list A) : list B :=
  mapi_from 0 f l.

Definition map2 {A B C : Type} (f : A -> B -> C) (l1 : list A) (l2 : list B)
  : list C :=
  map (fun p => f (fst p) (snd p)) (combine l1 l2).

(** [n] consecutive pieces of [k] elements. *)
Fixpoint chunks {A : Type} (k n : nat) (l : list A) : list (list A) :=
  match n with
  | O => []
  | S n' => firstn k l :: chunks k n' (skipn k l)
  end.

(** Exchange of the two outer axes of [m], whose inner axis has length [d]. *)
Definition transpose {A : Type} (dflt : A) (d : nat) (m : list (list A))
  : list (list A) :=
  map (fun j => map (fun row => nth j row dflt) m) (seq 0 d).

(** Python's [l[:-n]]; for [n = 0] this is [l[:0]], the empty list. *)
Definition slice_to_neg {A : Type} (n : nat) (l : list A) : list A :=
  if n =? 0 then [] else firstn (length l - n) l.

Definition map3 {A B : Type} (f : A -> B) : list (list (list A)) -> list (list (list B)) :=
  map (map (map f)).

Definition map4 {A B : Type} (f : A -> B)
  : list (list (list (list A))) -> list (list (list (list B))) :=
  map (map (map (map f))).

(** ** Broadcasting *)

Definition size_mismatch : exn :=
  RuntimeError "The size of tensor a must match the size of tensor b".

(** One axis of a broadcast binary operation: equal lengths pair up, a
    length-1 side is repeated, anything else is a size mismatch. *)
Definition bcast {A B C : Type} (f : A -> B -> result C)
           (l1 : list A) (l2 : list B) : result (list C) :=
  if length l1 =? length l2 then zipM size_mismatch f l1 l2
  else match l1, l2 with
       | [a], _ => mapM (f a) l2
       | _, [b] => mapM (fun a => f a b) l1
       | _, _ => Raise size_mismatch
       end.

(** One axis of an in-place operation [l1 op= l2]: only the right operand
    may be repeated, the left one keeps its size. *)
Definition bcast_into {A B : Type} (f : A -> B -> result A)
           (l1 : list A) (l2 : list B) : result (list A) :=
  if length l1 =? length l2 then zipM size_mismatch f l1 l2
  else match l2 with
       | [b] => mapM (fun a => f a b) l1
       | _ => Raise (RuntimeError "output shape doesn't match the broadcast shape")
       end.

Definition bop3 {A B C : Type} (f : A -> B -> C)
  : list (list (list A)) -> list (list (list B)) -> result (list (list (list C))) :=
  bcast (bcast (bcast (fun x y => Ok (f x y)))).

Definition ibop3 {A B : Type} (f : A -> B -> A)
  : list (list (list A)) -> list (list (list B)) -> result (list (list (list A))) :=
  bcast_into (bcast_into (bcast_into (fun x y => Ok (f x y)))).

(** ** torch primitives *)

Section Torch.
Context {F : Type} `{Scalar F}.

Definition sum (xs : list F) : F := fold_left sadd xs s0.

Definition dot (x y : list F) : F := sum (map2 smul x y).

(** [torch.eye(n)] *)
Definition eye (n : nat) : list (list F) :=
  map (fun i => map (fun j => if i =? j then s1 else s0) (seq 0 n)) (seq 0 n).

(** [torch.zeros((d0, d1, d2))] *)
Definition zeros3 (d0 d1 d2 : nat) : list (list (list F)) :=
  repeat (repeat (repeat s0 d2) d1) d0.

(** [torch.stack(ts)] along a new leading axis. *)
Definition stack {A : Type} (ts : list A) : result (list A) :=
  match ts with
  | [] => Raise (RuntimeError "stack expects a non-empty TensorList")
  | _ => Ok ts
  end.

Definition cat_mismatch : exn :=
  RuntimeError "Sizes of tensors must match except in the cat dimension".

(** [torch.cat([a, b], -1)] of rank-3 tensors. *)
Definition cat_last (a b : list (list (list F))) : result (list (list (list F))) :=
  zipM cat_mismatch (zipM cat_mismatch (fun r1 r2 => Ok (r1 ++ r2))) a b.

(** All rows of [m] have one width. *)
Definition uniform_width (m : list (list F)) : bool :=
  match m with
  | [] => true
  | r :: _ => forallb (fun r' => length r' =? length r) m
  end.

(** [torch.cat([a, b], dim=1)] of rank-3 tensors. *)
Definition cat_dim1 (a b : list (list (list F))) : result (list (list (list F))) :=
  zipM cat_mismatch
       (fun ma mb => if uniform_width (ma ++ mb) then Ok (ma ++ mb)
                     else Raise cat_mismatch) a b.

(** [torch.cat(ts, dim=1)] of a Python list of rank-3 tensors. *)
Definition cat_list_dim1 (ts : list (list (list (list F))))
  : result (list (list (list F))) :=
  match ts with
  | [] => Raise (RuntimeError "torch.cat(): expected a non-empty list of Tensors")
  | t :: ts' => foldM cat_dim1 t ts'
  end.

(** [t.unsqueeze(1)] of a rank-2 tensor. *)
Definition unsqueeze1 {A : Type} (t : list A) : list (list A) :=
  map (fun r => [r]) t.

(** [F.softmax(row, dim=-1)] *)
Definition softmax (row : list F) : list F :=
  let es := map sexp row in
  let z := sum es in
  map (fun e => sdiv e z) es.

(** [a @ b^T] of two matrices with rows of one width. *)
Definition matmul_nt (a b : list (list F)) : list (list F) :=
  map (fun ai => map (fun bj => dot ai bj) b) a.

(** [w @ v] *)
Definition matmul (w v : list (list F)) : list (list F) :=
  map (fun wi => map (fun c => dot wi (map (fun vj => nth c vj s0) v))
                     (seq 0 (dim1 v))) w.

(** *** nn.Linear *)

Record Linear : Type := {
  in_features : nat;
  out_features : nat;
  weight : nat -> nat -> F;      (* weight[j][i], j < out, i < in *)
  bias : nat -> F
}.

Definition nn_Linear (i o : nat) (p : (nat -> nat -> F) * (nat -> F)) : Linear :=
  {| in_features := i; out_features := o; weight := fst p; bias := snd p |}.

(** The layer applied along the last axis. *)
Definition linear (l : Linear) (x : list F) : result (list F) :=
  if length x =? in_features l then
    Ok (map (fun j => sadd (dot x (map (weight l j) (seq 0 (in_features l))))
                           (bias l j))
            (seq 0 (out_features l)))
  else Raise (RuntimeError "mat1 and mat2 shapes cannot be multiplied").

Definition linear2 (l : Linear) : list (list F) -> result (list (list F)) :=
  mapM (linear l).

Definition linear3 (l : Linear)
  : list (list (list F)) -> result (list (list (list F))) :=
  mapM (linear2 l).

(** *** nn.LayerNorm over the last two axes *)

Record LayerNorm : Type := {
  normalized_shape : nat * nat;
  ln_weight : nat -> nat -> F;
  ln_bias : nat -> nat -> F
}.

Definition nn_LayerNorm (shape : nat * nat)
           (p : (nat -> nat -> F) * (nat -> nat -> F)) : LayerNorm :=
  {| normalized_shape := shape; ln_weight := fst p; ln_bias := snd p |}.

Definition normalize (ln : LayerNorm) (m : list (list F)) : list (list F) :=
  let xs := concat m in
  let cnt := s_of_nat (length xs) in
  let mean := sdiv (sum xs) cnt in
  let var := sdiv (sum (map (fun x => smul (ssub x mean) (ssub x mean)) xs)) cnt in
  let std := ssqrt (sadd var s_eps) in
  mapi (fun i row =>
          mapi (fun j x => sadd (smul (sdiv (ssub x mean) std) (ln_weight ln i j))
                                (ln_bias ln i j)) row) m.

Definition layer_norm (ln : LayerNorm) (m : list (list F)) : result (list (list F)) :=
  if shape2 (fst (normalized_shape ln)) (snd (normalized_shape ln)) m
  then Ok (normalize ln m)
  else Raise (RuntimeError "Given normalized_shape, expected input with matching trailing shape").

Definition layer_norm3 (ln : LayerNorm)
  : list (list (list F)) -> result (list (list (list F))) :=
  mapM (layer_norm ln).

End Torch.

Arguments Linear : clear implicits.
Arguments LayerNorm : clear implicits.

(** ** RelationalMemory *)

Section RelationalMemory.
Context {F : Type} `{Scalar F}.

Local Abbreviation vec := (list F).
Local Abbreviation mat := (list (list F)).
Local Abbreviation t3 := (list (list (list F))).
Local Abbreviation t4 := (list (list (list (list F)))).

(** The object after [__init__]: the attributes the methods read. *)
Record RelationalMemory : Type := {
  mem_slots : nat;
  head_size : nat;
  num_heads : nat;
  mem_size : nat;
  mem_slots_plus_input : nat;
  num_blocks : Z;
  gate_style : option string;
  attention_mlp_layers : Z;
  key_size : nat;
  value_size : nat;
  qkv_size : nat;
  total_qkv_size : nat;
  qkv_projector : Linear F;
  qkv_layernorm : LayerNorm F;
  attention_mlp : list (Linear F);
  attended_memory_layernorm : LayerNorm F;
  attended_memory_layernorm2 : LayerNorm F;
  input_size : nat;
  input_projector : Linear F;
  num_gates : nat;
  input_gate_projector : Linear F;
  memory_gate_projector : Linear F;
  forget_bias : F;
  input_bias : F;
  return_all_outputs : bool
}.

(** The arguments of the constructor.  Sizes are natural numbers; the two
    counts the constructor validates are integers.  [gate_style] is
    [None] or a string; [key_size] is [None] or a number. *)
Record Args : Type := {
  a_mem_slots : nat;
  a_head_size : nat;
  a_input_size : nat;
  a_num_heads : nat;                 (* default 1 *)
  a_num_blocks : Z;                  (* default 1 *)
  a_forget_bias : F;                 (* default 1. *)
  a_input_bias : F;                  (* default 0. *)
  a_gate_style : option string;      (* default 'unit' *)
  a_attention_mlp_layers : Z;        (* default 2 *)
  a_key_size : option nat;           (* default None *)
  a_return_all_outputs : bool        (* default False *)
}.

(** The values the layers' parameters are initialised with (torch draws
    them at random). *)
Record Init : Type := {
  i_qkv_projector : (nat -> nat -> F) * (nat -> F);
  i_qkv_layernorm : (nat -> nat -> F) * (nat -> nat -> F);
  i_attention_mlp : (nat -> nat -> F) * (nat -> F);
  i_attended_memory_layernorm : (nat -> nat -> F) * (nat -> nat -> F);
  i_attended_memory_layernorm2 : (nat -> nat -> F) * (nat -> nat -> F);
  i_input_projector : (nat -> nat -> F) * (nat -> F);
  i_input_gate_projector : (nat -> nat -> F) * (nat -> F);
  i_memory_gate_projector : (nat -> nat -> F) * (nat -> F)
}.

Definition gate_style_eqb (a b : option string) : bool :=
  match a, b with
  | None, None => true
  | Some x, Some y => String.eqb x y
  | _, _ => false
  end.

(** [calculate_gate_size], on the two attributes it reads. *)
Definition calculate_gate_size (style : option string) (msize : nat) : nat :=
  if gate_style_eqb style (Some "unit"%string) then msize
  else if gate_style_eqb style (Some "memory"%string) then 1
  else 0.

Definition __init__ (a : Args) (i : Init) : result RelationalMemory :=
  let mem_slots := a_mem_slots a in
  let head_size := a_head_size a in
  let num_heads := a_num_heads a in
  let mem_size := head_size * num_heads in
  let mem_slots_plus_input := mem_slots + 1 in
  if (a_num_blocks a <? 1)%Z then
    Raise (ValueError "num_blocks must be >=1.")
  else if negb (existsb (gate_style_eqb (a_gate_style a))
                        [Some "unit"%string; Some "memory"%string; None]) then
    Raise (ValueError "gate_style must be one of ['unit', 'memory', None].")
  else if (a_attention_mlp_layers a <? 1)%Z then
    Raise (ValueError "attention_mlp_layers must be >= 1.")
  else
    let key_size := match a_key_size a with
                    | Some k => if k =? 0 then head_size else k
                    | None => head_size
                    end in
    let value_size := head_size in
    let qkv_size := 2 * key_size + value_size in
    let total_qkv_size := qkv_size * num_heads in
    let num_gates := 2 * calculate_gate_size (a_gate_style a) mem_size in
    Ok {| mem_slots := mem_slots;
          head_size := head_size;
          num_heads := num_heads;
          mem_size := mem_size;
          mem_slots_plus_input := mem_slots_plus_input;
          num_blocks := a_num_blocks a;
          gate_style := a_gate_style a;
          attention_mlp_layers := a_attention_mlp_layers a;
          key_size := key_size;
          value_size := value_size;
          qkv_size := qkv_size;
          total_qkv_size := total_qkv_size;
          qkv_projector := nn_Linear mem_size total_qkv_size (i_qkv_projector i);
          qkv_layernorm :=
            nn_LayerNorm (mem_slots_plus_input, total_qkv_size) (i_qkv_layernorm i);
          attention_mlp :=
            repeat (nn_Linear mem_size mem_size (i_attention_mlp i))
                   (Z.to_nat (a_attention_mlp_layers a));
          attended_memory_layernorm :=
            nn_LayerNorm (mem_slots_plus_input, mem_size)
                         (i_attended_memory_layernorm i);
          attended_memory_layernorm2 :=
            nn_LayerNorm (mem_slots_plus_input, mem_size)
                         (i_attended_memory_layernorm2 i);
          input_size := a_input_size a;
          input_projector := nn_Linear (a_input_size a) mem_size (i_input_projector i);
          num_gates := num_gates;
          input_gate_projector :=
            nn_Linear mem_size num_gates (i_input_gate_projector i);
          memory_gate_projector :=
            nn_Linear mem_size num_gates (i_memory_gate_projector i);
          forget_bias := a_forget_bias a;
          input_bias := a_input_bias a;
          return_all_outputs := a_return_all_outputs a |}.

Variable self : RelationalMemory.

Definition initial_state (batch_size : nat) : result t3 :=
  init_state <- stack (map (fun _ => eye (mem_slots self)) (seq 0 batch_size)) ;;
  if mem_slots self <? mem_size self then
    let difference := mem_size self - mem_slots self in
    let pad := zeros3 batch_size (mem_slots self) difference in
    cat_last init_state pad
  else if mem_size self <? mem_slots self then
    Ok (map (map (firstn (mem_size self))) init_state)
  else Ok init_state.

(** [qkv.view(B, mem_slots, num_heads, qkv_size)]: every row is cut into
    [num_heads] pieces of [qkv_size] elements. *)
Definition view_heads (slots : nat) (qkv : t3) : result t4 :=
  mapM (fun m : mat =>
          if length m =? slots then
            mapM (fun r : vec =>
                    if length r =? num_heads self * qkv_size self
                    then Ok (chunks (qkv_size self) (num_heads self) r)
                    else Raise (RuntimeError "shape is invalid for input size"))
                 m
          else Raise (RuntimeError "shape is invalid for input size")) qkv.

(** [torch.split(t, [key_size, key_size, value_size], -1)] *)
Definition split_qkv (t : t4) : result (t4 * t4 * t4) :=
  let ks := key_size self in
  let vs := value_size self in
  if forallb (forallb (forallb (fun r : vec => length r =? ks + ks + vs))) t then
    Ok (map3 (firstn ks) t,
        map3 (fun r => firstn ks (skipn ks r)) t,
        map3 (skipn (ks + ks)) t)
  else Raise (RuntimeError "split_with_sizes expects split_sizes to sum to the dimension").

(** [key_size ** -0.5] *)
Definition q_scale : result F :=
  if key_size self =? 0 then Raise ZeroDivisionError
  else Ok (spow_neg_half (key_size self)).

(** The first half of [multihead_attention]: projection, layer norm, and
    the reshape that makes heads a leading axis. *)
Definition qkv_heads (memory : t3) : result t4 :=
  qkv <- linear3 (qkv_projector self) memory ;;
  qkv <- layer_norm3 (qkv_layernorm self) qkv ;;
  let slots := dim1 memory in
  qkv_reshape <- view_heads slots qkv ;;
  (* [B, N, H, F/H] => [B, H, N, F/H] *)
  let qkv_transpose := map (transpose [] (num_heads self)) qkv_reshape in
  Ok qkv_transpose.

(** The second half: scaled dot-product attention per head, and the merge
    of the heads into one feature axis. *)
Definition attention (slots : nat) (q k v : t4) (c : F) : t3 :=
  let q := map4 (fun x => smul x c) q in
  (* [B, H, N, N] *)
  let dot_product := map2 (map2 matmul_nt) q k in
  let weights := map3 softmax dot_product in
  (* [B, H, N, V] *)
  let output := map2 (map2 matmul) weights v in
  (* [B, H, N, V] => [B, N, H, V] => [B, N, H*V] *)
  let output_transpose := map (transpose [] slots) output in
  map (map (@concat F)) output_transpose.

Definition multihead_attention (memory : t3) : result t3 :=
  qkv_transpose <- qkv_heads memory ;;
  '(q, k, v) <- split_qkv qkv_transpose ;;
  c <- q_scale ;;
  let new_memory := attention (dim1 memory) q k v c in
  Ok new_memory.

(** [torch.split(t, split_size, dim=2)]: pieces of [split_size] columns,
    the last one shorter when the axis does not divide; one piece at
    least. *)
Definition split_dim2 (split_size : nat) (t : t3) : result (list t3) :=
  let d := dim2 t in
  if split_size =? 0 then
    if d =? 0 then Ok [t]
    else Raise (RuntimeError "split_size can only be 0 if dimension size is 0")
  else
    Ok (map (fun i => map (map (fun r : vec => firstn split_size (skipn (i * split_size) r))) t)
            (seq 0 (Nat.max ((d + split_size - 1) / split_size) 1))).

(** [a, b = gates] *)
Definition unpack2 {A : Type} (l : list A) : result (A * A) :=
  match l with
  | [a; b] => Ok (a, b)
  | [] | [_] => Raise (ValueError "not enough values to unpack (expected 2)")
  | _ => Raise (ValueError "too many values to unpack (expected 2)")
  end.

Definition seq_length_error : exn :=
  ValueError "input seq length is larger than 1. create_gate function is meant to be called for each step, with input seq length of 1".

Definition input_rank_error : exn :=
  ValueError "input shape of create_gate function is 2, expects 3".

Definition create_gates (inputs : any_tensor F) (memory : t3) : result (t3 * t3) :=
  let memory := map3 stanh memory in
  '(gate_inputs, gate_memory) <-
    match inputs with
    | existT _ 3 x =>
        if 1 <? dim1 x then Raise seq_length_error
        else
          let inputs := map (flatten 2) x in
          gate_inputs <- linear2 (input_gate_projector self) inputs ;;
          let gate_inputs := unsqueeze1 gate_inputs in
          gate_memory <- linear3 (memory_gate_projector self) memory ;;
          Ok (gate_inputs, gate_memory)
    | existT _ _ _ => Raise input_rank_error
    end ;;
  gates <- bop3 sadd gate_memory gate_inputs ;;
  gates <- split_dim2 (dim2 gates / 2) gates ;;
  '(input_gate, forget_gate) <- unpack2 gates ;;
  if negb (dim2 input_gate =? dim2 forget_gate) then Raise AssertionError
  else
    let input_gate := map3 (fun x => ssigmoid (sadd x (input_bias self))) input_gate in
    let forget_gate := map3 (fun x => ssigmoid (sadd x (forget_bias self))) forget_gate in
    Ok (input_gate, forget_gate).

(** One pass of the loop body of [attend_over_memory]. *)
Definition attend_block (memory : t3) : result t3 :=
  attended_memory <- multihead_attention memory ;;
  s <- bop3 sadd memory attended_memory ;;
  memory <- layer_norm3 (attended_memory_layernorm self) s ;;
  attention_mlp <-
    foldM (fun x l => y <- linear3 l x ;; Ok (map3 srelu y))
          memory (attention_mlp self) ;;
  s <- bop3 sadd memory attention_mlp ;;
  layer_norm3 (attended_memory_layernorm2 self) s.

(** [for _ in range(n): memory = body(memory)] *)
Fixpoint iterM {A : Type} (n : nat) (body : A -> result A) (a : A) : result A :=
  match n with
  | O => Ok a
  | S n' => a' <- body a ;; iterM n' body a'
  end.

Definition attend_over_memory (memory : t3) : result t3 :=
  iterM (Z.to_nat (num_blocks self)) attend_block memory.

(** The two ways [forward_step] brings its input to rank 3. *)
Definition project_input (inputs : any_tensor F) (treat_input_as_matrix : bool)
  : result t3 :=
  if treat_input_as_matrix then
    match inputs with
    | existT _ (S (S n)) x =>
        let inputs := map (map (flatten n)) x in
        linear3 (input_projector self) inputs
    | existT _ _ _ => Raise IndexError
    end
  else
    match inputs with
    | existT _ (S n) x =>
        let inputs := map (flatten n) x in
        inputs <- linear2 (input_projector self) inputs ;;
        Ok (unsqueeze1 inputs)
    | existT _ _ _ => Raise IndexError
    end.

Definition gating_enabled : bool :=
  gate_style_eqb (gate_style self) (Some "unit"%string)
  || gate_style_eqb (gate_style self) (Some "memory"%string).

Definition forward_step (inputs : any_tensor F) (memory : t3)
           (treat_input_as_matrix : bool) : result (mat * t3) :=
  inputs_reshape <- project_input inputs treat_input_as_matrix ;;
  memory_plus_input <- cat_dim1 memory inputs_reshape ;;
  next_memory <- attend_over_memory memory_plus_input ;;
  let n := dim1 inputs_reshape in
  let next_memory := map (slice_to_neg n) next_memory in
  next_memory <-
    (if gating_enabled then
       '(input_gate, forget_gate) <- create_gates (of_rank 3 inputs_reshape) memory ;;
       next_memory <- bop3 smul input_gate (map3 stanh next_memory) ;;
       gated <- bop3 smul forget_gate memory ;;
       ibop3 sadd next_memory gated
     else Ok next_memory) ;;
  let output := map (flatten 2) next_memory in
  Ok (output, next_memory).

(** [inputs[:, idx]] *)
Definition select1 (n : nat) (idx : nat) (x : tensor F (S (S n))) : tensor F (S n) :=
  map (fun b : tensor F (S n) => nth idx b (default_tensor n)) x.

(** The state of the loop of [forward]: [logit], [memory], [logits]. *)
Definition forward_loop (n : nat) (x : tensor F (S (S n)))
           (st : mat * t3 * list t3) (idx_step : nat)
  : result (mat * t3 * list t3) :=
  let '(_, memory, logits) := st in
  '(logit, memory) <- forward_step (of_rank (S n) (select1 idx_step x)) memory false ;;
  Ok (logit, memory, logits ++ [unsqueeze1 logit]).

Definition forward (inputs : any_tensor F) (memory : t3)
           (treat_input_as_matrix : bool) : result (t3 * t3) :=
  match inputs with
  | existT _ (S (S n)) x =>
      (* [logit = 0] is overwritten before it is read: [torch.cat] raises
         on an empty [logits] *)
      '(logit, memory, logits) <-
        foldM (forward_loop x) ([], memory, []) (seq 0 (dim1 x)) ;;
      logits <- cat_list_dim1 logits ;;
      if return_all_outputs self then Ok (logits, memory)
      else Ok (unsqueeze1 logit, memory)
  | existT _ _ _ => Raise IndexError
  end.

(** The two size properties. *)
Definition state_size : list nat := [mem_slots self; mem_size self].

Definition output_size : nat := mem_slots self * mem_size self.

End RelationalMemory.

Arguments RelationalMemory : clear implicits.
Arguments Args : clear implicits.
Arguments Init : clear implicits.

(** ** Hidden states and their history

    What [repackage_hidden] looks at: a tensor carries, beside its data,
    whether it requires a gradient and whether it has a [grad_fn] (a
    history); a hidden state is a tensor or a tuple or list of hidden
    states. *)

Local Set Warnings "-register-all".

Record tracked (F : Type) : Type := {
  data : any_tensor F;
  requires_grad : bool;
  grad_fn : bool
}.

(** [t.detach()]: the same data, cut off from the graph. *)
Definition detach {F : Type} (t : tracked F) : tracked F :=
  {| data := data t; requires_grad := false; grad_fn := false |}.

Inductive hidden (F : Type) : Type :=
| HTensor (t : tracked F)
| HTuple (hs : list (hidden F))
| HList (hs : list (hidden F)).

(** [repackage_hidden]; the method does not read [self]. *)
Fixpoint repackage_hidden {F : Type} (h : hidden F) : hidden F :=
  match h with
  | HTensor t => HTensor (detach t)
  | HTuple hs | HList hs => HTuple (map repackage_hidden hs)
  end.

(** ** A concrete core

    The scenario of the specification: one slot, one head of size 4,
    one block, unit gating, inputs of width 4; elements are [term]s. *)

Definition example_linear : (nat -> nat -> term) * (nat -> term) :=
  (fun j i => TConst (Z.of_nat (j + i)), fun j => TConst (Z.of_nat j)).

Definition example_affine : (nat -> nat -> term) * (nat -> nat -> term) :=
  (fun _ _ => TConst 1, fun _ _ => TConst 0).

Definition example_init : Init term :=
  {| i_qkv_projector := example_linear;
     i_qkv_layernorm := example_affine;
     i_attention_mlp := example_linear;
     i_attended_memory_layernorm := example_affine;
     i_attended_memory_layernorm2 := example_affine;
     i_input_projector := example_linear;
     i_input_gate_projector := example_linear;
     i_memory_gate_projector := example_linear |}.

Definition example_args (gate : option string) (key : option nat) : Args term :=
  {| a_mem_slots := 1;
     a_head_size := 4;
     a_input_size := 4;
     a_num_heads := 1;
     a_num_blocks := 1;
     a_forget_bias := TConst 1;
     a_input_bias := TConst 0;
     a_gate_style := gate;
     a_attention_mlp_layers := 2;
     a_key_size := key;
     a_return_all_outputs := false |}.

(** The arguments of a core whose heads have size 0. *)
Definition example_args_head_size_0 : Args term :=
  {| a_mem_slots := 1;
     a_head_size := 0;
     a_input_size := 4;
     a_num_heads := 1;
     a_num_blocks := 1;
     a_forget_bias := TConst 1;
     a_input_bias := TConst 0;
     a_gate_style := None;
     a_attention_mlp_layers := 1;
     a_key_size := None;
     a_return_all_outputs := false |}.

(** A constant tensor of shape [d0, d1, d2]. *)
Definition example_tensor (d0 d1 d2 : nat) : list (list (list term)) :=
  repeat (repeat (repeat (TConst 2) d2) d1) d0.

(** ** Vocabulary of the statements *)

Definition allowed_gate_styles : list (option string) :=
  [Some "unit"%string; Some "memory"%string; None].

(** The element at [b, s, j]. *)
Definition get3 {X : Type} (d : X) (t : list (list (list X))) (b s j : nat) : X :=
  nth j (nth s (nth b t []) []) d.

(** The column of the left operand that meets column [j] of the right
    one: itself when the widths agree, the only one otherwise. *)
Definition bcol (g w j : nat) : nat := if g =? w then j else 0.

Section Vocabulary.
Context {F : Type} `{Scalar F}.

(** What [__init__] rejects. *)
Definition rejected (a : Args F) : Prop :=
  (a_num_blocks a < 1)%Z \/
  ~ In (a_gate_style a) allowed_gate_styles \/
  (a_attention_mlp_layers a < 1)%Z.

(** The seed of the memory in the specification's words: the identity
    matrix of size [slots], zero-padded on the trailing axis to [width]
    columns when [width > slots], cut to its first [width] columns when
    [width < slots]. *)
Definition identity_derived (slots width : nat) : list (list F) :=
  if slots <? width then
    map (fun r => r ++ repeat s0 (width - slots)) (eye slots)
  else if width <? slots then map (firstn width) (eye slots)
  else eye slots.

(** Shapes as propositions, for the proofs. *)
Definition Shape1 {A : Type} (d0 : nat) (v : list A) : Prop :=
  length v = d0.

Definition Shape2 {A : Type} (d0 d1 : nat) (m : list (list A)) : Prop :=
  length m = d0 /\ Forall (Shape1 d1) m.

Definition Shape3 {A : Type} (d0 d1 d2 : nat) (t : list (list (list A))) : Prop :=
  length t = d0 /\ Forall (Shape2 d1 d2) t.

Definition Shape4 {A : Type} (d0 d1 d2 d3 : nat)
           (t : list (list (list (list A)))) : Prop :=
  length t = d0 /\ Forall (Shape3 d1 d2 d3) t.

(** The relations among the attributes that [__init__] establishes and
    that no method changes. *)
Record WellFormed (self : RelationalMemory F) : Prop := {
  wf_mem_size : mem_size self = head_size self * num_heads self;
  wf_num_blocks : (1 <= num_blocks self)%Z;
  wf_gate_style : In (gate_style self) allowed_gate_styles;
  wf_value_size : value_size self = head_size self;
  wf_qkv_size : qkv_size self = 2 * key_size self + value_size self;
  wf_total_qkv_size : total_qkv_size self = qkv_size self * num_heads self;
  wf_key_size : head_size self <> 0 -> key_size self <> 0;
  wf_qkv_projector :
    in_features (qkv_projector self) = mem_size self /\
    out_features (qkv_projector self) = total_qkv_size self;
  wf_qkv_layernorm :
    normalized_shape (qkv_layernorm self) =
    (mem_slots self + 1, total_qkv_size self);
  wf_attention_mlp :
    Forall (fun l => in_features l = mem_size self /\
                     out_features l = mem_size self) (attention_mlp self);
  wf_layernorm :
    normalized_shape (attended_memory_layernorm self) =
    (mem_slots self + 1, mem_size self);
  wf_layernorm2 :
    normalized_shape (attended_memory_layernorm2 self) =
    (mem_slots self + 1, mem_size self);
  wf_input_projector :
    in_features (input_projector self) = input_size self /\
    out_features (input_projector self) = mem_size self;
  wf_num_gates :
    num_gates self = 2 * calculate_gate_size (gate_style self) (mem_size self);
  wf_input_gate_projector :
    in_features (input_gate_projector self) = mem_size self /\
    out_features (input_gate_projector self) = num_gates self;
  wf_memory_gate_projector :
    in_features (memory_gate_projector self) = mem_size self /\
    out_features (memory_gate_projector self) = num_gates self
}.



(** The width of each gate: [calculate_gate_size()]. *)
Definition gate_size (self : RelationalMemory F) : nat :=
  calculate_gate_size (gate_style self) (mem_size self).

(** The sequence driver as a fold that carries the memory: one
    [forward_step] (vector input handling) per element, in order, each
    on the memory the previous one returned. *)
Fixpoint run_steps (self : RelationalMemory F) (xs : list (any_tensor F))
         (memory : list (list (list F)))
  : result (list (list (list F)) * list (list (list F))) :=
  match xs with
  | [] => Ok ([], memory)
  | x :: xs' =>
      '(output, memory') <- forward_step self x memory false ;;
      '(outputs, final) <- run_steps self xs' memory' ;;
      Ok (output :: outputs, final)
  end.

(** [inputs[:, 0], ..., inputs[:, T-1]] *)
Definition step_inputs (n : nat) (x : tensor F (S (S n))) : list (any_tensor F) :=
  map (fun idx => of_rank (S n) (select1 idx x)) (seq 0 (dim1 x)).

(** The same core with [return_all_outputs] set to [b]. *)
Definition set_return_all_outputs (b : bool) (self : RelationalMemory F)
  : RelationalMemory F :=
  {| mem_slots := mem_slots self;
     head_size := head_size self;
     num_heads := num_heads self;
     mem_size := mem_size self;
     mem_slots_plus_input := mem_slots_plus_input self;
     num_blocks := num_blocks self;
     gate_style := gate_style self;
     attention_mlp_layers := attention_mlp_layers self;
     key_size := key_size self;
     value_size := value_size self;
     qkv_size := qkv_size self;
     total_qkv_size := total_qkv_size self;
     qkv_projector := qkv_projector self;
     qkv_layernorm := qkv_layernorm self;
     attention_mlp := attention_mlp self;
     attended_memory_layernorm := attended_memory_layernorm self;
     attended_memory_layernorm2 := attended_memory_layernorm2 self;
     input_size := input_size self;
     input_projector := input_projector self;
     num_gates := num_gates self;
     input_gate_projector := input_gate_projector self;
     memory_gate_projector := memory_gate_projector self;
     forget_bias := forget_bias self;
     input_bias := input_bias self;
     return_all_outputs := b |}.

(** The tensors of a hidden state, left to right. *)
Fixpoint tensors_of (h : hidden F) : list (tracked F) :=
  match h with
  | HTensor t => [t]
  | HTuple hs | HList hs => flat_map tensors_of hs
  end.

(** No list is left in the state: every container is a tuple. *)
Fixpoint tuples_only (h : hidden F) : bool :=
  match h with
  | HTensor _ => true
  | HTuple hs => forallb tuples_only hs
  | HList _ => false
  end.

(** The nesting of a hidden state, containers told apart no more. *)
Inductive same_nesting : hidden F -> hidden F -> Prop :=
| same_tensor (t t' : tracked F) :
    data t = data t' -> same_nesting (HTensor t) (HTensor t')
| same_tuple_tuple (hs hs' : list (hidden F)) :
    Forall2 same_nesting hs hs' -> same_nesting (HTuple hs) (HTuple hs')
| same_list_tuple (hs hs' : list (hidden F)) :
    Forall2 same_nesting hs hs' -> same_nesting (HList hs) (HTuple hs').

End Vocabulary.

(** * Properties *)

(** ** The result monad *)

Lemma bind_Ok {A B : Type} (c : result A) (k : A -> result B) (b : B) :
  bind c k = Ok b <-> exists a, c = Ok a /\ k a = Ok b.
Proof.
  destruct c as [a|e]; simpl; split.
  - intros Hk. exists a. auto.
  - intros [a' [Ha Hk]]. inversion Ha. subst. exact Hk.
  - discriminate.
  - intros [a' [Ha _]]. discriminate.
Qed.


Tactic Notation "inv_bind" hyp(H) "as" ident(a) ident(Ha) :=
  apply bind_Ok in H; destruct H as [a [Ha H]].

Lemma mapM_Ok {A B : Type} (f : A -> result B) (l : list A) (bs : list B) :
  mapM f l = Ok bs <-> Forall2 (fun a b => f a = Ok b) l bs.
Proof.
  revert bs. induction l as [|a l IH]; intros bs; simpl.
  - split.
    + intros E. inversion E. constructor.
    + intros E. inversion E. reflexivity.
  - split.
    + intros E. inv_bind E as b Hb. inv_bind E as bs' Hbs. inversion E. subst.
      constructor; [assumption | apply IH; assumption].
    + intros E. inversion E as [|? b ? bs' Hab Hrest]. subst.
      rewrite Hab. simpl.
      apply IH in Hrest. rewrite Hrest. reflexivity.
Qed.

(** [mapM] succeeds when [f] does on every element, and carries a
    property of the images over. *)
Lemma mapM_total {A B : Type} (f : A -> result B) (P : B -> Prop) (l : list A) :
  Forall (fun a => exists b, f a = Ok b /\ P b) l ->
  exists bs, mapM f l = Ok bs /\ length bs = length l /\ Forall P bs.
Proof.
  induction 1 as [|a l [b [Hb HP]] _ [bs [Hbs [Hlen HF]]]]; simpl.
  - exists []. auto.
  - exists (b :: bs). rewrite Hb, Hbs. simpl. auto.
Qed.



(** ** Shapes *)

Lemma shape1_iff {A : Type} (d0 : nat) (v : list A) :
  shape1 d0 v = true <-> length v = d0.
Proof. unfold shape1. apply Nat.eqb_eq. Qed.

Lemma shape2_iff {A : Type} (d0 d1 : nat) (m : list (list A)) :
  shape2 d0 d1 m = true <-> length m = d0 /\ Forall (fun r => length r = d1) m.
Proof.
  unfold shape2. rewrite andb_true_iff, Nat.eqb_eq, forallb_forall, Forall_forall.
  split; intros [Hl Hf]; split; auto; intros r Hr; apply shape1_iff; auto.
Qed.

Lemma shape3_iff {A : Type} (d0 d1 d2 : nat) (t : list (list (list A))) :
  shape3 d0 d1 d2 t = true <->
  length t = d0 /\ Forall (fun m => shape2 d1 d2 m = true) t.
Proof.
  unfold shape3. rewrite andb_true_iff, Nat.eqb_eq, forallb_forall, Forall_forall.
  reflexivity.
Qed.

Lemma Forall_repeat {A : Type} (P : A -> Prop) (a : A) (n : nat) :
  P a -> Forall P (repeat a n).
Proof. intros Ha. induction n; simpl; constructor; auto. Qed.

Lemma gate_style_eqb_eq (a b : option string) :
  gate_style_eqb a b = true <-> a = b.
Proof.
  destruct a as [x|], b as [y|]; simpl; split; intros E;
    try discriminate; try reflexivity.
  - apply String.eqb_eq in E. subst. reflexivity.
  - inversion E. apply String.eqb_refl.
Qed.

(** ** Construction *)

Section Construction.
Context {F : Type} `{Scalar F}.

Lemma gate_style_allowed (g : option string) :
  existsb (gate_style_eqb g) allowed_gate_styles = true <->
  In g allowed_gate_styles.
Proof.
  rewrite existsb_exists. split.
  - intros [g' [Hin Heq]]. apply gate_style_eqb_eq in Heq. subst. assumption.
  - intros Hin. exists g. split; [assumption | apply gate_style_eqb_eq; reflexivity].
Qed.

Lemma init_cases (a : Args F) (i : Init F) :
  (rejected a /\ exists msg, __init__ a i = Raise (ValueError msg)) \/
  (~ rejected a /\ exists rm, __init__ a i = Ok rm).
Proof.
  unfold __init__, rejected.
  destruct (Z.ltb_spec (a_num_blocks a) 1) as [Hb|Hb].
  { left. split; [left; assumption | eexists; reflexivity]. }
  fold allowed_gate_styles.
  destruct (existsb (gate_style_eqb (a_gate_style a)) allowed_gate_styles) eqn:Hg;
    simpl.
  2:{ left. split; [|eexists; reflexivity].
      right. left. intros Hin. apply gate_style_allowed in Hin. congruence. }
  apply gate_style_allowed in Hg.
  destruct (Z.ltb_spec (a_attention_mlp_layers a) 1) as [Hl|Hl].
  { left. split; [right; right; assumption | eexists; reflexivity]. }
  right. split; [|eexists; reflexivity].
  intros [Hr | [Hr | Hr]]; [lia | contradiction | lia].
Qed.

(** C4. Construction raises (a ValueError) exactly when [num_blocks < 1],
    or [gate_style] is none of 'unit', 'memory', None, or
    [attention_mlp_layers < 1]; for all other arguments it returns the
    constructed core. *)
Theorem init_raises_iff (a : Args F) (i : Init F) :
  ((exists e, __init__ a i = Raise e) <-> rejected a) /\
  ((exists msg, __init__ a i = Raise (ValueError msg)) <-> rejected a) /\
  ((exists rm, __init__ a i = Ok rm) <-> ~ rejected a).
Proof.
  destruct (init_cases a i) as [[Hr [msg Hm]] | [Hr [rm Hm]]]; rewrite Hm.
  - split; [|split]; split; try (intros; assumption).
    + intros _. eexists. reflexivity.
    + intros _. eexists. reflexivity.
    + intros [rm' E]. discriminate.
    + intros Hn. contradiction.
  - split; [|split]; split; try (intros; assumption).
    + intros [e E]. discriminate.
    + intros Hn. contradiction.
    + intros [e E]. discriminate.
    + intros Hn. contradiction.
    + intros _. eexists. reflexivity.
Qed.

End Construction.

(** ** Memory initialisation *)

Section InitialState.
Context {F : Type} `{Scalar F}.

Lemma map_const_repeat {A B : Type} (b : B) (l : list A) :
  map (fun _ => b) l = repeat b (length l).
Proof. induction l; simpl; congruence. Qed.

Lemma zipM_repeat {A B C : Type} (e : exn) (f : A -> B -> result C)
      (a : A) (b : B) (c : C) (n : nat) :
  f a b = Ok c -> zipM e f (repeat a n) (repeat b n) = Ok (repeat c n).
Proof.
  intros Hf. induction n as [|n IH]; simpl; [reflexivity|].
  rewrite Hf. simpl. rewrite IH. reflexivity.
Qed.

Lemma zipM_app_repeat {A : Type} (e : exn) (z : list A) (m : list (list A)) :
  zipM e (fun r1 r2 => Ok (r1 ++ r2)) m (repeat z (length m)) =
  Ok (map (fun r => r ++ z) m).
Proof.
  induction m as [|r m IH]; simpl; [reflexivity|].
  rewrite IH. reflexivity.
Qed.

Lemma eye_length (n : nat) : length (eye (F:=F) n) = n.
Proof. unfold eye. rewrite length_map, length_seq. reflexivity. Qed.

Lemma eye_rows (n : nat) : Forall (fun r => length r = n) (eye (F:=F) n).
Proof.
  unfold eye. apply Forall_forall. intros r Hr.
  apply in_map_iff in Hr. destruct Hr as [i [Hi _]]. subst.
  rewrite length_map, length_seq. reflexivity.
Qed.

Lemma eye_nth (n i j : nat) :
  i < n -> j < n ->
  nth j (nth i (eye (F:=F) n) []) s0 = if i =? j then s1 else s0.
Proof.
  intros Hi Hj. unfold eye.
  rewrite (nth_indep _ [] (map (fun j => if 0 =? j then s1 else s0) (seq 0 n)))
    by (rewrite length_map, length_seq; assumption).
  rewrite (map_nth (fun i => map (fun j => if i =? j then s1 else s0) (seq 0 n))).
  rewrite seq_nth by assumption. simpl.
  rewrite (nth_indep _ s0 (if i =? 0 then s1 else s0))
    by (rewrite length_map, length_seq; assumption).
  rewrite (map_nth (fun j => if i =? j then s1 else s0)).
  rewrite seq_nth by assumption. reflexivity.
Qed.

Lemma identity_derived_shape (slots width : nat) :
  shape2 slots width (identity_derived slots width) = true.
Proof.
  apply shape2_iff. unfold identity_derived.
  pose proof (eye_rows slots) as Hrows.
  destruct (Nat.ltb_spec slots width) as [Hlt|Hge];
    [|destruct (Nat.ltb_spec width slots) as [Hlt|Hge']].
  - rewrite length_map, eye_length. split; [reflexivity|].
    apply Forall_map. eapply Forall_impl; [|exact Hrows].
    simpl. intros r Hr. rewrite length_app, repeat_length. lia.
  - rewrite length_map, eye_length. split; [reflexivity|].
    apply Forall_map. eapply Forall_impl; [|exact Hrows].
    simpl. intros r Hr. rewrite length_firstn. lia.
  - rewrite eye_length. split; [reflexivity|].
    replace width with slots by lia. exact Hrows.
Qed.

Lemma identity_derived_nth (slots width i j : nat) :
  i < slots -> j < width ->
  nth j (nth i (identity_derived slots width) []) s0 = if i =? j then s1 else s0.
Proof.
  intros Hi Hj. unfold identity_derived.
  assert (Hrow : length (nth i (eye (F:=F) slots) []) = slots).
  { pose proof (eye_rows slots) as Hrows. rewrite Forall_forall in Hrows.
    apply Hrows. apply nth_In. rewrite eye_length. assumption. }
  destruct (Nat.ltb_spec slots width) as [Hlt|Hge];
    [|destruct (Nat.ltb_spec width slots) as [Hlt|Hge']].
  - rewrite (nth_indep _ _ ((fun r : list F => r ++ repeat s0 (width - slots)) []))
      by (rewrite length_map, eye_length; assumption).
    rewrite (map_nth (fun r : list F => r ++ repeat s0 (width - slots))).
    destruct (Nat.lt_ge_cases j slots) as [Hjs|Hjs].
    + rewrite app_nth1 by lia. apply eye_nth; assumption.
    + rewrite app_nth2 by lia. rewrite nth_repeat.
      destruct (Nat.eqb_spec i j); [lia | reflexivity].
  - rewrite (nth_indep _ _ (firstn width []))
      by (rewrite length_map, eye_length; assumption).
    rewrite (map_nth (firstn width)).
    rewrite nth_firstn.
    destruct (Nat.ltb_spec j width); [|lia].
    apply eye_nth; lia.
  - apply eye_nth; lia.
Qed.

Lemma stack_repeat {A : Type} (a : A) (n : nat) :
  1 <= n -> stack (repeat a n) = Ok (repeat a n).
Proof. destruct n; [lia | reflexivity]. Qed.

Lemma initial_state_eq (self : RelationalMemory F) (batch_size : nat) :
  1 <= batch_size ->
  initial_state self batch_size =
  Ok (repeat (identity_derived (mem_slots self) (mem_size self)) batch_size).
Proof.
  intros HB. unfold initial_state, identity_derived.
  rewrite map_const_repeat, length_seq, stack_repeat by assumption.
  cbn [bind].
  destruct (Nat.ltb_spec (mem_slots self) (mem_size self)) as [Hlt|Hge];
    [|destruct (Nat.ltb_spec (mem_size self) (mem_slots self)) as [Hlt|Hge']].
  - unfold cat_last, zeros3.
    apply zipM_repeat.
    pose proof (zipM_app_repeat cat_mismatch
                  (repeat s0 (mem_size self - mem_slots self))
                  (eye (mem_slots self))) as Hz.
    rewrite eye_length in Hz. exact Hz.
  - rewrite map_repeat. reflexivity.
  - reflexivity.
Qed.

(** C2. For every batch size [B >= 1], [initial_state B] returns [B]
    copies of one matrix of shape [mem_slots, mem_size]: the identity of
    size [mem_slots], zero-padded on the trailing axis when
    [mem_size > mem_slots], cut to the first [mem_size] columns when
    [mem_size < mem_slots]; its entry [i, j] is 1 on the diagonal and 0
    elsewhere. *)
Theorem initial_state_identity (self : RelationalMemory F) (B : nat) :
  1 <= B ->
  exists state,
    initial_state self B = Ok state /\
    shape3 B (mem_slots self) (mem_size self) state = true /\
    state = repeat (identity_derived (mem_slots self) (mem_size self)) B /\
    forall b i j, b < B -> i < mem_slots self -> j < mem_size self ->
      nth j (nth i (nth b state []) []) s0 = if i =? j then s1 else s0.
Proof.
  intros HB. eexists. split; [apply initial_state_eq; assumption|].
  split; [|split; [reflexivity|]].
  - apply shape3_iff. split; [apply repeat_length|].
    apply Forall_repeat. apply identity_derived_shape.
  - intros b i j Hb Hi Hj. rewrite nth_repeat_lt by assumption.
    apply identity_derived_nth; assumption.
Qed.

End InitialState.

(** ** What the constructor establishes *)

Section Invariants.
Context {F : Type} `{Scalar F}.

Lemma init_Ok_fields (a : Args F) (i : Init F) (self : RelationalMemory F) :
  __init__ a i = Ok self ->
  mem_slots self = a_mem_slots a /\
  head_size self = a_head_size a /\
  num_heads self = a_num_heads a /\
  input_size self = a_input_size a /\
  gate_style self = a_gate_style a /\
  num_blocks self = a_num_blocks a /\
  return_all_outputs self = a_return_all_outputs a /\
  key_size self = match a_key_size a with
                  | Some k => if k =? 0 then a_head_size a else k
                  | None => a_head_size a
                  end.
Proof.
  unfold __init__.
  destruct (a_num_blocks a <? 1)%Z; [discriminate|].
  destruct (negb _); [discriminate|].
  destruct (a_attention_mlp_layers a <? 1)%Z; [discriminate|].
  intros E. inversion E. simpl. repeat split; reflexivity.
Qed.

Lemma init_WellFormed (a : Args F) (i : Init F) (self : RelationalMemory F) :
  __init__ a i = Ok self -> WellFormed self.
Proof.
  unfold __init__.
  destruct (Z.ltb_spec (a_num_blocks a) 1) as [Hb|Hb]; [discriminate|].
  fold allowed_gate_styles.
  destruct (existsb _ allowed_gate_styles) eqn:Hg; simpl; [|discriminate].
  apply gate_style_allowed in Hg.
  destruct (Z.ltb_spec (a_attention_mlp_layers a) 1) as [Hl|Hl]; [discriminate|].
  intros E. inversion E. constructor; cbn -[Nat.mul allowed_gate_styles];
    try reflexivity; try assumption; try (split; reflexivity).
  - destruct (a_key_size a) as [k|]; [|auto].
    destruct (Nat.eqb_spec k 0); auto.
  - apply Forall_repeat. split; reflexivity.
Qed.

End Invariants.

(** ** Shapes through the primitives *)

Lemma shape2_Shape2 {A : Type} (d0 d1 : nat) (m : list (list A)) :
  shape2 d0 d1 m = true <-> Shape2 d0 d1 m.
Proof. apply shape2_iff. Qed.

Lemma shape3_Shape3 {A : Type} (d0 d1 d2 : nat) (t : list (list (list A))) :
  shape3 d0 d1 d2 t = true <-> Shape3 d0 d1 d2 t.
Proof.
  rewrite shape3_iff. unfold Shape3. rewrite !Forall_forall.
  split; intros [Hl Hf]; split; auto; intros m Hm; apply shape2_Shape2; auto.
Qed.

Lemma Forall_map_impl {A B : Type} (P : A -> Prop) (Q : B -> Prop)
      (f : A -> B) (l : list A) :
  (forall a, P a -> Q (f a)) -> Forall P l -> Forall Q (map f l).
Proof.
  intros Hf Hl. apply Forall_map. eapply Forall_impl; [|exact Hl]. exact Hf.
Qed.

Lemma Shape2_map {A B : Type} (f : A -> B) (d0 d1 : nat) (m : list (list A)) :
  Shape2 d0 d1 m -> Shape2 d0 d1 (map (map f) m).
Proof.
  intros [Hl Hf]. split; [rewrite length_map; assumption|].
  apply Forall_map_impl with (P := Shape1 d1); [|assumption].
  unfold Shape1. intros r Hr. rewrite length_map. assumption.
Qed.

Lemma Shape3_map3 {A B : Type} (f : A -> B) (d0 d1 d2 : nat)
      (t : list (list (list A))) :
  Shape3 d0 d1 d2 t -> Shape3 d0 d1 d2 (map3 f t).
Proof.
  intros [Hl Hf]. split; [unfold map3; rewrite length_map; assumption|].
  apply Forall_map_impl with (P := Shape2 d1 d2); [|assumption].
  intros m. apply Shape2_map.
Qed.

Lemma Shape4_map4 {A B : Type} (f : A -> B) (d0 d1 d2 d3 : nat)
      (t : list (list (list (list A)))) :
  Shape4 d0 d1 d2 d3 t -> Shape4 d0 d1 d2 d3 (map4 f t).
Proof.
  intros [Hl Hf]. split; [unfold map4; rewrite length_map; assumption|].
  apply Forall_map_impl with (P := Shape3 d1 d2 d3); [|assumption].
  intros m. apply (Shape3_map3 f).
Qed.

(** A row-wise map that sends width [d2] to width [d2']. *)
Lemma Shape3_map_rows {A B : Type} (f : list A -> list B) (d0 d1 d2 d2' : nat)
      (t : list (list (list A))) :
  (forall r, length r = d2 -> length (f r) = d2') ->
  Shape3 d0 d1 d2 t -> Shape3 d0 d1 d2' (map (map f) t).
Proof.
  intros Hf [Hl Ht]. split; [rewrite length_map; assumption|].
  apply Forall_map_impl with (P := Shape2 d1 d2); [|assumption].
  intros m [Hm Hr]. split; [rewrite length_map; assumption|].
  apply Forall_map_impl with (P := Shape1 d2); [|assumption].
  exact Hf.
Qed.

Lemma Shape4_map_rows {A B : Type} (f : list A -> list B) (d0 d1 d2 d3 d3' : nat)
      (t : list (list (list (list A)))) :
  (forall r, length r = d3 -> length (f r) = d3') ->
  Shape4 d0 d1 d2 d3 t -> Shape4 d0 d1 d2 d3' (map3 f t).
Proof.
  intros Hf [Hl Ht]. split; [unfold map3; rewrite length_map; assumption|].
  apply Forall_map_impl with (P := Shape3 d1 d2 d3); [|assumption].
  intros m. apply Shape3_map_rows. exact Hf.
Qed.

Lemma map2_length {A B C : Type} (f : A -> B -> C) (l1 : list A) (l2 : list B) :
  length l1 = length l2 -> length (map2 f l1 l2) = length l1.
Proof.
  intros Hl. unfold map2. rewrite length_map, length_combine. lia.
Qed.

Lemma map2_Forall {A B C : Type} (P : A -> Prop) (Q : B -> Prop) (R : C -> Prop)
      (f : A -> B -> C) (l1 : list A) (l2 : list B) :
  (forall a b, P a -> Q b -> R (f a b)) ->
  Forall P l1 -> Forall Q l2 -> Forall R (map2 f l1 l2).
Proof.
  intros Hf H1. revert l2. induction H1 as [|a l1 Ha _ IH]; intros l2 H2.
  - constructor.
  - destruct H2 as [|b l2 Hb H2]; [constructor|].
    unfold map2. simpl. constructor; [apply Hf; assumption|].
    apply IH. assumption.
Qed.

Lemma mapi_from_length {A B : Type} (k : nat) (f : nat -> A -> B) (l : list A) :
  length (mapi_from k f l) = length l.
Proof. revert k. induction l; intros k; simpl; auto. Qed.

Lemma mapi_from_Forall {A B : Type} (P : A -> Prop) (Q : B -> Prop)
      (k : nat) (f : nat -> A -> B) (l : list A) :
  (forall i a, P a -> Q (f i a)) -> Forall P l -> Forall Q (mapi_from k f l).
Proof.
  intros Hf Hl. revert k. induction Hl; intros k; simpl; constructor; auto.
Qed.

Lemma chunks_shape {A : Type} (k n : nat) (l : list A) :
  length l = n * k -> Shape2 n k (chunks k n l).
Proof.
  revert l. induction n as [|n IH]; intros l Hl; simpl.
  - split; [reflexivity | constructor].
  - destruct (IH (skipn k l)) as [Hlen Hrows].
    { rewrite length_skipn. lia. }
    split; [simpl; congruence|].
    constructor; [|assumption].
    unfold Shape1. rewrite length_firstn. lia.
Qed.

Lemma transpose_shape {A : Type} (P : A -> Prop) (dflt : A) (n d : nat)
      (m : list (list A)) :
  length m = n -> Forall (fun row => length row = d /\ Forall P row) m ->
  length (transpose dflt d m) = d /\
  Forall (fun col => length col = n /\ Forall P col) (transpose dflt d m).
Proof.
  intros Hn Hm. unfold transpose. rewrite length_map, length_seq.
  split; [reflexivity|].
  apply Forall_forall. intros col Hcol.
  apply in_map_iff in Hcol. destruct Hcol as [j [Hj Hin]]. subst col.
  apply in_seq in Hin.
  split; [rewrite length_map; assumption|].
  apply Forall_map_impl with (P := fun row => length row = d /\ Forall P row);
    [|assumption].
  intros row [Hlen Hrow]. rewrite Forall_forall in Hrow. apply Hrow.
  apply nth_In. lia.
Qed.

Lemma concat_length_uniform {A : Type} (n d : nat) (m : list (list A)) :
  Shape2 n d m -> length (concat m) = n * d.
Proof.
  intros [Hn Hm]. subst n. induction Hm as [|r m Hr _ IH]; simpl; [reflexivity|].
  rewrite length_app, IH. unfold Shape1 in Hr. lia.
Qed.

Lemma Shape3_dim1 {A : Type} (d0 d1 d2 : nat) (t : list (list (list A))) :
  Shape3 d0 d1 d2 t -> 1 <= d0 -> dim1 t = d1.
Proof.
  intros [Hl Hf] Hd. destruct t as [|m t]; simpl in *; [lia|].
  inversion Hf as [|? ? [Hm _] _]. assumption.
Qed.

Lemma Shape3_dim2 {A : Type} (d0 d1 d2 : nat) (t : list (list (list A))) :
  Shape3 d0 d1 d2 t -> 1 <= d0 -> 1 <= d1 -> dim2 t = d2.
Proof.
  intros [Hl Hf] Hd0 Hd1. destruct t as [|m t]; simpl in *; [lia|].
  inversion Hf as [|? ? [Hm Hr] _]. destruct m as [|r m]; simpl in *; [lia|].
  inversion Hr. assumption.
Qed.

Lemma Shape2_dim1 {A : Type} (d0 d1 : nat) (m : list (list A)) :
  Shape2 d0 d1 m -> 1 <= d0 -> dim1 m = d1.
Proof.
  intros [Hl Hf] Hd. destruct m as [|r m]; simpl in *; [lia|].
  inversion Hf. assumption.
Qed.

Section Layers.
Context {F : Type} `{Scalar F}.

Lemma linear_total (l : Linear F) (x : list F) :
  length x = in_features l ->
  exists y, linear l x = Ok y /\ Shape1 (out_features l) y.
Proof.
  intros Hx. unfold linear. rewrite Hx, Nat.eqb_refl.
  eexists. split; [reflexivity|].
  unfold Shape1. rewrite length_map, length_seq. reflexivity.
Qed.


Lemma linear2_total (l : Linear F) (d0 : nat) (m : list (list F)) :
  Shape2 d0 (in_features l) m ->
  exists y, linear2 l m = Ok y /\ Shape2 d0 (out_features l) y.
Proof.
  intros [Hl Hm]. unfold linear2.
  destruct (mapM_total (linear l) (Shape1 (out_features l)) (l := m))
    as [y [Hy [Hlen HF]]].
  - eapply Forall_impl; [|exact Hm]. intros r Hr. apply linear_total. exact Hr.
  - exists y. split; [assumption|]. split; [congruence | assumption].
Qed.

Lemma linear3_total (l : Linear F) (d0 d1 : nat) (t : list (list (list F))) :
  Shape3 d0 d1 (in_features l) t ->
  exists y, linear3 l t = Ok y /\ Shape3 d0 d1 (out_features l) y.
Proof.
  intros [Hl Ht]. unfold linear3.
  destruct (mapM_total (linear2 l) (Shape2 d1 (out_features l)) (l := t))
    as [y [Hy [Hlen HF]]].
  - eapply Forall_impl; [|exact Ht]. intros m Hm. apply linear2_total. exact Hm.
  - exists y. split; [assumption|]. split; [congruence | assumption].
Qed.



Lemma normalize_shape (ln : LayerNorm F) (d0 d1 : nat) (m : list (list F)) :
  Shape2 d0 d1 m -> Shape2 d0 d1 (normalize ln m).
Proof.
  intros [Hl Hm]. unfold normalize, mapi.
  split; [rewrite mapi_from_length; assumption|].
  apply mapi_from_Forall with (P := Shape1 d1); [|assumption].
  unfold Shape1. intros i r Hr. rewrite mapi_from_length. assumption.
Qed.

Lemma layer_norm_total (ln : LayerNorm F) (m : list (list F)) :
  Shape2 (fst (normalized_shape ln)) (snd (normalized_shape ln)) m ->
  exists y, layer_norm ln m = Ok y /\
            Shape2 (fst (normalized_shape ln)) (snd (normalized_shape ln)) y.
Proof.
  intros Hm. unfold layer_norm.
  rewrite (proj2 (shape2_Shape2 _ _ _) Hm).
  eexists. split; [reflexivity|]. apply normalize_shape. assumption.
Qed.

Lemma layer_norm_wrong_shape (ln : LayerNorm F) (m : list (list F)) :
  length m <> fst (normalized_shape ln) ->
  exists msg, layer_norm ln m = Raise (RuntimeError msg).
Proof.
  intros Hm. unfold layer_norm, shape2.
  destruct (Nat.eqb_spec (length m) (fst (normalized_shape ln))); [contradiction|].
  simpl. eexists. reflexivity.
Qed.

Lemma layer_norm3_total (ln : LayerNorm F) (d0 d1 d2 : nat)
      (t : list (list (list F))) :
  normalized_shape ln = (d1, d2) ->
  Shape3 d0 d1 d2 t ->
  exists y, layer_norm3 ln t = Ok y /\ Shape3 d0 d1 d2 y.
Proof.
  intros Hn [Hl Ht]. unfold layer_norm3.
  destruct (mapM_total (layer_norm ln) (Shape2 d1 d2) (l := t))
    as [y [Hy [Hlen HF]]].
  - eapply Forall_impl; [|exact Ht]. intros m Hm.
    pose proof (@layer_norm_total ln m) as Ht'. rewrite Hn in Ht'. simpl in Ht'.
    apply Ht'. assumption.
  - exists y. split; [assumption|]. split; [congruence | assumption].
Qed.

End Layers.

(** ** Multi-head attention *)

Section Attention.
Context {F : Type} `{Scalar F}.
Variable self : RelationalMemory F.
Hypothesis wf : WellFormed self.

Lemma view_heads_total (d0 slots : nat) (qkv : list (list (list F))) :
  Shape3 d0 slots (num_heads self * qkv_size self) qkv ->
  exists t, view_heads self slots qkv = Ok t /\
            Shape4 d0 slots (num_heads self) (qkv_size self) t.
Proof.
  intros [Hl Hq]. unfold view_heads.
  match goal with |- exists t, mapM ?f qkv = _ /\ _ =>
    destruct (mapM_total f (Shape3 slots (num_heads self) (qkv_size self)) (l := qkv))
      as [t [Ht [Hlen HF]]]
  end.
  - eapply Forall_impl; [|exact Hq]. intros m [Hm Hrows].
    rewrite Hm, Nat.eqb_refl.
    match goal with |- exists b, mapM ?g m = _ /\ _ =>
      destruct (mapM_total g (Shape2 (num_heads self) (qkv_size self)) (l := m))
        as [b [Hb [Hblen HbF]]]
    end.
    + eapply Forall_impl; [|exact Hrows]. intros r Hr. unfold Shape1 in Hr.
      rewrite Hr, Nat.eqb_refl. eexists. split; [reflexivity|].
      apply chunks_shape. assumption.
    + exists b. split; [assumption|]. split; [congruence | assumption].
  - exists t. split; [assumption|]. split; [congruence | assumption].
Qed.

Lemma Shape3_at_dim1 {A B : Type} (d0 d1 d2 d2' : nat)
      (memory : list (list (list A))) (t : list (list (list B))) :
  Shape3 d0 d1 d2 memory -> Shape3 d0 d1 d2' t -> Shape3 d0 (dim1 memory) d2' t.
Proof.
  intros Hm Ht. destruct d0 as [|d0].
  - destruct Ht as [Hl _]. destruct t; [|discriminate].
    split; [reflexivity | constructor].
  - rewrite (Shape3_dim1 Hm) by lia. assumption.
Qed.

Lemma transpose_Shape3 (n d q : nat) (m : list (list (list F))) :
  Shape3 n d q m -> Shape3 d n q (transpose [] d m).
Proof.
  intros [Hn Hm].
  destruct (@transpose_shape _ (Shape1 q) [] n d m Hn) as [Hlen Hcols].
  - eapply Forall_impl; [|exact Hm]. intros row Hrow. exact Hrow.
  - split; [assumption|]. eapply Forall_impl; [|exact Hcols].
    intros col Hcol. exact Hcol.
Qed.

Lemma qkv_heads_total (d0 : nat) (memory : list (list (list F))) :
  Shape3 d0 (mem_slots self + 1) (mem_size self) memory ->
  exists t, qkv_heads self memory = Ok t /\
            Shape4 d0 (num_heads self) (dim1 memory) (qkv_size self) t.
Proof.
  intros Hm. unfold qkv_heads.
  destruct (wf_qkv_projector wf) as [Hin Hout].
  destruct (@linear3_total _ _ (qkv_projector self) d0 (mem_slots self + 1) memory)
    as [qkv [Hqkv Hs]].
  { rewrite Hin. assumption. }
  rewrite Hqkv. cbn [bind]. rewrite Hout in Hs.
  destruct (@layer_norm3_total _ _ (qkv_layernorm self) d0 _ _ qkv
                               (wf_qkv_layernorm wf) Hs) as [qkv' [Hqkv' Hs']].
  rewrite Hqkv'. cbn [bind].
  destruct (@view_heads_total d0 (dim1 memory) qkv') as [t [Ht Hst]].
  { rewrite Nat.mul_comm, <- (wf_total_qkv_size wf).
    eapply Shape3_at_dim1; eassumption. }
  rewrite Ht. cbn [bind]. eexists. split; [reflexivity|].
  destruct Hst as [Hl Hf]. split; [rewrite length_map; assumption|].
  apply Forall_map_impl with (P := Shape3 (dim1 memory) (num_heads self) (qkv_size self));
    [|assumption].
  intros m. apply transpose_Shape3.
Qed.

Lemma split_qkv_total (d0 d1 d2 : nat) (t : list (list (list (list F)))) :
  Shape4 d0 d1 d2 (qkv_size self) t ->
  exists q k v, split_qkv self t = Ok (q, k, v) /\
                Shape4 d0 d1 d2 (key_size self) q /\
                Shape4 d0 d1 d2 (key_size self) k /\
                Shape4 d0 d1 d2 (value_size self) v.
Proof.
  intros Ht. unfold split_qkv.
  assert (Hcheck : forallb (forallb (forallb (fun r : list F =>
            length r =? key_size self + key_size self + value_size self))) t = true).
  { destruct Ht as [_ Ht]. rewrite forallb_forall. intros x Hx.
    rewrite Forall_forall in Ht. destruct (Ht x Hx) as [_ Hx3].
    rewrite forallb_forall. intros y Hy.
    rewrite Forall_forall in Hx3. destruct (Hx3 y Hy) as [_ Hy2].
    rewrite forallb_forall. intros r Hr.
    rewrite Forall_forall in Hy2. pose proof (Hy2 r Hr) as Hlen.
    unfold Shape1 in Hlen. rewrite (wf_qkv_size wf) in Hlen.
    apply Nat.eqb_eq. lia. }
  rewrite Hcheck. do 3 eexists. split; [reflexivity|].
  rewrite (wf_qkv_size wf) in Ht.
  split; [|split]; eapply Shape4_map_rows; try exact Ht; intros r Hr.
  - rewrite length_firstn. lia.
  - rewrite length_firstn, length_skipn. lia.
  - rewrite length_skipn. lia.
Qed.


Lemma matmul_nt_shape (n n' : nat) (a b : list (list F)) :
  length a = n -> length b = n' -> Shape2 n n' (matmul_nt a b).
Proof.
  intros Ha Hb. unfold matmul_nt. split; [rewrite length_map; assumption|].
  apply Forall_forall. intros r Hr. apply in_map_iff in Hr.
  destruct Hr as [ai [Hr _]]. subst r. unfold Shape1.
  rewrite length_map. assumption.
Qed.

Lemma matmul_shape (n d : nat) (w v : list (list F)) :
  length w = n -> dim1 v = d -> Shape2 n d (matmul w v).
Proof.
  intros Hw Hv. unfold matmul. split; [rewrite length_map; assumption|].
  apply Forall_forall. intros r Hr. apply in_map_iff in Hr.
  destruct Hr as [wi [Hr _]]. subst r. unfold Shape1.
  rewrite length_map, length_seq. assumption.
Qed.

Lemma softmax_length (row : list F) : length (softmax row) = length row.
Proof. unfold softmax. rewrite !length_map. reflexivity. Qed.

Lemma map2_Shape {A B C : Type} (P : A -> Prop) (Q : B -> Prop) (R : C -> Prop)
      (f : A -> B -> C) (n : nat) (l1 : list A) (l2 : list B) :
  (forall a b, P a -> Q b -> R (f a b)) ->
  length l1 = n /\ Forall P l1 -> length l2 = n /\ Forall Q l2 ->
  length (map2 f l1 l2) = n /\ Forall R (map2 f l1 l2).
Proof.
  intros Hf [H1 F1] [H2 F2]. split.
  - rewrite map2_length; congruence.
  - eapply map2_Forall; eassumption.
Qed.

Lemma attention_shape (d0 n : nat) (q k v : list (list (list (list F)))) (c : F) :
  1 <= n ->
  Shape4 d0 (num_heads self) n (key_size self) q ->
  Shape4 d0 (num_heads self) n (key_size self) k ->
  Shape4 d0 (num_heads self) n (value_size self) v ->
  Shape3 d0 n (num_heads self * value_size self) (attention n q k v c).
Proof.
  intros Hn Hq Hk Hv. unfold attention.
  pose proof (Shape4_map4 (fun x => smul x c) Hq) as Hq'.
  set (q' := map4 (fun x => smul x c) q) in *.
  assert (Hd : Shape4 d0 (num_heads self) n n (map2 (map2 matmul_nt) q' k)).
  { apply (map2_Shape (P := Shape3 (num_heads self) n (key_size self))
                      (Q := Shape3 (num_heads self) n (key_size self)));
      [|exact Hq'|exact Hk].
    intros a b Ha Hb.
    apply (map2_Shape (P := Shape2 n (key_size self))
                      (Q := Shape2 n (key_size self)));
      [|exact Ha|exact Hb].
    intros x y [Hx _] [Hy _]. apply matmul_nt_shape; assumption. }
  pose proof (Shape4_map_rows softmax (d3' := n) 
                (fun r Hr => eq_trans (softmax_length r) Hr) Hd) as Hw.
  set (weights := map3 softmax _) in *.
  assert (Ho : Shape4 d0 (num_heads self) n (value_size self)
                      (map2 (map2 matmul) weights v)).
  { apply (map2_Shape (P := Shape3 (num_heads self) n n)
                      (Q := Shape3 (num_heads self) n (value_size self)));
      [|exact Hw|exact Hv].
    intros a b Ha Hb.
    apply (map2_Shape (P := Shape2 n n) (Q := Shape2 n (value_size self)));
      [|exact Ha|exact Hb].
    intros x y [Hx _] Hy. apply matmul_shape; [assumption|].
    apply (Shape2_dim1 Hy). assumption. }
  destruct Ho as [Hl Hf]. split; [rewrite !length_map; assumption|].
  rewrite map_map.
  apply Forall_map_impl with (P := Shape3 (num_heads self) n (value_size self));
    [|assumption].
  intros m Hm. apply transpose_Shape3 in Hm. destruct Hm as [Hml Hmf].
  split; [rewrite length_map; assumption|].
  apply Forall_map_impl with (P := Shape2 (num_heads self) (value_size self));
    [|assumption].
  intros x Hx. apply concat_length_uniform. assumption.
Qed.

Lemma q_scale_total :
  head_size self <> 0 -> q_scale self = Ok (spow_neg_half (key_size self)).
Proof.
  intros Hh. unfold q_scale.
  destruct (Nat.eqb_spec (key_size self) 0) as [E|E]; [|reflexivity].
  exfalso. exact (wf_key_size wf Hh E).
Qed.

Lemma multihead_attention_total (d0 : nat) (memory : list (list (list F))) :
  head_size self <> 0 ->
  Shape3 d0 (mem_slots self + 1) (mem_size self) memory ->
  exists out, multihead_attention self memory = Ok out /\
              Shape3 d0 (mem_slots self + 1) (mem_size self) out.
Proof.
  intros Hh Hm. unfold multihead_attention.
  destruct (qkv_heads_total Hm) as [t [Ht Hst]]. rewrite Ht. cbn [bind].
  destruct (split_qkv_total Hst) as [q [k [v [Hs [Hq [Hk Hv]]]]]].
  rewrite Hs. cbn [bind]. rewrite (q_scale_total Hh). cbn [bind].
  eexists. split; [reflexivity|].
  destruct d0 as [|d0].
  - destruct Hm as [Hl _]. destruct memory; [|discriminate].
    destruct Hv as [Hvl _]. destruct v; [|discriminate].
    destruct Hq as [Hql _]. destruct q; [|discriminate].
    split; [reflexivity | constructor].
  - rewrite (Shape3_dim1 Hm) in * by lia.
    rewrite (wf_mem_size wf), Nat.mul_comm, <- (wf_value_size wf).
    apply attention_shape; try assumption. lia.
Qed.

(** With a row count other than [mem_slots + 1] the layer norm after the
    projection rejects the tensor. *)
Lemma multihead_attention_wrong_rows (d0 n : nat) (memory : list (list (list F))) :
  1 <= d0 -> n <> mem_slots self + 1 ->
  Shape3 d0 n (mem_size self) memory ->
  exists msg, multihead_attention self memory = Raise (RuntimeError msg).
Proof.
  intros Hd Hn Hm. unfold multihead_attention, qkv_heads.
  destruct (wf_qkv_projector wf) as [Hin Hout].
  destruct (@linear3_total _ _ (qkv_projector self) d0 n memory) as [qkv [Hqkv Hs]].
  { rewrite Hin. assumption. }
  rewrite Hqkv. cbn [bind].
  destruct Hs as [Hl Hf]. destruct qkv as [|m qkv]; [simpl in Hl; lia|].
  inversion Hf as [|? ? [Hml _] _]. subst.
  unfold layer_norm3. cbn [mapM].
  destruct (@layer_norm_wrong_shape _ _ (qkv_layernorm self) m) as [msg Hmsg].
  { rewrite (wf_qkv_layernorm wf). simpl. assumption. }
  rewrite Hmsg. cbn [bind]. exists msg. reflexivity.
Qed.

End Attention.

Section AttentionClaims.
Context {F : Type} `{Scalar F}.

(** C6, as amended. A memory of shape [B, mem_slots + 1, mem_size] comes
    out of [multihead_attention] with that same shape; a tensor with any
    other number of rows (and a non-empty batch) is rejected by the layer
    norm that follows the projection. *)
Theorem multihead_attention_shape (a : Args F) (i : Init F)
        (self : RelationalMemory F) (B N : nat) (memory : list (list (list F))) :
  __init__ a i = Ok self ->
  1 <= head_size self ->
  shape3 B N (mem_size self) memory = true ->
  (N = mem_slots self + 1 ->
   exists out, multihead_attention self memory = Ok out /\
               shape3 B N (mem_size self) out = true) /\
  (N <> mem_slots self + 1 -> 1 <= B ->
   exists msg, multihead_attention self memory = Raise (RuntimeError msg)).
Proof.
  intros Hinit Hh Hm. apply init_WellFormed in Hinit.
  apply shape3_Shape3 in Hm. split.
  - intros HN. subst N.
    destruct (multihead_attention_total Hinit (memory := memory) (d0 := B))
      as [out [Hout Hs]]; [lia | assumption |].
    exists out. split; [assumption | apply shape3_Shape3; assumption].
  - intros HN HB. eapply multihead_attention_wrong_rows; eassumption.
Qed.


End AttentionClaims.

(** C6, as stated, fails: the slot-only memory of the concrete core (one
    row per batch element, where the augmented memory has two) has shape
    [B, N, mem_size] and is rejected. *)
Lemma multihead_attention_rejects_unaugmented :
  exists self,
    __init__ (example_args (Some "unit"%string) None) example_init = Ok self /\
    shape3 2 1 (mem_size self) (example_tensor 2 1 4) = true /\
    multihead_attention self (example_tensor 2 1 4) =
    Raise (RuntimeError "Given normalized_shape, expected input with matching trailing shape").
Proof.
  eexists. split; [reflexivity|]. split; reflexivity.
Qed.

Lemma multihead_attention_shape_witness :
  exists self out,
    __init__ (example_args (Some "unit"%string) None) example_init = Ok self /\
    multihead_attention self (example_tensor 2 2 4) = Ok out /\
    shape3 2 2 4 out = true.
Proof.
  eexists.
  destruct (@multihead_attention_shape term _
              (example_args (Some "unit"%string) None) example_init _ 2 2
              (example_tensor 2 2 4) eq_refl) as [Hsame _].
  - simpl. lia.
  - reflexivity.
  - destruct (Hsame eq_refl) as [out [Hout Hs]].
    exists out. split; [reflexivity|]. split; assumption.
Defined.



Lemma initial_state_identity_witness :
  exists self state,
    __init__ (example_args (Some "unit"%string) None) example_init = Ok self /\
    initial_state self 2 = Ok state /\
    shape3 2 1 4 state = true.
Proof.
  eexists.
  destruct (@initial_state_identity term _
              {| mem_slots := 1; head_size := 4; num_heads := 1; mem_size := 4;
                 mem_slots_plus_input := 2; num_blocks := 1;
                 gate_style := Some "unit"%string; attention_mlp_layers := 2;
                 key_size := 4; value_size := 4; qkv_size := 12;
                 total_qkv_size := 12;
                 qkv_projector := nn_Linear 4 12 example_linear;
                 qkv_layernorm := nn_LayerNorm (2, 12) example_affine;
                 attention_mlp := repeat (nn_Linear 4 4 example_linear) 2;
                 attended_memory_layernorm := nn_LayerNorm (2, 4) example_affine;
                 attended_memory_layernorm2 := nn_LayerNorm (2, 4) example_affine;
                 input_size := 4;
                 input_projector := nn_Linear 4 4 example_linear;
                 num_gates := 8;
                 input_gate_projector := nn_Linear 4 8 example_linear;
                 memory_gate_projector := nn_Linear 4 8 example_linear;
                 forget_bias := TConst 1; input_bias := TConst 0;
                 return_all_outputs := false |} 2)
    as [state [Hstate [Hshape _]]].
  - lia.
  - exists state. split; [reflexivity|]. split; assumption.
Defined.

(** ** Broadcasting *)

Lemma bcast_equal {A B C : Type} (f : A -> B -> result C)
      (l1 : list A) (l2 : list B) :
  length l1 = length l2 -> bcast f l1 l2 = zipM size_mismatch f l1 l2.
Proof. intros Hl. unfold bcast. rewrite Hl, Nat.eqb_refl. reflexivity. Qed.

Lemma bcast_left1 {A B C : Type} (f : A -> B -> result C) (a : A) (l2 : list B) :
  bcast f [a] l2 = mapM (f a) l2.
Proof.
  unfold bcast. destruct l2 as [|b [|b' l2]]; reflexivity.
Qed.

Lemma bcast_right1 {A B C : Type} (f : A -> B -> result C) (l1 : list A) (b : B) :
  bcast f l1 [b] = mapM (fun a => f a b) l1.
Proof.
  unfold bcast. destruct l1 as [|a [|a' l1]]; reflexivity.
Qed.

Lemma bcast_into_equal {A B : Type} (f : A -> B -> result A)
      (l1 : list A) (l2 : list B) :
  length l1 = length l2 -> bcast_into f l1 l2 = zipM size_mismatch f l1 l2.
Proof. intros Hl. unfold bcast_into. rewrite Hl, Nat.eqb_refl. reflexivity. Qed.

(** Indexed versions of the totality lemmas: [P i c] speaks about the
    element at position [i]. *)
Lemma zipM_pointwise {A B C : Type} (e : exn) (f : A -> B -> result C)
      (P : nat -> C -> Prop) (l1 : list A) (l2 : list B) :
  length l1 = length l2 ->
  (forall i a b, nth_error l1 i = Some a -> nth_error l2 i = Some b ->
                 exists c, f a b = Ok c /\ P i c) ->
  exists cs, zipM e f l1 l2 = Ok cs /\ length cs = length l1 /\
             forall i c, nth_error cs i = Some c -> P i c.
Proof.
  revert l2 P. induction l1 as [|a l1 IH]; intros [|b l2] P Hl Hf;
    try discriminate.
  - exists []. repeat split; auto. intros [|i] c Hc; discriminate.
  - destruct (Hf 0 a b eq_refl eq_refl) as [c [Hc HP]].
    destruct (IH l2 (fun i => P (S i))) as [cs [Hcs [Hlen HPs]]].
    { simpl in Hl. lia. }
    { intros i a' b' Ha Hb. apply (Hf (S i)); assumption. }
    exists (c :: cs). simpl. rewrite Hc. simpl. rewrite Hcs. simpl.
    repeat split; [congruence|].
    intros [|i] c' Hc'; simpl in Hc'.
    + inversion Hc'. subst. assumption.
    + apply HPs. assumption.
Qed.

Lemma mapM_pointwise {A B : Type} (f : A -> result B)
      (P : nat -> B -> Prop) (l : list A) :
  (forall i a, nth_error l i = Some a -> exists b, f a = Ok b /\ P i b) ->
  exists bs, mapM f l = Ok bs /\ length bs = length l /\
             forall i b, nth_error bs i = Some b -> P i b.
Proof.
  revert P. induction l as [|a l IH]; intros P Hf.
  - exists []. repeat split; auto. intros [|i] c Hc; discriminate.
  - destruct (Hf 0 a eq_refl) as [b [Hb HP]].
    destruct (IH (fun i => P (S i))) as [bs [Hbs [Hlen HPs]]].
    { intros i a' Ha. apply (Hf (S i)). assumption. }
    exists (b :: bs). simpl. rewrite Hb. simpl. rewrite Hbs. simpl.
    repeat split; [congruence|].
    intros [|i] b' Hb'; simpl in Hb'.
    + inversion Hb'. subst. assumption.
    + apply HPs. assumption.
Qed.

Lemma Forall_nth_error {A : Type} (P : A -> Prop) (l : list A) (i : nat) (a : A) :
  Forall P l -> nth_error l i = Some a -> P a.
Proof.
  intros Hl Hi. rewrite Forall_forall in Hl. apply Hl.
  eapply nth_error_In. exact Hi.
Qed.

Lemma nth_error_Forall {A : Type} (P : A -> Prop) (l : list A) :
  (forall i a, nth_error l i = Some a -> P a) -> Forall P l.
Proof.
  intros Hl. apply Forall_forall. intros a Ha.
  apply In_nth_error in Ha. destruct Ha as [i Hi]. eapply Hl. exact Hi.
Qed.

Section Broadcast3.
Context {A B C : Type}.
Variables (da : A) (db : B) (dc : C).
Variable f : A -> B -> C.

Lemma brow_spec (g w : nat) (r1 : list A) (r2 : list B) :
  length r1 = g -> length r2 = w -> g = w \/ g = 1 ->
  exists r, bcast (fun x y => Ok (f x y)) r1 r2 = Ok r /\ length r = w /\
            forall j, j < w -> nth j r dc = f (nth (bcol g w j) r1 da) (nth j r2 db).
Proof.
  intros H1 H2 Hg. unfold bcol.
  destruct (Nat.eqb_spec g w) as [E|E].
  - rewrite bcast_equal by congruence.
    destruct (@zipM_pointwise _ _ _ size_mismatch (fun x y => Ok (f x y))
                (fun j c => c = f (nth j r1 da) (nth j r2 db)) r1 r2)
      as [r [Hr [Hlen Hp]]]; [congruence| |].
    + intros j a b Ha Hb. eexists. split; [reflexivity|].
      rewrite (nth_error_nth _ _ da Ha), (nth_error_nth _ _ db Hb). reflexivity.
    + exists r. split; [assumption|]. split; [congruence|].
      intros j Hj. apply Hp. apply nth_error_nth'. lia.
  - destruct Hg as [Hg|Hg]; [contradiction|]. subst g.
    destruct r1 as [|a [|a' r1]]; try discriminate.
    rewrite bcast_left1.
    destruct (@mapM_pointwise _ _ (fun y => Ok (f a y))
                (fun j c => c = f a (nth j r2 db)) r2) as [r [Hr [Hlen Hp]]].
    + intros j b Hb. eexists. split; [reflexivity|].
      rewrite (nth_error_nth _ _ db Hb). reflexivity.
    + exists r. split; [assumption|]. split; [congruence|].
      intros j Hj. simpl. apply Hp. apply nth_error_nth'. lia.
Qed.

(** A broadcast product of [d0, d1, g] with [d0, d1, w], for [g = w] or
    [g = 1]. *)
Lemma bop3_spec (d0 d1 g w : nat) (t1 : list (list (list A)))
      (t2 : list (list (list B))) :
  Shape3 d0 d1 g t1 -> Shape3 d0 d1 w t2 -> g = w \/ g = 1 ->
  exists t, bop3 f t1 t2 = Ok t /\ Shape3 d0 d1 w t /\
            forall b s j, b < d0 -> s < d1 -> j < w ->
              get3 dc t b s j = f (get3 da t1 b s (bcol g w j)) (get3 db t2 b s j).
Proof.
  intros [H1 F1] [H2 F2] Hg. unfold bop3. rewrite bcast_equal by congruence.
  destruct (@zipM_pointwise _ _ _ size_mismatch
              (bcast (bcast (fun x y => Ok (f x y))))
              (fun b m => Shape2 d1 w m /\
                 forall s j, s < d1 -> j < w ->
                   nth j (nth s m []) dc =
                   f (get3 da t1 b s (bcol g w j)) (get3 db t2 b s j)) t1 t2)
    as [t [Ht [Hlen Hp]]]; [congruence| |].
  - intros b m1 m2 Hm1 Hm2.
    destruct (Forall_nth_error _ F1 Hm1) as [L1 R1].
    destruct (Forall_nth_error _ F2 Hm2) as [L2 R2].
    rewrite bcast_equal by congruence.
    destruct (@zipM_pointwise _ _ _ size_mismatch
                (bcast (fun x y => Ok (f x y)))
                (fun s r => length r = w /\
                   forall j, j < w ->
                     nth j r dc = f (nth (bcol g w j) (nth s m1 []) da)
                                    (nth j (nth s m2 []) db)) m1 m2)
      as [m [Hm [Hmlen Hmp]]]; [congruence| |].
    + intros s r1 r2 Hr1 Hr2.
      destruct (@brow_spec g w r1 r2) as [r [Hr [Hrl Hrp]]].
      * exact (Forall_nth_error _ R1 Hr1).
      * exact (Forall_nth_error _ R2 Hr2).
      * assumption.
      * exists r. split; [assumption|]. split; [assumption|].
        rewrite (nth_error_nth _ _ [] Hr1), (nth_error_nth _ _ [] Hr2).
        assumption.
    + exists m. split; [assumption|]. split.
      * split; [congruence|]. apply nth_error_Forall.
        intros s r Hr. exact (proj1 (Hmp _ _ Hr)).
      * intros s j Hs Hj. unfold get3.
        rewrite (nth_error_nth _ _ [] Hm1), (nth_error_nth _ _ [] Hm2).
        apply (Hmp s); [|assumption].
        apply nth_error_nth'. lia.
  - exists t. split; [assumption|]. split.
    + split; [congruence|]. apply nth_error_Forall.
      intros b m Hm. exact (proj1 (Hp _ _ Hm)).
    + intros b s j Hb Hs Hj. unfold get3 at 1.
      apply (Hp b); [|assumption|assumption].
      apply nth_error_nth'. lia.
Qed.

End Broadcast3.

Lemma zipM_ext {A B C : Type} (P : A -> Prop) (Q : B -> Prop) (e : exn)
      (f g : A -> B -> result C) (l1 : list A) (l2 : list B) :
  (forall a b, P a -> Q b -> f a b = g a b) ->
  Forall P l1 -> Forall Q l2 -> zipM e f l1 l2 = zipM e g l1 l2.
Proof.
  intros Hfg H1. revert l2. induction H1 as [|a l1 Ha _ IH]; intros l2 H2.
  - destruct l2; reflexivity.
  - destruct H2 as [|b l2 Hb H2]; [reflexivity|].
    simpl. rewrite (Hfg a b Ha Hb), (IH l2 H2). reflexivity.
Qed.

(** An in-place operation between tensors of one shape is the plain
    broadcast operation. *)
Lemma ibop3_same_shape {A : Type} (f : A -> A -> A) (d0 d1 d2 : nat)
      (t1 t2 : list (list (list A))) :
  Shape3 d0 d1 d2 t1 -> Shape3 d0 d1 d2 t2 -> ibop3 f t1 t2 = bop3 f t1 t2.
Proof.
  intros [H1 F1] [H2 F2]. unfold ibop3, bop3.
  rewrite bcast_into_equal, bcast_equal by congruence.
  eapply zipM_ext; [|exact F1|exact F2].
  intros m1 m2 [L1 R1] [L2 R2].
  rewrite bcast_into_equal, bcast_equal by congruence.
  eapply zipM_ext; [|exact R1|exact R2].
  intros r1 r2 Hr1 Hr2. unfold Shape1 in *.
  rewrite bcast_into_equal, bcast_equal by congruence. reflexivity.
Qed.

(** ** Attend over memory *)

Section Attend.
Context {F : Type} `{Scalar F}.
Variable self : RelationalMemory F.
Hypothesis wf : WellFormed self.
Hypothesis head_size_pos : head_size self <> 0.

Lemma add3_same_shape (d0 d1 d2 : nat) (a b : list (list (list F))) :
  Shape3 d0 d1 d2 a -> Shape3 d0 d1 d2 b ->
  exists c, bop3 sadd a b = Ok c /\ Shape3 d0 d1 d2 c.
Proof.
  intros Ha Hb.
  destruct (@bop3_spec _ _ _ s0 s0 s0 sadd d0 d1 d2 d2 a b Ha Hb)
    as [c [Hc [Hs _]]]; [left; reflexivity|].
  exists c. auto.
Qed.

Lemma mlp_total (d0 d1 : nat) (layers : list (Linear F)) (x : list (list (list F))) :
  Forall (fun l => in_features l = mem_size self /\
                   out_features l = mem_size self) layers ->
  Shape3 d0 d1 (mem_size self) x ->
  exists y, foldM (fun x l => y <- linear3 l x ;; Ok (map3 srelu y)) x layers = Ok y /\
            Shape3 d0 d1 (mem_size self) y.
Proof.
  intros Hl. revert x. induction Hl as [|l layers [Hin Hout] _ IH]; intros x Hx.
  - exists x. split; [reflexivity | assumption].
  - cbn [foldM].
    destruct (@linear3_total _ _ l d0 d1 x) as [y [Hy Hs]].
    { rewrite Hin. assumption. }
    rewrite Hy. cbn [bind]. apply IH. rewrite Hout in Hs.
    apply Shape3_map3. assumption.
Qed.

Lemma attend_block_total (d0 : nat) (memory : list (list (list F))) :
  Shape3 d0 (mem_slots self + 1) (mem_size self) memory ->
  exists out, attend_block self memory = Ok out /\
              Shape3 d0 (mem_slots self + 1) (mem_size self) out.
Proof.
  intros Hm. unfold attend_block.
  destruct (multihead_attention_total wf head_size_pos Hm) as [att [Hatt Hs]].
  rewrite Hatt. cbn [bind].
  destruct (add3_same_shape Hm Hs) as [s [Hsum Hss]]. rewrite Hsum. cbn [bind].
  destruct (@layer_norm3_total _ _ _ _ _ _ _ (wf_layernorm wf) Hss) as [m1 [Hm1 Hs1]].
  rewrite Hm1. cbn [bind].
  destruct (mlp_total (wf_attention_mlp wf) Hs1) as [mlp [Hmlp Hsm]].
  rewrite Hmlp. cbn [bind].
  destruct (add3_same_shape Hs1 Hsm) as [s' [Hsum' Hss']]. rewrite Hsum'. cbn [bind].
  apply (@layer_norm3_total _ _ _ _ _ _ _ (wf_layernorm2 wf) Hss').
Qed.

Lemma iterM_invariant {A : Type} (P : A -> Prop) (body : A -> result A) (n : nat) :
  (forall a, P a -> exists a', body a = Ok a' /\ P a') ->
  forall a, P a -> exists a', iterM n body a = Ok a' /\ P a'.
Proof.
  intros Hbody. induction n as [|n IH]; intros a Ha; simpl.
  - exists a. auto.
  - destruct (Hbody a Ha) as [a' [Ha' HP]]. rewrite Ha'. simpl. apply IH. assumption.
Qed.

Lemma attend_over_memory_total (d0 : nat) (memory : list (list (list F))) :
  Shape3 d0 (mem_slots self + 1) (mem_size self) memory ->
  exists out, attend_over_memory self memory = Ok out /\
              Shape3 d0 (mem_slots self + 1) (mem_size self) out.
Proof.
  intros Hm. unfold attend_over_memory.
  apply (@iterM_invariant _ (Shape3 d0 (mem_slots self + 1) (mem_size self)));
    [|assumption].
  intros a Ha. apply attend_block_total. assumption.
Qed.

End Attend.

(** ** Gating *)



Section Gates.
Context {F : Type} `{Scalar F}.
Variable self : RelationalMemory F.






End Gates.

Lemma flatten_1_length {F : Type} (r : tensor F 1) : length (flatten 1 r) = length r.
Proof. induction r as [|x r IH]; simpl in *; [reflexivity | rewrite IH; reflexivity]. Qed.

Lemma flatten_2_length {F : Type} (d0 d1 : nat) (m : tensor F 2) :
  Shape2 d0 d1 m -> length (flatten 2 m) = d0 * d1.
Proof.
  intros [Hl Hm]. subst d0.
  change (flatten 2 m) with (flat_map (flatten 1) m).
  induction Hm as [|r m Hr _ IH]; [reflexivity|].
  cbn [flat_map length]. rewrite length_app, IH, flatten_1_length.
  unfold Shape1 in Hr. rewrite Hr. simpl. reflexivity.
Qed.

Lemma unsqueeze1_shape {A : Type} (d0 d1 : nat) (m : list (list A)) :
  Shape2 d0 d1 m -> Shape3 d0 1 d1 (unsqueeze1 m).
Proof.
  intros [Hl Hm]. unfold unsqueeze1. split; [rewrite length_map; assumption|].
  apply Forall_map_impl with (P := Shape1 d1); [|assumption].
  intros r Hr. split; [reflexivity|]. constructor; [assumption | constructor].
Qed.

(** A sum in which the right operand has one row per batch element and
    the left one [d1]. *)
Lemma bop3_rows_broadcast {A : Type} (f : A -> A -> A) (d0 d1 w : nat)
      (t1 t2 : list (list (list A))) :
  Shape3 d0 d1 w t1 -> Shape3 d0 1 w t2 ->
  exists t, bop3 f t1 t2 = Ok t /\ Shape3 d0 d1 w t.
Proof.
  intros [H1 F1] [H2 F2]. unfold bop3. rewrite bcast_equal by congruence.
  destruct (@zipM_pointwise _ _ _ size_mismatch
              (bcast (bcast (fun x y => Ok (f x y))))
              (fun _ m => Shape2 d1 w m) t1 t2) as [t [Ht [Hlen Hp]]];
    [congruence| |].
  - intros b m1 m2 Hm1 Hm2.
    destruct (Forall_nth_error _ F1 Hm1) as [L1 R1].
    destruct (Forall_nth_error _ F2 Hm2) as [L2 R2].
    destruct m2 as [|r2 [|r2' m2]]; try discriminate.
    inversion R2 as [|? ? Hr2 _]. subst.
    rewrite bcast_right1.
    destruct (@mapM_total _ _ (fun a => bcast (fun x y => Ok (f x y)) a r2)
                (Shape1 w) m1) as [m [Hm [Hml Hmf]]].
    + eapply Forall_impl; [|exact R1]. intros r1 Hr1.
      unfold Shape1 in *. rewrite bcast_equal by congruence.
      destruct (@zipM_pointwise _ _ _ size_mismatch (fun x y => Ok (f x y))
                  (fun _ _ => True) r1 r2) as [r [Hr [Hrl _]]]; [congruence| |].
      * intros. eexists. split; [reflexivity | exact I].
      * exists r. split; [assumption | congruence].
    + exists m. split; [assumption|]. split; [congruence | assumption].
  - exists t. split; [assumption|]. split; [congruence|].
    apply nth_error_Forall. intros b m Hm. exact (Hp _ _ Hm).
Qed.

Section GatesTotal.
Context {F : Type} `{Scalar F}.
Variable self : RelationalMemory F.
Hypothesis wf : WellFormed self.

Lemma gate_size_cases :
  gating_enabled self = true ->
  (gate_style self = Some "unit"%string /\ gate_size self = mem_size self) \/
  (gate_style self = Some "memory"%string /\ gate_size self = 1).
Proof.
  unfold gating_enabled, gate_size, calculate_gate_size.
  destruct (gate_style_eqb (gate_style self) (Some "unit"%string)) eqn:Hu.
  - intros _. left. apply gate_style_eqb_eq in Hu. auto.
  - destruct (gate_style_eqb (gate_style self) (Some "memory"%string)) eqn:Hm;
      [|discriminate].
    intros _. right. apply gate_style_eqb_eq in Hm. auto.
Qed.

Lemma split_dim2_halves (d0 d1 g : nat) (gates : list (list (list F))) :
  1 <= d0 -> 1 <= d1 -> 1 <= g ->
  Shape3 d0 d1 (2 * g) gates ->
  exists ig fg, split_dim2 (dim2 gates / 2) gates = Ok [ig; fg] /\
                Shape3 d0 d1 g ig /\ Shape3 d0 d1 g fg.
Proof.
  intros H0 H1 Hg Hs. unfold split_dim2.
  rewrite (Shape3_dim2 Hs) by assumption.
  replace (2 * g / 2) with g by (rewrite Nat.mul_comm, Nat.div_mul; lia).
  destruct (Nat.eqb_spec g 0); [lia|].
  replace ((2 * g + g - 1) / g) with 2
    by (apply (Nat.div_unique _ _ _ (g - 1)); lia).
  cbn [Nat.max seq map]. do 2 eexists. split; [reflexivity|].
  split; eapply Shape3_map_rows; try exact Hs; intros r Hr;
    rewrite length_firstn, length_skipn; lia.
Qed.

Lemma create_gates_total (d0 : nat) (x : tensor F 3) (memory : list (list (list F))) :
  gating_enabled self = true ->
  1 <= mem_size self -> 1 <= d0 -> 1 <= mem_slots self ->
  Shape3 d0 1 (mem_size self) x ->
  Shape3 d0 (mem_slots self) (mem_size self) memory ->
  exists ig fg,
    create_gates self (of_rank 3 x) memory = Ok (ig, fg) /\
    Shape3 d0 (mem_slots self) (gate_size self) ig /\
    Shape3 d0 (mem_slots self) (gate_size self) fg.
Proof.
  intros Hg HW Hd Hslots Hx Hm.
  assert (Hgs : 1 <= gate_size self).
  { destruct (gate_size_cases Hg) as [[_ E]|[_ E]]; rewrite E; lia. }
  unfold create_gates, of_rank.
  rewrite (Shape3_dim1 Hx) by assumption. cbn [Nat.ltb Nat.leb].
  destruct (wf_input_gate_projector wf) as [Iin Iout].
  destruct (wf_memory_gate_projector wf) as [Min Mout].
  destruct (@linear2_total _ _ (input_gate_projector self) d0 (map (flatten 2) x))
    as [gi [Hgi Sgi]].
  { destruct Hx as [Hl Hf]. split; [rewrite length_map; assumption|].
    apply Forall_map_impl with (P := Shape2 1 (mem_size self)); [|assumption].
    intros m Hm'. unfold Shape1. rewrite (flatten_2_length Hm'), Iin. lia. }
  rewrite Hgi. cbn [bind].
  destruct (@linear3_total _ _ (memory_gate_projector self) d0 (mem_slots self)
              (map3 stanh memory)) as [gm [Hgm Sgm]].
  { rewrite Min. apply Shape3_map3. assumption. }
  rewrite Hgm. cbn [bind].
  rewrite Iout in Sgi. rewrite Mout in Sgm.
  destruct (bop3_rows_broadcast sadd Sgm (unsqueeze1_shape Sgi)) as [gates [Hgates Sg]].
  rewrite Hgates. cbn [bind].
  rewrite (wf_num_gates wf) in Sg. fold (gate_size self) in Sg.
  destruct (split_dim2_halves Hd Hslots Hgs Sg) as [ig [fg [Hsplit [Si Sf]]]].
  rewrite Hsplit. cbn [bind unpack2].
  rewrite (Shape3_dim2 Si), (Shape3_dim2 Sf), Nat.eqb_refl by assumption.
  cbn [negb]. do 2 eexists. split; [reflexivity|].
  split; apply Shape3_map3; assumption.
Qed.

End GatesTotal.

(** ** One step *)

Lemma nth_map_in {A B : Type} (da : A) (db : B) (f : A -> B) (l : list A) (i : nat) :
  i < length l -> nth i (map f l) db = f (nth i l da).
Proof.
  intros Hi. rewrite (nth_indep _ db (f da)) by (rewrite length_map; assumption).
  apply map_nth.
Qed.

Lemma get3_map3 {A B : Type} (da : A) (db : B) (f : A -> B) (d0 d1 d2 : nat)
      (t : list (list (list A))) (b s j : nat) :
  Shape3 d0 d1 d2 t -> b < d0 -> s < d1 -> j < d2 ->
  get3 db (map3 f t) b s j = f (get3 da t b s j).
Proof.
  intros [Hl Hf] Hb Hs Hj. unfold get3, map3.
  assert (Hm : Shape2 d1 d2 (nth b t [])).
  { rewrite Forall_forall in Hf. apply Hf. apply nth_In. lia. }
  destruct Hm as [Hml Hmf].
  assert (Hr : length (nth s (nth b t []) []) = d2).
  { rewrite Forall_forall in Hmf. apply Hmf. apply nth_In. lia. }
  rewrite (nth_map_in [] [] (map (map f))) by lia.
  rewrite (nth_map_in [] [] (map f)) by lia.
  apply nth_map_in. lia.
Qed.

Lemma get3_firstn {A : Type} (d : A) (n d0 : nat) (t : list (list (list A)))
      (b s j : nat) :
  length t = d0 -> b < d0 -> s < n ->
  get3 d (map (firstn n) t) b s j = get3 d t b s j.
Proof.
  intros Hl Hb Hs. unfold get3.
  rewrite (nth_map_in [] [] (firstn n)) by lia.
  rewrite nth_firstn.
  destruct (Nat.ltb_spec s n); [reflexivity | lia].
Qed.

Section Concatenation.
Context {F : Type} `{Scalar F}.

Lemma uniform_width_Forall (w : nat) (m : list (list F)) :
  Forall (Shape1 w) m -> uniform_width m = true.
Proof.
  intros Hm. unfold uniform_width. destruct m as [|r m]; [reflexivity|].
  apply forallb_forall. intros r' Hr'. rewrite Forall_forall in Hm.
  apply Nat.eqb_eq. rewrite (Hm r' Hr'). symmetry. apply Hm. left. reflexivity.
Qed.

Lemma cat_dim1_total (d0 n1 n2 w : nat) (a b : list (list (list F))) :
  Shape3 d0 n1 w a -> Shape3 d0 n2 w b ->
  exists c, cat_dim1 a b = Ok c /\ Shape3 d0 (n1 + n2) w c /\
            forall i, i < d0 -> nth i c [] = nth i a [] ++ nth i b [].
Proof.
  intros [Ha Fa] [Hb Fb]. unfold cat_dim1.
  destruct (@zipM_pointwise _ _ _ cat_mismatch
              (fun ma mb => if uniform_width (ma ++ mb) then Ok (ma ++ mb)
                            else Raise cat_mismatch)
              (fun i m => Shape2 (n1 + n2) w m /\ m = nth i a [] ++ nth i b [])
              a b) as [c [Hc [Hlen Hp]]];
    [congruence| |].
  - intros i ma mb Hma Hmb.
    destruct (Forall_nth_error _ Fa Hma) as [La Ra].
    destruct (Forall_nth_error _ Fb Hmb) as [Lb Rb].
    assert (Hrows : Forall (Shape1 w) (ma ++ mb)).
    { apply Forall_app. split; assumption. }
    rewrite (uniform_width_Forall Hrows). eexists. split; [reflexivity|].
    split; [split; [rewrite length_app; congruence | assumption]|].
    rewrite (nth_error_nth _ _ [] Hma), (nth_error_nth _ _ [] Hmb). reflexivity.
  - exists c. split; [assumption|]. split.
    + split; [congruence|].
      apply nth_error_Forall. intros i m Hm. exact (proj1 (Hp _ _ Hm)).
    + intros i Hi. apply (Hp i). apply nth_error_nth'. lia.
Qed.

Lemma output_shape (d0 d1 d2 : nat) (t : list (list (list F))) :
  Shape3 d0 d1 d2 t -> Shape2 d0 (d1 * d2) (map (flatten 2) t).
Proof.
  intros [Hl Hf]. split; [rewrite length_map; assumption|].
  apply Forall_map_impl with (P := Shape2 d1 d2); [|assumption].
  intros m Hm. apply flatten_2_length. assumption.
Qed.

End Concatenation.

Section Step.
Context {F : Type} `{Scalar F}.
Variable self : RelationalMemory F.
Hypothesis wf : WellFormed self.
Hypothesis head_size_pos : head_size self <> 0.

Lemma project_input_vector (d0 : nat) (x : tensor F 2) :
  Shape2 d0 (input_size self) x ->
  exists ir, project_input self (of_rank 2 x) false = Ok ir /\
             Shape3 d0 1 (mem_size self) ir.
Proof.
  intros [Hl Hx]. unfold project_input, of_rank.
  destruct (wf_input_projector wf) as [Hin Hout].
  destruct (@linear2_total _ _ (input_projector self) d0 (map (flatten 1) x))
    as [y [Hy Hs]].
  { split; [rewrite length_map; assumption|].
    apply Forall_map_impl with (P := Shape1 (input_size self)); [|assumption].
    intros r Hr. unfold Shape1 in *. rewrite flatten_1_length. congruence. }
  rewrite Hy. cbn [bind]. eexists. split; [reflexivity|].
  rewrite Hout in Hs. apply unsqueeze1_shape. assumption.
Qed.

Lemma project_input_matrix (d0 d1 : nat) (x : tensor F 3) :
  Shape3 d0 d1 (input_size self) x ->
  exists ir, project_input self (of_rank 3 x) true = Ok ir /\
             Shape3 d0 d1 (mem_size self) ir.
Proof.
  intros Hx. unfold project_input, of_rank.
  destruct (wf_input_projector wf) as [Hin Hout].
  rewrite <- Hout. apply linear3_total. rewrite Hin.
  eapply Shape3_map_rows; [|exact Hx].
  intros r Hr. rewrite flatten_1_length. assumption.
Qed.

Lemma truncate_rows (d0 w : nat) (att : list (list (list F))) :
  Shape3 d0 (mem_slots self + 1) w att ->
  map (slice_to_neg 1) att = map (firstn (mem_slots self)) att /\
  Shape3 d0 (mem_slots self) w (map (firstn (mem_slots self)) att).
Proof.
  intros [Hl Hf]. split.
  - apply map_ext_in. intros m Hm. rewrite Forall_forall in Hf.
    destruct (Hf m Hm) as [Hml _]. unfold slice_to_neg. simpl.
    f_equal. lia.
  - split; [rewrite length_map; assumption|].
    apply Forall_map_impl with (P := Shape2 (mem_slots self + 1) w); [|assumption].
    intros m [Hml Hmf]. split; [rewrite length_firstn; lia|].
    apply Forall_forall. intros r Hr. rewrite Forall_forall in Hmf.
    apply Hmf. rewrite <- (firstn_skipn (mem_slots self) m).
    apply in_or_app. left. exact Hr.
Qed.

(** The run of [forward_step] on a well-shaped memory and a projected
    input of one row per batch element. *)
Lemma forward_step_run (d0 : nat) (inputs : any_tensor F) (tm : bool)
      (memory ir : list (list (list F))) :
  1 <= d0 ->
  (gating_enabled self = true -> 1 <= mem_slots self /\ 1 <= mem_size self) ->
  project_input self inputs tm = Ok ir ->
  Shape3 d0 1 (mem_size self) ir ->
  Shape3 d0 (mem_slots self) (mem_size self) memory ->
  exists mpi att,
    cat_dim1 memory ir = Ok mpi /\
    attend_over_memory self mpi = Ok att /\
    Shape3 d0 (mem_slots self + 1) (mem_size self) att /\
    Shape3 d0 (mem_slots self) (mem_size self) (map (firstn (mem_slots self)) att) /\
    (gating_enabled self = false ->
     forward_step self inputs memory tm =
     Ok (map (flatten 2) (map (firstn (mem_slots self)) att),
         map (firstn (mem_slots self)) att)) /\
    (gating_enabled self = true ->
     exists ig fg nm,
       create_gates self (of_rank 3 ir) memory = Ok (ig, fg) /\
       Shape3 d0 (mem_slots self) (gate_size self) ig /\
       Shape3 d0 (mem_slots self) (gate_size self) fg /\
       forward_step self inputs memory tm = Ok (map (flatten 2) nm, nm) /\
       Shape3 d0 (mem_slots self) (mem_size self) nm /\
       forall b s j, b < d0 -> s < mem_slots self -> j < mem_size self ->
         get3 s0 nm b s j =
         sadd (smul (get3 s0 ig b s (bcol (gate_size self) (mem_size self) j))
                    (stanh (get3 s0 att b s j)))
              (smul (get3 s0 fg b s (bcol (gate_size self) (mem_size self) j))
                    (get3 s0 memory b s j))).
Proof.
  intros Hd Hgate Hproj Hir Hm.
  destruct (cat_dim1_total Hm Hir) as [mpi [Hcat [Hmpi _]]].
  destruct (attend_over_memory_total wf head_size_pos Hmpi) as [att [Hatt Hsa]].
  destruct (truncate_rows Hsa) as [Htr Hst].
  exists mpi, att. repeat (split; [assumption|]).
  unfold forward_step. rewrite Hproj. cbn [bind]. rewrite Hcat. cbn [bind].
  rewrite Hatt. cbn [bind]. rewrite (Shape3_dim1 Hir) by assumption.
  rewrite Htr. split.
  - intros Hg. rewrite Hg. reflexivity.
  - intros Hg. rewrite Hg. destruct (Hgate Hg) as [Hslots HW].
    destruct (create_gates_total wf Hg HW Hd Hslots Hir Hm) as [ig [fg [Hcg [Si Sf]]]].
    assert (Hbc : gate_size self = mem_size self \/ gate_size self = 1).
    { destruct (gate_size_cases self Hg) as [[_ E]|[_ E]]; auto. }
    destruct (@bop3_spec _ _ _ s0 s0 s0 smul _ _ _ _ ig
                (map3 stanh (map (firstn (mem_slots self)) att)) Si
                (Shape3_map3 stanh Hst) Hbc) as [p [Hp [Sp Ep]]].
    destruct (@bop3_spec _ _ _ s0 s0 s0 smul _ _ _ _ fg memory Sf Hm Hbc)
      as [g [Hgm [Sg Eg]]].
    destruct (@bop3_spec _ _ _ s0 s0 s0 sadd _ _ _ _ p g Sp Sg (or_introl eq_refl))
      as [nm [Hnm [Sn En]]].
    exists ig, fg, nm. rewrite Hcg. cbn [bind]. rewrite Hp. cbn [bind].
    rewrite Hgm. cbn [bind]. rewrite (ibop3_same_shape sadd Sp Sg), Hnm. cbn [bind].
    repeat (split; [assumption || reflexivity|]).
    intros b s j Hb Hs Hj.
    rewrite (En b s j Hb Hs Hj). unfold bcol at 1 2. rewrite Nat.eqb_refl.
    rewrite (Ep b s j Hb Hs Hj), (Eg b s j Hb Hs Hj).
    rewrite (get3_map3 s0 s0 stanh Hst Hb Hs Hj).
    rewrite (get3_firstn s0 _ _ (proj1 Hsa) Hb Hs).
    reflexivity.
Qed.

End Step.

Section StepClaims.
Context {F : Type} `{Scalar F}.

Lemma gating_enabled_iff (self : RelationalMemory F) :
  gating_enabled self = true <->
  gate_style self = Some "unit"%string \/ gate_style self = Some "memory"%string.
Proof.
  unfold gating_enabled. rewrite orb_true_iff, !gate_style_eqb_eq. reflexivity.
Qed.

Lemma gating_disabled (self : RelationalMemory F) :
  gate_style self = None -> gating_enabled self = false.
Proof. intros Hg. unfold gating_enabled. rewrite Hg. reflexivity. Qed.

Lemma mem_size_pos (self : RelationalMemory F) :
  WellFormed self -> 1 <= head_size self -> 1 <= num_heads self ->
  1 <= mem_size self.
Proof. intros wf Hh Hn. rewrite (wf_mem_size wf). nia. Qed.


(** C1. With gating enabled, every successful [forward_step] computes the
    gates from the projected input and the memory it was given, and
    returns [input_gate * tanh(attended) + forget_gate * memory], where
    [attended] is the result of [attend_over_memory] without the appended
    input rows.  On a well-shaped input and memory the call succeeds and
    the equation holds entry by entry. *)
Theorem forward_step_gated (a : Args F) (i : Init F) (self : RelationalMemory F) :
  __init__ a i = Ok self ->
  gate_style self = Some "unit"%string \/ gate_style self = Some "memory"%string ->
  (forall inputs memory tm output next_memory,
     forward_step self inputs memory tm = Ok (output, next_memory) ->
     exists ir mpi att input_gate forget_gate p g,
       project_input self inputs tm = Ok ir /\
       cat_dim1 memory ir = Ok mpi /\
       attend_over_memory self mpi = Ok att /\
       create_gates self (of_rank 3 ir) memory = Ok (input_gate, forget_gate) /\
       bop3 smul input_gate (map3 stanh (map (slice_to_neg (dim1 ir)) att)) = Ok p /\
       bop3 smul forget_gate memory = Ok g /\
       ibop3 sadd p g = Ok next_memory /\
       output = map (flatten 2) next_memory) /\
  (forall B x memory,
     1 <= B -> 1 <= mem_slots self -> 1 <= head_size self -> 1 <= num_heads self ->
     shape2 B (input_size self) x = true ->
     shape3 B (mem_slots self) (mem_size self) memory = true ->
     exists ir mpi att input_gate forget_gate next_memory,
       project_input self (of_rank 2 x) false = Ok ir /\
       cat_dim1 memory ir = Ok mpi /\
       attend_over_memory self mpi = Ok att /\
       create_gates self (of_rank 3 ir) memory = Ok (input_gate, forget_gate) /\
       forward_step self (of_rank 2 x) memory false =
       Ok (map (flatten 2) next_memory, next_memory) /\
       shape3 B (mem_slots self) (mem_size self) next_memory = true /\
       forall b s j, b < B -> s < mem_slots self -> j < mem_size self ->
         get3 s0 next_memory b s j =
         sadd (smul (get3 s0 input_gate b s (bcol (gate_size self) (mem_size self) j))
                    (stanh (get3 s0 att b s j)))
              (smul (get3 s0 forget_gate b s (bcol (gate_size self) (mem_size self) j))
                    (get3 s0 memory b s j))).
Proof.
  intros Hinit Hstyle. pose proof (init_WellFormed _ _ Hinit) as wf.
  apply gating_enabled_iff in Hstyle. split.
  - intros inputs memory tm output next_memory E. unfold forward_step in E.
    inv_bind E as ir Hir. inv_bind E as mpi Hmpi. inv_bind E as att Hatt.
    inv_bind E as nm Hnm. inversion E. subst. clear E.
    rewrite Hstyle in Hnm.
    inv_bind Hnm as gates Hgates. destruct gates as [ig fg].
    inv_bind Hnm as p Hp. inv_bind Hnm as g Hg.
    exists ir, mpi, att, ig, fg, p, g. repeat (split; [assumption|]). reflexivity.
  - intros B x memory HB Hs Hh Hn Hx Hm.
    apply shape2_Shape2 in Hx. apply shape3_Shape3 in Hm.
    destruct (project_input_vector wf Hx) as [ir [Hir Sir]].
    destruct (@forward_step_run _ _ self wf ltac:(lia) B (of_rank 2 x) false memory ir
                HB (fun _ => conj Hs (mem_size_pos wf Hh Hn)) Hir Sir Hm)
      as [mpi [att [Hcat [Hatt [_ [_ [_ Hrun]]]]]]].
    destruct (Hrun Hstyle) as [ig [fg [nm [Hcg [_ [_ [Hstep [Snm Eq]]]]]]]].
    exists ir, mpi, att, ig, fg, nm. repeat (split; [assumption|]).
    split; [apply shape3_Shape3; assumption | exact Eq].
Qed.

(** C8. With gating disabled, [forward_step] returns the attended memory
    cut back to the slot rows as the next memory, with no tanh, input
    gate or forget gate applied, and the output is that memory
    flattened. *)
Theorem forward_step_ungated (a : Args F) (i : Init F) (self : RelationalMemory F) :
  __init__ a i = Ok self ->
  gate_style self = None ->
  (forall inputs memory tm,
     forward_step self inputs memory tm =
     (ir <- project_input self inputs tm ;;
      mpi <- cat_dim1 memory ir ;;
      att <- attend_over_memory self mpi ;;
      Ok (map (flatten 2) (map (slice_to_neg (dim1 ir)) att),
          map (slice_to_neg (dim1 ir)) att))) /\
  (forall B x memory,
     1 <= B -> 1 <= head_size self ->
     shape2 B (input_size self) x = true ->
     shape3 B (mem_slots self) (mem_size self) memory = true ->
     exists ir mpi att,
       project_input self (of_rank 2 x) false = Ok ir /\
       cat_dim1 memory ir = Ok mpi /\
       attend_over_memory self mpi = Ok att /\
       shape3 B (mem_slots self + 1) (mem_size self) att = true /\
       shape3 B (mem_slots self) (mem_size self)
              (map (firstn (mem_slots self)) att) = true /\
       forward_step self (of_rank 2 x) memory false =
       Ok (map (flatten 2) (map (firstn (mem_slots self)) att),
           map (firstn (mem_slots self)) att)).
Proof.
  intros Hinit Hstyle. pose proof (init_WellFormed _ _ Hinit) as wf.
  apply gating_disabled in Hstyle. split.
  - intros inputs memory tm. unfold forward_step.
    destruct (project_input self inputs tm) as [ir|e]; [|reflexivity]. cbn [bind].
    destruct (cat_dim1 memory ir) as [mpi|e]; [|reflexivity]. cbn [bind].
    destruct (attend_over_memory self mpi) as [att|e]; [|reflexivity]. cbn [bind].
    rewrite Hstyle. reflexivity.
  - intros B x memory HB Hh Hx Hm.
    apply shape2_Shape2 in Hx. apply shape3_Shape3 in Hm.
    destruct (project_input_vector wf Hx) as [ir [Hir Sir]].
    destruct (@forward_step_run _ _ self wf ltac:(lia) B (of_rank 2 x) false memory ir
                HB ltac:(intros C; congruence) Hir Sir Hm)
      as [mpi [att [Hcat [Hatt [Sa [St [Hrun _]]]]]]].
    exists ir, mpi, att. repeat (split; [assumption|]).
    split; [apply shape3_Shape3; assumption|].
    split; [apply shape3_Shape3; assumption|].
    apply Hrun. assumption.
Qed.

End StepClaims.

(** ** The sequence driver *)

Section Forward.
Context {F : Type} `{Scalar F}.
Variable self : RelationalMemory F.

Lemma last_cons_default {A : Type} (l : list A) (a d : A) :
  last (a :: l) d = last l a.
Proof.
  revert a d. induction l as [|b l IH]; intros a d; [reflexivity|].
  change (last (a :: b :: l) d) with (last (b :: l) d).
  rewrite !IH. reflexivity.
Qed.

Lemma forward_loop_fold (n : nat) (x : tensor F (S (S n))) (idxs : list nat)
      (logit : list (list F)) (memory : list (list (list F)))
      (logits : list (list (list (list F)))) :
  foldM (forward_loop self x) (logit, memory, logits) idxs =
  ('(outputs, final) <-
     run_steps self (map (fun idx => of_rank (S n) (select1 idx x)) idxs) memory ;;
   Ok (last outputs logit, final, logits ++ map (@unsqueeze1 _) outputs)).
Proof.
  revert logit memory logits. induction idxs as [|idx idxs IH];
    intros logit memory logits.
  - simpl. rewrite app_nil_r. reflexivity.
  - cbn [foldM map run_steps]. unfold forward_loop at 1.
    destruct (forward_step self (of_rank (S n) (select1 idx x)) memory false)
      as [[output memory']|e]; [|reflexivity].
    cbn [bind]. rewrite IH.
    destruct (run_steps self _ memory') as [[outputs final]|e]; [|reflexivity].
    cbn [bind]. rewrite <- app_assoc, last_cons_default. reflexivity.
Qed.

(** [forward] is the fold [run_steps] over the positions of the input,
    followed by the choice of what to return. *)
Lemma forward_unfold (n : nat) (x : tensor F (S (S n)))
      (memory : list (list (list F))) (tm : bool) :
  forward self (of_rank (S (S n)) x) memory tm =
  ('(outputs, final) <- run_steps self (step_inputs x) memory ;;
   logits <- cat_list_dim1 (map (@unsqueeze1 _) outputs) ;;
   if return_all_outputs self then Ok (logits, final)
   else Ok (unsqueeze1 (last outputs []), final)).
Proof.
  unfold forward, of_rank, step_inputs. rewrite forward_loop_fold.
  destruct (run_steps self _ memory) as [[outputs final]|e]; reflexivity.
Qed.

Lemma run_steps_length (xs : list (any_tensor F)) (memory : list (list (list F)))
      (outputs : list (list (list F))) (final : list (list (list F))) :
  run_steps self xs memory = Ok (outputs, final) -> length outputs = length xs.
Proof.
  revert memory outputs final. induction xs as [|x xs IH];
    intros memory outputs final E; simpl in E.
  - inversion E. reflexivity.
  - inv_bind E as r Hr. destruct r as [o m'].
    inv_bind E as r' Hr'. destruct r' as [os f']. inversion E. subst.
    simpl. f_equal. eapply IH. exact Hr'.
Qed.

End Forward.

Section ForwardClaims.
Context {F : Type} `{Scalar F}.

(** C10. [forward] does not pass [treat_input_as_matrix] on: its result
    is the same for both values of the argument, and every step is a
    [forward_step] with the default (vector) input handling. *)
Theorem forward_ignores_treat_input_as_matrix (self : RelationalMemory F) :
  (forall inputs memory tm,
     forward self inputs memory tm = forward self inputs memory (negb tm)) /\
  (forall n (x : tensor F (S (S n))) memory tm,
     forward self (of_rank (S (S n)) x) memory tm =
     ('(outputs, final) <- run_steps self (step_inputs x) memory ;;
      logits <- cat_list_dim1 (map (@unsqueeze1 _) outputs) ;;
      if return_all_outputs self then Ok (logits, final)
      else Ok (unsqueeze1 (last outputs []), final))).
Proof.
  split.
  - intros inputs memory tm. reflexivity.
  - intros n x memory tm. apply forward_unfold.
Qed.

End ForwardClaims.

Section Stacking.
Context {F : Type} `{Scalar F}.

Lemma select1_shape (d0 d1 d2 idx : nat) (x : tensor F 3) :
  Shape3 d0 d1 d2 x -> idx < d1 -> Shape2 d0 d2 (select1 (n:=1) idx x).
Proof.
  intros [Hl Hf] Hidx. unfold select1. split; [rewrite length_map; assumption|].
  apply Forall_map_impl with (P := Shape2 d1 d2); [|assumption].
  intros m [Hml Hmf]. rewrite Forall_forall in Hmf. apply Hmf.
  apply nth_In. lia.
Qed.

(** [torch.cat] of the unsqueezed step outputs: row [b] of the result
    lists the outputs of batch element [b], one per step. *)
Lemma stack_outputs (d0 w k : nat) (acc : list (list (list F)))
      (outputs : list (list (list F))) :
  Shape3 d0 k w acc ->
  Forall (Shape2 d0 w) outputs ->
  exists stacked,
    foldM cat_dim1 acc (map (@unsqueeze1 _) outputs) = Ok stacked /\
    Shape3 d0 (k + length outputs) w stacked /\
    forall b, b < d0 ->
      nth b stacked [] = nth b acc [] ++ map (fun o => nth b o []) outputs.
Proof.
  intros Hacc Hos. revert k acc Hacc.
  induction Hos as [|o os Ho _ IH]; intros k acc Hacc.
  - exists acc. split; [reflexivity|]. simpl. rewrite Nat.add_0_r.
    split; [assumption|]. intros b Hb. rewrite app_nil_r. reflexivity.
  - cbn [map foldM].
    destruct (cat_dim1_total Hacc (unsqueeze1_shape Ho)) as [c [Hc [Sc Ec]]].
    rewrite Hc. cbn [bind].
    destruct (IH _ c Sc) as [stacked [Hst [Ss Es]]].
    exists stacked. split; [assumption|].
    split; [simpl; replace (k + S (length os)) with (k + 1 + length os) by lia;
            assumption|].
    intros b Hb. rewrite (Es b Hb), (Ec b Hb), <- app_assoc. f_equal.
    unfold unsqueeze1. rewrite (nth_map_in [] [] (fun r => [r]));
      [reflexivity | destruct Ho; lia].
Qed.

Lemma cat_outputs (d0 w : nat) (outputs : list (list (list F))) :
  outputs <> [] ->
  Forall (Shape2 d0 w) outputs ->
  exists stacked,
    cat_list_dim1 (map (@unsqueeze1 _) outputs) = Ok stacked /\
    Shape3 d0 (length outputs) w stacked /\
    forall b, b < d0 -> nth b stacked [] = map (fun o => nth b o []) outputs.
Proof.
  intros Hne Hos. destruct outputs as [|o os]; [contradiction|].
  inversion Hos as [|? ? Ho Hos']. subst.
  cbn [map cat_list_dim1].
  destruct (stack_outputs (unsqueeze1_shape Ho) Hos') as [stacked [Hst [Ss Es]]].
  exists stacked. split; [assumption|]. split; [exact Ss|].
  intros b Hb. rewrite (Es b Hb). unfold unsqueeze1.
  rewrite (nth_map_in [] [] (fun r => [r])); [reflexivity | destruct Ho; lia].
Qed.

Lemma last_Forall {A : Type} (P : A -> Prop) (l : list A) (d : A) :
  l <> [] -> Forall P l -> P (last l d).
Proof.
  intros Hne Hl. rewrite Forall_forall in Hl. apply Hl.
  destruct (exists_last Hne) as [l' [a E]]. subst.
  rewrite last_last. apply in_or_app. right. left. reflexivity.
Qed.

End Stacking.

Section ForwardTotal.
Context {F : Type} `{Scalar F}.
Variable self : RelationalMemory F.
Hypothesis wf : WellFormed self.
Hypothesis head_size_pos : head_size self <> 0.

Lemma forward_step_total (d0 : nat) (x : tensor F 2) (memory : list (list (list F))) :
  1 <= d0 ->
  (gating_enabled self = true -> 1 <= mem_slots self /\ 1 <= mem_size self) ->
  Shape2 d0 (input_size self) x ->
  Shape3 d0 (mem_slots self) (mem_size self) memory ->
  exists output next_memory,
    forward_step self (of_rank 2 x) memory false = Ok (output, next_memory) /\
    Shape2 d0 (mem_slots self * mem_size self) output /\
    Shape3 d0 (mem_slots self) (mem_size self) next_memory.
Proof.
  intros Hd Hgate Hx Hm.
  destruct (project_input_vector wf Hx) as [ir [Hir Sir]].
  destruct (forward_step_run wf head_size_pos (of_rank 2 x) false Hd Hgate Hir Sir Hm)
    as [mpi [att [_ [_ [_ [St [Hoff Hon]]]]]]].
  destruct (gating_enabled self) eqn:Hg.
  - destruct (Hon eq_refl) as [ig [fg [nm [_ [_ [_ [Hstep [Sn _]]]]]]]].
    exists (map (flatten 2) nm), nm. split; [assumption|].
    split; [apply output_shape; assumption | assumption].
  - rewrite (Hoff eq_refl). do 2 eexists. split; [reflexivity|].
    split; [apply output_shape; assumption | assumption].
Qed.

Lemma run_steps_total (d0 : nat) (xs : list (tensor F 2))
      (memory : list (list (list F))) :
  1 <= d0 ->
  (gating_enabled self = true -> 1 <= mem_slots self /\ 1 <= mem_size self) ->
  Forall (Shape2 d0 (input_size self)) xs ->
  Shape3 d0 (mem_slots self) (mem_size self) memory ->
  exists outputs final,
    run_steps self (map (of_rank 2) xs) memory = Ok (outputs, final) /\
    Forall (Shape2 d0 (mem_slots self * mem_size self)) outputs /\
    Shape3 d0 (mem_slots self) (mem_size self) final.
Proof.
  intros Hd Hgate Hxs. revert memory.
  induction Hxs as [|x xs Hx _ IH]; intros memory Hm.
  - exists [], memory. split; [reflexivity|]. split; [constructor | assumption].
  - destruct (forward_step_total Hd Hgate Hx Hm) as [o [m' [Hstep [So Sm']]]].
    destruct (IH m' Sm') as [os [final [Hrun [Sos Sf]]]].
    exists (o :: os), final. cbn [map run_steps]. rewrite Hstep. cbn [bind].
    rewrite Hrun. cbn [bind]. split; [reflexivity|].
    split; [constructor; assumption | assumption].
Qed.

End ForwardTotal.

Section ReturnAll.
Context {F : Type} `{Scalar F}.

Lemma run_steps_set_return_all_outputs (b : bool) (self : RelationalMemory F)
      (xs : list (any_tensor F)) (memory : list (list (list F))) :
  run_steps (set_return_all_outputs b self) xs memory = run_steps self xs memory.
Proof.
  revert memory. induction xs as [|x xs IH]; intros memory; [reflexivity|].
  cbn [run_steps].
  change (forward_step (set_return_all_outputs b self) x memory false)
    with (forward_step self x memory false).
  destruct (forward_step self x memory false) as [[o m']|e]; [|reflexivity].
  cbn [bind]. rewrite IH. reflexivity.
Qed.

(** C3. Over a sequence of length [T >= 1], [forward] runs [forward_step]
    once per position, in order, each on the memory returned by the one
    before ([run_steps]).  With [return_all_outputs] set it returns the
    [T] step outputs stacked along axis 1; otherwise it returns exactly
    one, the last step's; the final memory is the same in both cases, and
    so is any exception.  On a well-shaped sequence and memory the call
    succeeds. *)
Theorem forward_outputs (a : Args F) (i : Init F) (self : RelationalMemory F) :
  __init__ a i = Ok self ->
  (forall n (x : tensor F (S (S n))) memory tm,
     (forall e,
        forward (set_return_all_outputs true self) (of_rank (S (S n)) x) memory tm
        = Raise e <->
        forward (set_return_all_outputs false self) (of_rank (S (S n)) x) memory tm
        = Raise e) /\
     (forall stacked final_memory,
        forward (set_return_all_outputs true self) (of_rank (S (S n)) x) memory tm
        = Ok (stacked, final_memory) ->
        exists outputs,
          run_steps self (step_inputs x) memory = Ok (outputs, final_memory) /\
          length outputs = dim1 x /\
          cat_list_dim1 (map (@unsqueeze1 _) outputs) = Ok stacked /\
          forward (set_return_all_outputs false self) (of_rank (S (S n)) x) memory tm
          = Ok (unsqueeze1 (last outputs []), final_memory))) /\
  (forall B T (x : tensor F 3) memory tm,
     1 <= B -> 1 <= T -> 1 <= head_size self -> 1 <= num_heads self ->
     (gating_enabled self = true -> 1 <= mem_slots self) ->
     shape3 B T (input_size self) x = true ->
     shape3 B (mem_slots self) (mem_size self) memory = true ->
     exists outputs final_memory stacked,
       run_steps self (step_inputs (n:=1) x) memory = Ok (outputs, final_memory) /\
       length outputs = T /\
       shape3 B (mem_slots self) (mem_size self) final_memory = true /\
       forward (set_return_all_outputs true self) (of_rank 3 x) memory tm =
       Ok (stacked, final_memory) /\
       shape3 B T (mem_slots self * mem_size self) stacked = true /\
       (forall b, b < B -> nth b stacked [] = map (fun o => nth b o []) outputs) /\
       forward (set_return_all_outputs false self) (of_rank 3 x) memory tm =
       Ok (unsqueeze1 (last outputs []), final_memory) /\
       shape3 B 1 (mem_slots self * mem_size self)
              (unsqueeze1 (last outputs [])) = true).
Proof.
  intros Hinit. pose proof (init_WellFormed _ _ Hinit) as wf. split.
  - intros n x memory tm. rewrite !forward_unfold, !run_steps_set_return_all_outputs.
    cbn [return_all_outputs set_return_all_outputs].
    destruct (run_steps self (step_inputs x) memory) as [[outputs final]|e0] eqn:Hrun;
      cbn [bind].
    + pose proof (run_steps_length _ _ _ Hrun) as Hlen.
      unfold step_inputs in Hlen. rewrite length_map, length_seq in Hlen.
      destruct (cat_list_dim1 (map (@unsqueeze1 _) outputs)) as [stacked|e0] eqn:Hcat;
        cbn [bind].
      * split; [intros e; split; discriminate|].
        intros stacked' final' E. inversion E. subst.
        exists outputs. repeat (split; [assumption || reflexivity|]). reflexivity.
      * split; [intros e; reflexivity|]. intros stacked' final' E. discriminate.
    + split; [intros e; reflexivity|]. intros stacked' final' E. discriminate.
  - intros B T x memory tm HB HT Hh Hn Hslots Hx Hm.
    apply shape3_Shape3 in Hx. apply shape3_Shape3 in Hm.
    assert (Hdim : dim1 x = T) by (apply (Shape3_dim1 Hx); assumption).
    assert (Hsteps : step_inputs (n:=1) x =
                     map (of_rank 2) (map (fun idx => select1 (n:=1) idx x) (seq 0 T))).
    { unfold step_inputs. rewrite Hdim, map_map. reflexivity. }
    destruct (@run_steps_total _ _ self wf ltac:(lia) B
                (map (fun idx => select1 (n:=1) idx x) (seq 0 T)) memory HB)
      as [outputs [final [Hrun [Sos Sf]]]]; [| |assumption|].
    { intros Hg. split; [auto | apply mem_size_pos; assumption]. }
    { apply Forall_forall. intros s Hs. apply in_map_iff in Hs.
      destruct Hs as [idx [Hs Hin]]. subst s. apply in_seq in Hin.
      eapply select1_shape; [exact Hx | lia]. }
    rewrite <- Hsteps in Hrun.
    pose proof (run_steps_length _ _ _ Hrun) as Hlen.
    unfold step_inputs in Hlen. rewrite length_map, length_seq, Hdim in Hlen.
    assert (Hne : outputs <> []).
    { intros C. subst outputs. simpl in Hlen. lia. }
    destruct (cat_outputs Hne Sos) as [stacked [Hcat [Ss Es]]].
    rewrite Hlen in Ss.
    exists outputs, final, stacked.
    split; [assumption|]. split; [assumption|].
    split; [apply shape3_Shape3; assumption|].
    split.
    { rewrite forward_unfold, run_steps_set_return_all_outputs, Hrun. cbn [bind].
      rewrite Hcat. reflexivity. }
    split; [apply shape3_Shape3; assumption|].
    split; [assumption|].
    split.
    { rewrite forward_unfold, run_steps_set_return_all_outputs, Hrun. cbn [bind].
      rewrite Hcat. reflexivity. }
    apply shape3_Shape3. apply unsqueeze1_shape.
    apply last_Forall; assumption.
Qed.

End ReturnAll.

(** ** Concrete runs *)


Lemma forward_step_gated_witness :
  exists self next_memory,
    __init__ (example_args (Some "memory"%string) None) example_init = Ok self /\
    forward_step self (of_rank 2 (repeat (repeat (TConst 2) 4) 2))
                 (example_tensor 2 1 4) false =
    Ok (map (flatten 2) next_memory, next_memory) /\
    shape3 2 1 4 next_memory = true.
Proof.
  eexists.
  destruct (@forward_step_gated term _
              (example_args (Some "memory"%string) None) example_init _ eq_refl)
    as [_ Hrun].
  - right. reflexivity.
  - destruct (Hrun 2 (repeat (repeat (TConst 2) 4) 2) (example_tensor 2 1 4))
      as (ir & mpi & att & ig & fg & nm & _ & _ & _ & _ & Hstep & Snm & _);
      try reflexivity; try (simpl; lia).
    exists nm. split; [reflexivity|]. split; [exact Hstep | exact Snm].
Defined.

Lemma forward_step_ungated_witness :
  exists self att,
    __init__ (example_args None None) example_init = Ok self /\
    forward_step self (of_rank 2 (repeat (repeat (TConst 2) 4) 2))
                 (example_tensor 2 1 4) false =
    Ok (map (flatten 2) (map (firstn 1) att), map (firstn 1) att) /\
    shape3 2 2 4 att = true.
Proof.
  eexists.
  destruct (@forward_step_ungated term _
              (example_args None None) example_init _ eq_refl eq_refl)
    as [_ Hrun].
  destruct (Hrun 2 (repeat (repeat (TConst 2) 4) 2) (example_tensor 2 1 4))
    as (ir & mpi & att & _ & _ & _ & Sa & _ & Hstep);
    try reflexivity; try (simpl; lia).
  exists att. split; [reflexivity|]. split; [exact Hstep | exact Sa].
Defined.

Lemma forward_outputs_witness :
  exists self outputs final_memory stacked,
    __init__ (example_args (Some "unit"%string) None) example_init = Ok self /\
    length outputs = 3 /\
    forward (set_return_all_outputs true self) (of_rank 3 (example_tensor 2 3 4))
            (example_tensor 2 1 4) false = Ok (stacked, final_memory) /\
    shape3 2 3 4 stacked = true /\
    forward (set_return_all_outputs false self) (of_rank 3 (example_tensor 2 3 4))
            (example_tensor 2 1 4) false =
    Ok (unsqueeze1 (last outputs []), final_memory) /\
    shape3 2 1 4 final_memory = true.
Proof.
  eexists.
  destruct (@forward_outputs term _
              (example_args (Some "unit"%string) None) example_init _ eq_refl)
    as [_ Hrun].
  destruct (Hrun 2 3 (example_tensor 2 3 4) (example_tensor 2 1 4) false)
    as (outputs & final & stacked & _ & Hlen & Sf & Hall & Ss & _ & Hlast & _);
    try reflexivity; try (simpl; lia).
  exists outputs, final, stacked.
  split; [reflexivity|]. split; [exact Hlen|]. split; [exact Hall|].
  split; [exact Ss|]. split; [exact Hlast | exact Sf].
Defined.

(** * Further properties *)

(** ** Detaching hidden states *)

Section Repackage.
Context {F : Type}.

Lemma hidden_induction (P : hidden F -> Prop) :
  (forall t, P (HTensor t)) ->
  (forall hs, Forall P hs -> P (HTuple hs)) ->
  (forall hs, Forall P hs -> P (HList hs)) ->
  forall h, P h.
Proof.
  intros Ht Htu Hl. fix IH 1. intros [t|hs|hs].
  - apply Ht.
  - apply Htu. induction hs as [|h hs IHhs]; constructor; [apply IH | exact IHhs].
  - apply Hl. induction hs as [|h hs IHhs]; constructor; [apply IH | exact IHhs].
Qed.

Lemma flat_map_map {A B C : Type} (f : A -> B) (g : B -> list C) (l : list A) :
  flat_map g (map f l) = flat_map (fun a => g (f a)) l.
Proof. induction l as [|a l IH]; simpl; [reflexivity | rewrite IH; reflexivity]. Qed.

(** X1. [repackage_hidden] returns a state of the same nesting and the same
    data in which no tensor requires a gradient or has a history, and
    every container, list or tuple, has become a tuple. *)
Theorem repackage_hidden_detaches (h : hidden F) :
  same_nesting h (repackage_hidden h) /\
  map (@data F) (tensors_of (repackage_hidden h)) = map (@data F) (tensors_of h) /\
  Forall (fun t => requires_grad t = false /\ grad_fn t = false)
         (tensors_of (repackage_hidden h)) /\
  tuples_only (repackage_hidden h) = true.
Proof.
  induction h as [t|hs IH|hs IH] using hidden_induction.
  - simpl. repeat split; try reflexivity.
    + constructor. reflexivity.
    + constructor; [split; reflexivity | constructor].
  - cbn [repackage_hidden tensors_of tuples_only]. rewrite flat_map_map.
    split; [|split; [|split]].
    + constructor. induction IH as [|x l [Hx _] _ IHl]; constructor; assumption.
    + induction IH as [|x l (_ & Hx & _) _ IHl]; simpl; [reflexivity|].
      rewrite !map_app, Hx, IHl. reflexivity.
    + induction IH as [|x l (_ & _ & Hx & _) _ IHl]; simpl; [constructor|].
      apply Forall_app. split; assumption.
    + rewrite forallb_forall. intros y Hy. apply in_map_iff in Hy.
      destruct Hy as [x [Hy Hin]]. subst y. rewrite Forall_forall in IH.
      apply (IH x Hin).
  - cbn [repackage_hidden tensors_of tuples_only]. rewrite flat_map_map.
    split; [|split; [|split]].
    + constructor. induction IH as [|x l [Hx _] _ IHl]; constructor; assumption.
    + induction IH as [|x l (_ & Hx & _) _ IHl]; simpl; [reflexivity|].
      rewrite !map_app, Hx, IHl. reflexivity.
    + induction IH as [|x l (_ & _ & Hx & _) _ IHl]; simpl; [constructor|].
      apply Forall_app. split; assumption.
    + rewrite forallb_forall. intros y Hy. apply in_map_iff in Hy.
      destruct Hy as [x [Hy Hin]]. subst y. rewrite Forall_forall in IH.
      apply (IH x Hin).
Qed.

(** X2. Repackaging a second time changes nothing. *)
Theorem repackage_hidden_idempotent (h : hidden F) :
  repackage_hidden (repackage_hidden h) = repackage_hidden h.
Proof.
  induction h as [t|hs IH|hs IH] using hidden_induction.
  - reflexivity.
  - cbn [repackage_hidden]. f_equal. rewrite map_map.
    apply map_ext_in. intros x Hx. rewrite Forall_forall in IH. apply IH. exact Hx.
  - cbn [repackage_hidden]. f_equal. rewrite map_map.
    apply map_ext_in. intros x Hx. rewrite Forall_forall in IH. apply IH. exact Hx.
Qed.

End Repackage.

(** ** Edges of the memory seed and of the driver *)

Section Edges.
Context {F : Type} `{Scalar F}.

(** X3. [initial_state] returns a state exactly for a batch size of at least
    1; for an empty batch [torch.stack] raises. *)
Theorem initial_state_needs_batch (self : RelationalMemory F) (batch_size : nat) :
  ((exists state, initial_state self batch_size = Ok state) <-> 1 <= batch_size) /\
  (initial_state self 0 =
   Raise (RuntimeError "stack expects a non-empty TensorList")).
Proof.
  split; [|reflexivity]. split.
  - intros [state E]. destruct batch_size as [|b]; [discriminate | lia].
  - intros HB. eexists. apply initial_state_eq. assumption.
Qed.

(** X5. [forward] on a sequence of length 0 raises in [torch.cat], whatever
    [return_all_outputs] is; on an input without a sequence axis it raises
    an IndexError. *)
Theorem forward_empty_sequence (self : RelationalMemory F)
        (memory : list (list (list F))) (tm : bool) :
  (forall n (x : tensor F (S (S n))),
     dim1 x = 0 ->
     forward self (of_rank (S (S n)) x) memory tm =
     Raise (RuntimeError "torch.cat(): expected a non-empty list of Tensors")) /\
  (forall inputs, ndim inputs < 2 -> forward self inputs memory tm = Raise IndexError).
Proof.
  split.
  - intros n x Hx. unfold forward, of_rank. rewrite Hx. reflexivity.
  - intros [n x] Hn. simpl in Hn. destruct n as [|[|n]]; [reflexivity | reflexivity | lia].
Qed.

(** X18. The layers of [attention_mlp] are one layer repeated
    [attention_mlp_layers] times: they all carry the same parameters. *)
Theorem attention_mlp_shared (a : Args F) (i : Init F) (self : RelationalMemory F) :
  __init__ a i = Ok self ->
  length (attention_mlp self) = Z.to_nat (a_attention_mlp_layers a) /\
  1 <= length (attention_mlp self) /\
  forall k l, nth_error (attention_mlp self) k = Some l ->
              l = nn_Linear (mem_size self) (mem_size self) (i_attention_mlp i).
Proof.
  unfold __init__.
  destruct (Z.ltb_spec (a_num_blocks a) 1) as [Hb|Hb]; [discriminate|].
  destruct (negb _); [discriminate|].
  destruct (Z.ltb_spec (a_attention_mlp_layers a) 1) as [Hl|Hl]; [discriminate|].
  intros E. inversion E. cbn [attention_mlp mem_size]. rewrite repeat_length.
  split; [reflexivity|]. split; [lia|].
  intros k l Hk. apply nth_error_In in Hk. apply repeat_spec in Hk. exact Hk.
Qed.

End Edges.

Lemma forward_empty_sequence_witness :
  exists self,
    __init__ (example_args (Some "unit"%string) None) example_init = Ok self /\
    forward self (of_rank 3 (example_tensor 2 0 4)) (example_tensor 2 1 4) false =
    Raise (RuntimeError "torch.cat(): expected a non-empty list of Tensors").
Proof.
  eexists. split; [reflexivity|].
  apply (proj1 (forward_empty_sequence _ (example_tensor 2 1 4) false) 1
               (example_tensor 2 0 4)).
  reflexivity.
Defined.

Lemma attention_mlp_shared_witness :
  exists self,
    __init__ (example_args (Some "unit"%string) None) example_init = Ok self /\
    length (attention_mlp self) = 2.
Proof.
  eexists. split; [reflexivity|].
  exact (proj1 (@attention_mlp_shared term
                  (example_args (Some "unit"%string) None) example_init _ eq_refl)).
Defined.

(** ** More on one step *)

Lemma zipM_length_mismatch {A B C : Type} (e : exn) (f : A -> B -> result C)
      (l1 : list A) (l2 : list B) :
  (forall a b e', f a b = Raise e' -> e' = e) ->
  length l1 <> length l2 -> zipM e f l1 l2 = Raise e.
Proof.
  intros Hf. revert l2. induction l1 as [|a l1 IH]; intros [|b l2] Hl;
    simpl in *; try reflexivity; try contradiction.
  destruct (f a b) as [c|e'] eqn:Hab; cbn [bind].
  - rewrite IH by lia. reflexivity.
  - rewrite (Hf _ _ _ Hab). reflexivity.
Qed.

Section StepEdges.
Context {F : Type} `{Scalar F}.

Lemma cat_dim1_batch_mismatch (a b : list (list (list F))) :
  length a <> length b -> cat_dim1 a b = Raise cat_mismatch.
Proof.
  intros Hl. unfold cat_dim1. apply zipM_length_mismatch; [|assumption].
  intros ma mb e' E. destruct (uniform_width (ma ++ mb)); [discriminate|].
  inversion E. reflexivity.
Qed.

Lemma project_input_single_row (self : RelationalMemory F) (x : tensor F 3) :
  Forall (fun m => length m = 1) x ->
  project_input self (of_rank 3 x) true =
  project_input self (of_rank 2 (select1 (n:=1) 0 x)) false.
Proof.
  intros Hx. unfold project_input, of_rank, linear3, linear2, select1.
  induction Hx as [|m x Hm _ IH]; [reflexivity|].
  destruct m as [|r [|r' m]]; try discriminate.
  cbn [map mapM nth] in *.
  destruct (linear (input_projector self) (flatten 1 r)) as [y|e]; [|reflexivity].
  cbn [bind]. rewrite IH.
  match goal with |- context [mapM ?f ?l] => destruct (mapM f l) as [ys|e] end;
    reflexivity.
Qed.

(** X10. The two input paths agree on a single time step: a matrix input of
    one row per batch element gives what its row gives as a vector input,
    result or exception. *)
Theorem forward_step_single_row (self : RelationalMemory F) (x : tensor F 3)
        (memory : list (list (list F))) :
  Forall (fun m => length m = 1) x ->
  forward_step self (of_rank 3 x) memory true =
  forward_step self (of_rank 2 (select1 (n:=1) 0 x)) memory false.
Proof.
  intros Hx. unfold forward_step. rewrite (project_input_single_row self Hx).
  reflexivity.
Qed.

(** X12. A batch of inputs that does not match the batch of the memory is
    rejected by [torch.cat]; an input of the wrong width by the input
    projection. *)
Theorem forward_step_rejects_mismatch (a : Args F) (i : Init F)
        (self : RelationalMemory F) (B : nat) (x : tensor F 2)
        (memory : list (list (list F))) :
  __init__ a i = Ok self ->
  (shape2 B (input_size self) x = true -> length memory <> B ->
   forward_step self (of_rank 2 x) memory false = Raise cat_mismatch) /\
  (forall w, shape2 B w x = true -> 1 <= B -> w <> input_size self ->
   forward_step self (of_rank 2 x) memory false =
   Raise (RuntimeError "mat1 and mat2 shapes cannot be multiplied")).
Proof.
  intros Hinit. pose proof (init_WellFormed _ _ Hinit) as wf. split.
  - intros Hx Hm. apply shape2_Shape2 in Hx.
    destruct (project_input_vector wf Hx) as [ir [Hir [Lir _]]].
    unfold forward_step. rewrite Hir. cbn [bind].
    rewrite cat_dim1_batch_mismatch by congruence. reflexivity.
  - intros w Hx HB Hw. apply shape2_Shape2 in Hx. destruct Hx as [Hl Hrows].
    destruct x as [|r x]; [simpl in Hl; lia|].
    inversion Hrows as [|? ? Hr _]. subst. unfold Shape1 in Hr.
    unfold forward_step, project_input, of_rank, linear2. cbn [map mapM].
    unfold linear at 1. rewrite flatten_1_length.
    destruct (wf_input_projector wf) as [Hin _]. rewrite Hin.
    destruct (Nat.eqb_spec (length r) (input_size self)); [congruence|].
    reflexivity.
Qed.

(** Whatever the gate style, the output of a step is its next memory
    flattened. *)
Lemma forward_step_output (self : RelationalMemory F) (inputs : any_tensor F)
      (memory : list (list (list F))) (tm : bool) (output : list (list F))
      (next_memory : list (list (list F))) :
  forward_step self inputs memory tm = Ok (output, next_memory) ->
  output = map (flatten 2) next_memory.
Proof.
  intros E. unfold forward_step in E.
  inv_bind E as ir Hir. inv_bind E as mpi Hmpi. inv_bind E as att Hatt.
  inv_bind E as nm Hnm. inversion E. reflexivity.
Qed.

(** X9. [state_size] and [output_size] are the sizes a step really produces:
    on a well-shaped input and memory the next memory has shape
    [B] + [state_size] and the output, the next memory flattened, has
    shape [B, output_size]. *)
Theorem forward_step_sizes (a : Args F) (i : Init F) (self : RelationalMemory F)
        (B : nat) (x : tensor F 2) (memory : list (list (list F))) :
  __init__ a i = Ok self ->
  1 <= B -> 1 <= head_size self -> 1 <= num_heads self ->
  (gating_enabled self = true -> 1 <= mem_slots self) ->
  shape2 B (input_size self) x = true ->
  shape3 B (mem_slots self) (mem_size self) memory = true ->
  exists output next_memory,
    forward_step self (of_rank 2 x) memory false = Ok (output, next_memory) /\
    output = map (flatten 2) next_memory /\
    shape2 B (output_size self) output = true /\
    shape3 B (nth 0 (state_size self) 0) (nth 1 (state_size self) 0) next_memory = true.
Proof.
  intros Hinit HB Hh Hn Hslots Hx Hm. pose proof (init_WellFormed _ _ Hinit) as wf.
  apply shape2_Shape2 in Hx. apply shape3_Shape3 in Hm.
  destruct (@forward_step_total _ _ self wf ltac:(lia) B x memory HB)
    as [output [nm [Hstep [So Sn]]]]; try assumption.
  { intros Hg. split; [auto | apply mem_size_pos; assumption]. }
  exists output, nm. split; [assumption|].
  split; [eapply forward_step_output; eassumption|].
  split; [apply shape2_Shape2; assumption | apply shape3_Shape3; assumption].
Qed.

(** X17. The number of blocks (and of MLP layers) has no effect on the shape:
    [attend_over_memory] maps a memory of shape
    [B, mem_slots + 1, mem_size] to one of the same shape. *)
Theorem attend_over_memory_shape (a : Args F) (i : Init F)
        (self : RelationalMemory F) (B : nat) (memory : list (list (list F))) :
  __init__ a i = Ok self ->
  1 <= head_size self ->
  shape3 B (mem_slots self + 1) (mem_size self) memory = true ->
  exists out, attend_over_memory self memory = Ok out /\
              shape3 B (mem_slots self + 1) (mem_size self) out = true.
Proof.
  intros Hinit Hh Hm. pose proof (init_WellFormed _ _ Hinit) as wf.
  apply shape3_Shape3 in Hm.
  destruct (@attend_over_memory_total _ _ self wf ltac:(lia) B memory Hm)
    as [out [Hout Hs]].
  exists out. split; [assumption | apply shape3_Shape3; assumption].
Qed.

(** X11. A matrix input of any other number of rows (a non-empty batch) does
    not get through: the augmented memory has [mem_slots + n] rows and
    the first attention block rejects it. *)
Theorem forward_step_matrix_rows (a : Args F) (i : Init F)
        (self : RelationalMemory F) (B n : nat) (x : tensor F 3)
        (memory : list (list (list F))) :
  __init__ a i = Ok self ->
  1 <= B -> n <> 1 ->
  shape3 B n (input_size self) x = true ->
  shape3 B (mem_slots self) (mem_size self) memory = true ->
  exists msg, forward_step self (of_rank 3 x) memory true = Raise (RuntimeError msg).
Proof.
  intros Hinit HB Hn Hx Hm. pose proof (init_WellFormed _ _ Hinit) as wf.
  apply shape3_Shape3 in Hx. apply shape3_Shape3 in Hm.
  destruct (project_input_matrix wf Hx) as [ir [Hir Sir]].
  destruct (cat_dim1_total Hm Sir) as [mpi [Hcat [Smpi _]]].
  destruct (@multihead_attention_wrong_rows _ _ self wf B (mem_slots self + n) mpi)
    as [msg Hmsg]; [assumption | lia | assumption |].
  exists msg. unfold forward_step. rewrite Hir. cbn [bind]. rewrite Hcat. cbn [bind].
  unfold attend_over_memory.
  destruct (Z.to_nat (num_blocks self)) as [|k] eqn:Hk.
  { pose proof (wf_num_blocks wf). lia. }
  cbn [iterM]. unfold attend_block at 1. rewrite Hmsg. reflexivity.
Qed.

End StepEdges.

(** ** More on the sequence driver *)

Lemma last_map {A B : Type} (f : A -> B) (l : list A) (d : A) :
  last (map f l) (f d) = f (last l d).
Proof.
  induction l as [|a [|b l] IH]; try reflexivity.
  change (last (map f (a :: b :: l)) (f d)) with (last (map f (b :: l)) (f d)).
  rewrite IH. reflexivity.
Qed.

Lemma last_app_nonempty {A : Type} (l1 l2 : list A) (d : A) :
  l2 <> [] -> last (l1 ++ l2) d = last l2 d.
Proof.
  intros Hne. induction l1 as [|a l1 IH]; [reflexivity|].
  simpl app. destruct (l1 ++ l2) eqn:E.
  - destruct l1; [simpl in E; contradiction | discriminate].
  - exact IH.
Qed.

Lemma seq_from (s n : nat) : seq s n = map (Nat.add s) (seq 0 n).
Proof.
  revert s. induction n as [|n IH]; intros s; [reflexivity|].
  cbn [seq map]. rewrite Nat.add_0_r. f_equal.
  rewrite (IH (S s)), (IH 1), map_map. apply map_ext. intros k. lia.
Qed.

Section Chunks.
Context {F : Type} `{Scalar F}.

Lemma run_steps_app (self : RelationalMemory F) (xs ys : list (any_tensor F))
      (memory : list (list (list F))) :
  run_steps self (xs ++ ys) memory =
  ('(o1, m1) <- run_steps self xs memory ;;
   '(o2, m2) <- run_steps self ys m1 ;;
   Ok (o1 ++ o2, m2)).
Proof.
  revert memory. induction xs as [|x xs IH]; intros memory.
  - cbn [app run_steps bind].
    destruct (run_steps self ys memory) as [[o2 m2]|e]; reflexivity.
  - cbn [app run_steps].
    destruct (forward_step self x memory false) as [[o m']|e]; [|reflexivity].
    cbn [bind]. rewrite IH.
    destruct (run_steps self xs m') as [[o1 m1]|e]; [|reflexivity]. cbn [bind].
    destruct (run_steps self ys m1) as [[o2 m2]|e]; reflexivity.
Qed.

Lemma select1_nth (d0 idx b : nat) (x : tensor F 3) :
  length x = d0 -> b < d0 ->
  nth b (select1 (n:=1) idx x) [] = nth idx (nth b x []) [].
Proof.
  intros Hl Hb. unfold select1.
  rewrite (nth_map_in [] [] (fun m : list (list F) => nth idx m [])) by lia.
  reflexivity.
Qed.

Lemma select1_length (idx : nat) (x : tensor F 3) :
  length (select1 (n:=1) idx x) = length x.
Proof. unfold select1. apply length_map. Qed.

(** The positions of two sequences laid end to end are the positions of
    the first followed by those of the second. *)
Lemma select1_cat (d0 t1 t2 w : nat) (x1 x2 x : tensor F 3) :
  Shape3 d0 t1 w x1 -> Shape3 d0 t2 w x2 ->
  length x = d0 ->
  (forall b, b < d0 -> nth b x [] = nth b x1 [] ++ nth b x2 []) ->
  map (fun idx => select1 (n:=1) idx x) (seq 0 (t1 + t2)) =
  map (fun idx => select1 (n:=1) idx x1) (seq 0 t1) ++
  map (fun idx => select1 (n:=1) idx x2) (seq 0 t2).
Proof.
  intros [L1 F1] [L2 F2] Lx Hrows.
  assert (R1 : forall b, b < d0 -> length (nth b x1 []) = t1).
  { intros b Hb. rewrite Forall_forall in F1.
    apply (F1 (nth b x1 [])). apply nth_In. lia. }
  rewrite seq_app, map_app. f_equal.
  - apply map_ext_in. intros idx Hidx. apply in_seq in Hidx.
    apply (nth_ext _ _ [] []); [rewrite !select1_length; congruence|].
    intros b Hb. rewrite select1_length in Hb.
    rewrite (@select1_nth _ idx b x Lx) by lia.
    rewrite (@select1_nth _ idx b x1 L1) by lia.
    rewrite Hrows by lia. apply app_nth1. rewrite R1 by lia. lia.
  - rewrite (seq_from (0 + t1)), map_map.
    apply map_ext_in. intros k Hk. apply in_seq in Hk.
    apply (nth_ext _ _ [] []); [rewrite !select1_length; congruence|].
    intros b Hb. rewrite select1_length in Hb.
    rewrite (@select1_nth _ (0 + t1 + k) b x Lx) by lia.
    rewrite (@select1_nth _ k b x2 L2) by lia.
    rewrite Hrows by lia. rewrite app_nth2 by (rewrite R1 by lia; lia).
    rewrite R1 by lia. f_equal. lia.
Qed.

End Chunks.

Section Runs.
Context {F : Type} `{Scalar F}.
Variable self : RelationalMemory F.
Hypothesis wf : WellFormed self.
Hypothesis head_size_pos : head_size self <> 0.

(** The run of [forward] on a well-shaped sequence, spelled out. *)
Lemma forward_run (d0 t : nat) (x : tensor F 3) (memory : list (list (list F)))
      (tm : bool) :
  1 <= d0 -> 1 <= t ->
  (gating_enabled self = true -> 1 <= mem_slots self /\ 1 <= mem_size self) ->
  Shape3 d0 t (input_size self) x ->
  Shape3 d0 (mem_slots self) (mem_size self) memory ->
  exists outputs final stacked,
    run_steps self (map (of_rank 2)
                        (map (fun idx => select1 (n:=1) idx x) (seq 0 t))) memory
    = Ok (outputs, final) /\
    outputs <> [] /\
    cat_list_dim1 (map (@unsqueeze1 _) outputs) = Ok stacked /\
    Shape3 d0 (mem_slots self) (mem_size self) final /\
    Shape3 d0 t (mem_slots self * mem_size self) stacked /\
    (forall b, b < d0 -> nth b stacked [] = map (fun o => nth b o []) outputs) /\
    Shape2 d0 (mem_slots self * mem_size self) (last outputs []) /\
    forward self (of_rank 3 x) memory tm =
    Ok (if return_all_outputs self then stacked else unsqueeze1 (last outputs []),
        final).
Proof.
  intros Hd Ht Hgate Hx Hm.
  assert (Hdim : dim1 x = t) by (apply (Shape3_dim1 Hx); assumption).
  destruct (@run_steps_total _ _ self wf head_size_pos d0
              (map (fun idx => select1 (n:=1) idx x) (seq 0 t)) memory Hd Hgate)
    as [outputs [final [Hrun [Sos Sf]]]]; [|assumption|].
  { apply Forall_forall. intros s Hs. apply in_map_iff in Hs.
    destruct Hs as [idx [Hs Hin]]. subst s. apply in_seq in Hin.
    eapply select1_shape; [exact Hx | lia]. }
  pose proof (run_steps_length _ _ _ Hrun) as Hlen.
  rewrite !length_map, length_seq in Hlen.
  assert (Hne : outputs <> []).
  { intros C. subst outputs. simpl in Hlen. lia. }
  destruct (cat_outputs Hne Sos) as [stacked [Hcat [Ss Es]]].
  rewrite Hlen in Ss.
  exists outputs, final, stacked. repeat (split; [assumption|]).
  split; [apply last_Forall; assumption|].
  rewrite forward_unfold. unfold step_inputs. rewrite Hdim, <- map_map, Hrun.
  cbn [bind]. rewrite Hcat. cbn [bind].
  destruct (return_all_outputs self); reflexivity.
Qed.

End Runs.

Section DriverClaims.
Context {F : Type} `{Scalar F}.

Lemma gate_sizes_pos (self : RelationalMemory F) :
  WellFormed self -> 1 <= head_size self -> 1 <= num_heads self ->
  (gating_enabled self = true -> 1 <= mem_slots self) ->
  gating_enabled self = true -> 1 <= mem_slots self /\ 1 <= mem_size self.
Proof.
  intros wf Hh Hn Hs Hg. split; [auto | apply mem_size_pos; assumption].
Qed.

(** X7. The one output returned without [return_all_outputs] is the last
    column of the outputs returned with it: [logits[:, -1:, :]]. *)
Theorem forward_last_of_all (a : Args F) (i : Init F) (self : RelationalMemory F)
        (B T : nat) (x : tensor F 3) (memory : list (list (list F))) (tm : bool) :
  __init__ a i = Ok self ->
  1 <= B -> 1 <= T -> 1 <= head_size self -> 1 <= num_heads self ->
  (gating_enabled self = true -> 1 <= mem_slots self) ->
  shape3 B T (input_size self) x = true ->
  shape3 B (mem_slots self) (mem_size self) memory = true ->
  exists stacked single final,
    forward (set_return_all_outputs true self) (of_rank 3 x) memory tm =
    Ok (stacked, final) /\
    forward (set_return_all_outputs false self) (of_rank 3 x) memory tm =
    Ok (single, final) /\
    single = map (fun row => [last row []]) stacked.
Proof.
  intros Hinit HB HT Hh Hn Hslots Hx Hm.
  pose proof (init_WellFormed _ _ Hinit) as wf.
  apply shape3_Shape3 in Hx. apply shape3_Shape3 in Hm.
  destruct (@forward_run _ _ self wf ltac:(lia) B T x memory tm HB HT
              (gate_sizes_pos wf Hh Hn Hslots) Hx Hm)
    as (outputs & final & stacked & Hrun & Hne & Hcat & Sf & Ss & Es & Sl & _).
  assert (Hdim : dim1 x = T) by (apply (Shape3_dim1 Hx); assumption).
  assert (Hfw : forall b,
             forward (set_return_all_outputs b self) (of_rank 3 x) memory tm =
             Ok (if b then stacked else unsqueeze1 (last outputs []), final)).
  { intros b. rewrite forward_unfold, run_steps_set_return_all_outputs.
    unfold step_inputs. rewrite Hdim, <- map_map, Hrun. cbn [bind].
    rewrite Hcat. cbn [bind]. destruct b; reflexivity. }
  exists stacked, (unsqueeze1 (last outputs [])), final.
  split; [apply (Hfw true)|]. split; [apply (Hfw false)|].
  destruct Ss as [Ls _]. destruct Sl as [Ll _].
  apply (nth_ext _ _ [] []).
  - unfold unsqueeze1. rewrite !length_map. congruence.
  - intros b Hb. unfold unsqueeze1 in *. rewrite length_map in Hb.
    rewrite (nth_map_in [] [] (fun r : list F => [r])) by lia.
    rewrite (nth_map_in [] [] (fun row : list (list F) => [last row []])) by lia.
    rewrite Es by lia. f_equal.
    pose proof (last_map (fun o : list (list F) => nth b o []) outputs []) as Hl.
    cbv beta in Hl.
    assert (Hd : nth b (@nil (list F)) [] = []) by (destruct b; reflexivity).
    rewrite Hd in Hl. symmetry. exact Hl.
Qed.

(** X8. A sequence can be fed in two pieces: running [forward] on the first
    piece and then, from the memory it returns, on the second gives the
    final memory of one run over the whole sequence; the outputs of the
    whole run are the two pieces' outputs laid end to end (with
    [return_all_outputs]) or the second piece's output (without). *)
Theorem forward_in_two_pieces (a : Args F) (i : Init F) (self : RelationalMemory F)
        (B T1 T2 : nat) (x1 x2 : tensor F 3) (memory : list (list (list F)))
        (tm : bool) :
  __init__ a i = Ok self ->
  1 <= B -> 1 <= T1 -> 1 <= T2 -> 1 <= head_size self -> 1 <= num_heads self ->
  (gating_enabled self = true -> 1 <= mem_slots self) ->
  shape3 B T1 (input_size self) x1 = true ->
  shape3 B T2 (input_size self) x2 = true ->
  shape3 B (mem_slots self) (mem_size self) memory = true ->
  exists o1 m1 o2 m2 x o,
    forward self (of_rank 3 x1) memory tm = Ok (o1, m1) /\
    forward self (of_rank 3 x2) m1 tm = Ok (o2, m2) /\
    cat_dim1 x1 x2 = Ok x /\
    forward self (of_rank 3 x) memory tm = Ok (o, m2) /\
    (if return_all_outputs self then cat_dim1 o1 o2 = Ok o else o = o2).
Proof.
  intros Hinit HB HT1 HT2 Hh Hn Hslots Hx1 Hx2 Hm.
  pose proof (init_WellFormed _ _ Hinit) as wf.
  pose proof (gate_sizes_pos wf Hh Hn Hslots) as Hgate.
  assert (Hhp : head_size self <> 0) by lia.
  apply shape3_Shape3 in Hx1. apply shape3_Shape3 in Hx2. apply shape3_Shape3 in Hm.
  destruct (forward_run wf Hhp tm HB HT1 Hgate Hx1 Hm)
    as (os1 & m1 & st1 & Hrun1 & Hne1 & Hcat1 & Sm1 & Ss1 & Es1 & _ & Hf1).
  destruct (forward_run wf Hhp tm HB HT2 Hgate Hx2 Sm1)
    as (os2 & m2 & st2 & Hrun2 & Hne2 & Hcat2 & Sm2 & Ss2 & Es2 & _ & Hf2).
  destruct (cat_dim1_total Hx1 Hx2) as [x [Hx [Sx Ex]]].
  assert (HT : 1 <= T1 + T2) by lia.
  destruct (forward_run wf Hhp tm HB HT Hgate Sx Hm)
    as (os & m & st & Hrun & Hne & Hcat & Sm & Ss & Es & _ & Hf).
  rewrite (@select1_cat _ _ B T1 T2 _ x1 x2 x Hx1 Hx2 (proj1 Sx) Ex) in Hrun.
  rewrite map_app, run_steps_app in Hrun.
  rewrite Hrun1 in Hrun. cbn [bind] in Hrun. rewrite Hrun2 in Hrun.
  cbn [bind] in Hrun. inversion Hrun. subst os m. clear Hrun.
  do 6 eexists. split; [exact Hf1|]. split; [exact Hf2|]. split; [exact Hx|].
  split; [exact Hf|].
  destruct (return_all_outputs self).
  - destruct (cat_dim1_total Ss1 Ss2) as [c [Hc [Sc Ec]]]. rewrite Hc. f_equal.
    apply (nth_ext _ _ [] []); [destruct Sc, Ss; congruence|].
    intros b Hb. destruct Sc as [Lc _]. rewrite Lc in Hb.
    rewrite Ec, Es, Es1, Es2, map_app by assumption. reflexivity.
  - rewrite last_app_nonempty by assumption. reflexivity.
Qed.

End DriverClaims.

(** ** More on the gates *)

Lemma get3_map_rows {A B : Type} (da : A) (db : B) (f : list A -> list B)
      (d0 d1 : nat) (t : list (list (list A))) (b s j : nat) :
  length t = d0 -> Forall (fun m => length m = d1) t -> b < d0 -> s < d1 ->
  get3 db (map (map f) t) b s j = nth j (f (nth s (nth b t []) [])) db.
Proof.
  intros Hl Hf Hb Hs. unfold get3.
  assert (Hm : length (nth b t []) = d1).
  { rewrite Forall_forall in Hf. apply Hf. apply nth_In. lia. }
  rewrite (nth_map_in [] [] (map f)) by lia.
  rewrite (nth_map_in [] [] f) by lia. reflexivity.
Qed.

(** The sum of [d0, d1, w] and [d0, 1, w], entry by entry. *)
Lemma bop3_rows_broadcast_spec {A : Type} (d : A) (f : A -> A -> A) (d0 d1 w : nat)
      (t1 t2 : list (list (list A))) :
  Shape3 d0 d1 w t1 -> Shape3 d0 1 w t2 ->
  exists t, bop3 f t1 t2 = Ok t /\ Shape3 d0 d1 w t /\
            forall b s j, b < d0 -> s < d1 -> j < w ->
              get3 d t b s j = f (get3 d t1 b s j) (get3 d t2 b 0 j).
Proof.
  intros [H1 F1] [H2 F2]. unfold bop3. rewrite bcast_equal by congruence.
  destruct (@zipM_pointwise _ _ _ size_mismatch
              (bcast (bcast (fun x y => Ok (f x y))))
              (fun b m => Shape2 d1 w m /\
                 forall s j, s < d1 -> j < w ->
                   nth j (nth s m []) d =
                   f (get3 d t1 b s j) (get3 d t2 b 0 j)) t1 t2)
    as [t [Ht [Hlen Hp]]]; [congruence| |].
  - intros b m1 m2 Hm1 Hm2.
    destruct (Forall_nth_error _ F1 Hm1) as [L1 R1].
    destruct (Forall_nth_error _ F2 Hm2) as [L2 R2].
    destruct m2 as [|r2 [|r2' m2]]; try discriminate.
    pose proof (Forall_inv R2) as Hr2. unfold Shape1 in Hr2.
    rewrite bcast_right1.
    destruct (@mapM_pointwise _ _ (fun a => bcast (fun x y => Ok (f x y)) a r2)
                (fun s r => length r = w /\
                   forall j, j < w ->
                     nth j r d = f (nth j (nth s m1 []) d) (nth j r2 d)) m1)
      as [m [Hm [Hml Hmp]]].
    + intros s r1 Hr1. pose proof (Forall_nth_error _ R1 Hr1) as Lr1.
      unfold Shape1 in Lr1.
      destruct (@brow_spec _ _ _ d d d f w w r1 r2 Lr1 Hr2
                  (or_introl eq_refl)) as [r [Hr [Hrl Hrp]]].
      exists r. split; [assumption|]. split; [assumption|].
      intros j Hj. rewrite (Hrp j Hj). unfold bcol. rewrite Nat.eqb_refl.
      rewrite (nth_error_nth _ _ [] Hr1). reflexivity.
    + exists m. split; [assumption|]. split.
      * split; [congruence|]. apply nth_error_Forall.
        intros s r Hr. exact (proj1 (Hmp _ _ Hr)).
      * intros s j Hs Hj. unfold get3.
        rewrite (nth_error_nth _ _ [] Hm1), (nth_error_nth _ _ [] Hm2).
        cbn [nth]. apply (Hmp s); [|assumption].
        apply nth_error_nth'. lia.
  - exists t. split; [assumption|]. split.
    + split; [congruence|]. apply nth_error_Forall.
      intros b m Hm. exact (proj1 (Hp _ _ Hm)).
    + intros b s j Hb Hs Hj. unfold get3 at 1.
      apply (Hp b); [|assumption|assumption].
      apply nth_error_nth'. lia.
Qed.

Section GateEntries.
Context {F : Type} `{Scalar F}.

(** X15. The input gate is the sigmoid of the first half of the summed
    projections plus [input_bias], the forget gate that of the second half
    plus [forget_bias]; the projection of the memory goes through [tanh]
    first, and the projection of the input is shared by all slots. *)
Theorem create_gates_entries (a : Args F) (i : Init F) (self : RelationalMemory F)
        (B : nat) (x : tensor F 3) (memory : list (list (list F))) :
  __init__ a i = Ok self ->
  gating_enabled self = true ->
  1 <= B -> 1 <= mem_slots self -> 1 <= head_size self -> 1 <= num_heads self ->
  shape3 B 1 (mem_size self) x = true ->
  shape3 B (mem_slots self) (mem_size self) memory = true ->
  exists gate_inputs gate_memory input_gate forget_gate,
    linear2 (input_gate_projector self) (map (flatten 2) x) = Ok gate_inputs /\
    linear3 (memory_gate_projector self) (map3 stanh memory) = Ok gate_memory /\
    create_gates self (of_rank 3 x) memory = Ok (input_gate, forget_gate) /\
    forall b s j, b < B -> s < mem_slots self -> j < gate_size self ->
      get3 s0 input_gate b s j =
      ssigmoid (sadd (sadd (get3 s0 gate_memory b s j)
                           (nth j (nth b gate_inputs []) s0))
                     (input_bias self)) /\
      get3 s0 forget_gate b s j =
      ssigmoid (sadd (sadd (get3 s0 gate_memory b s (gate_size self + j))
                           (nth (gate_size self + j) (nth b gate_inputs []) s0))
                     (forget_bias self)).
Proof.
  intros Hinit Hg HB Hslots Hh Hn Hx Hm.
  pose proof (init_WellFormed _ _ Hinit) as wf.
  pose proof (mem_size_pos wf Hh Hn) as HW.
  apply shape3_Shape3 in Hx. apply shape3_Shape3 in Hm.
  assert (Hgs : 1 <= gate_size self).
  { destruct (gate_size_cases self Hg) as [[_ E]|[_ E]]; rewrite E; lia. }
  destruct (wf_input_gate_projector wf) as [Iin Iout].
  destruct (wf_memory_gate_projector wf) as [Min Mout].
  destruct (@linear2_total _ _ (input_gate_projector self) B (map (flatten 2) x))
    as [gi [Hgi Sgi]].
  { destruct Hx as [Hl Hf]. split; [rewrite length_map; assumption|].
    apply Forall_map_impl with (P := Shape2 1 (mem_size self)); [|assumption].
    intros m Hm'. unfold Shape1. rewrite (flatten_2_length Hm'), Iin. lia. }
  destruct (@linear3_total _ _ (memory_gate_projector self) B (mem_slots self)
              (map3 stanh memory)) as [gm [Hgm Sgm]].
  { rewrite Min. apply Shape3_map3. assumption. }
  rewrite Iout in Sgi. rewrite Mout in Sgm.
  destruct (bop3_rows_broadcast_spec s0 sadd Sgm (unsqueeze1_shape Sgi))
    as [gates [Hgates [Sg Eg]]].
  rewrite (wf_num_gates wf) in Sg, Eg. fold (gate_size self) in Sg, Eg.
  exists gi, gm.
  unfold create_gates, of_rank.
  rewrite (Shape3_dim1 Hx) by assumption. cbn [Nat.ltb Nat.leb].
  rewrite Hgi. cbn [bind]. rewrite Hgm. cbn [bind]. rewrite Hgates. cbn [bind].
  unfold split_dim2. rewrite (Shape3_dim2 Sg) by assumption.
  replace (2 * gate_size self / 2) with (gate_size self)
    by (rewrite Nat.mul_comm, Nat.div_mul; lia).
  destruct (Nat.eqb_spec (gate_size self) 0); [lia|].
  replace ((2 * gate_size self + gate_size self - 1) / gate_size self) with 2
    by (apply (Nat.div_unique _ _ _ (gate_size self - 1)); lia).
  cbn [Nat.max seq map bind unpack2].
  set (G := gate_size self) in *.
  assert (Si : Shape3 B (mem_slots self) G
                 (map (map (fun r : list F => firstn G (skipn (0 * G) r))) gates)).
  { eapply Shape3_map_rows; [|exact Sg]. intros r Hr.
    rewrite length_firstn, length_skipn. lia. }
  assert (Sf : Shape3 B (mem_slots self) G
                 (map (map (fun r : list F => firstn G (skipn (1 * G) r))) gates)).
  { eapply Shape3_map_rows; [|exact Sg]. intros r Hr.
    rewrite length_firstn, length_skipn. lia. }
  rewrite (Shape3_dim2 Si), (Shape3_dim2 Sf), Nat.eqb_refl by assumption.
  cbn [negb]. do 2 eexists. split; [reflexivity|]. split; [reflexivity|].
  split; [reflexivity|].
  intros b s j Hb Hs Hj.
  assert (Hrows : Forall (fun m : list (list F) => length m = mem_slots self) gates).
  { destruct Sg as [_ Sg']. eapply Forall_impl; [|exact Sg'].
    intros m [Hml _]. exact Hml. }
  assert (Hgi_b : get3 s0 (unsqueeze1 gi) b 0 = fun c => nth c (nth b gi []) s0).
  { unfold get3, unsqueeze1.
    rewrite (nth_map_in [] [] (fun r : list F => [r])) by (destruct Sgi; lia).
    reflexivity. }
  split.
  - rewrite (get3_map3 s0 s0 _ Si Hb Hs Hj).
    rewrite (get3_map_rows s0 s0 _ (d1 := mem_slots self) j (proj1 Sg) Hrows Hb Hs).
    rewrite nth_firstn. destruct (Nat.ltb_spec j G); [|lia].
    rewrite nth_skipn. cbn [Nat.mul Nat.add].
    change (nth j (nth s (nth b gates []) []) s0) with (get3 s0 gates b s j).
    rewrite Eg by lia. rewrite Hgi_b. reflexivity.
  - rewrite (get3_map3 s0 s0 _ Sf Hb Hs Hj).
    rewrite (get3_map_rows s0 s0 _ (d1 := mem_slots self) j (proj1 Sg) Hrows Hb Hs).
    rewrite nth_firstn. destruct (Nat.ltb_spec j G); [|lia].
    rewrite nth_skipn. rewrite Nat.mul_1_l.
    change (nth (G + j) (nth s (nth b gates []) []) s0)
      with (get3 s0 gates b s (G + j)).
    rewrite Eg by lia. rewrite Hgi_b. reflexivity.
Qed.

(** X16. With gating disabled the gate projections have width 0, the split
    yields one piece, and [create_gates] fails to unpack it into two. *)
Theorem create_gates_without_gating (a : Args F) (i : Init F)
        (self : RelationalMemory F) (B : nat) (x : tensor F 3)
        (memory : list (list (list F))) :
  __init__ a i = Ok self ->
  gate_style self = None ->
  1 <= B -> 1 <= mem_slots self ->
  shape3 B 1 (mem_size self) x = true ->
  shape3 B (mem_slots self) (mem_size self) memory = true ->
  create_gates self (of_rank 3 x) memory =
  Raise (ValueError "not enough values to unpack (expected 2)").
Proof.
  intros Hinit Hstyle HB Hslots Hx Hm.
  pose proof (init_WellFormed _ _ Hinit) as wf.
  apply shape3_Shape3 in Hx. apply shape3_Shape3 in Hm.
  destruct (wf_input_gate_projector wf) as [Iin Iout].
  destruct (wf_memory_gate_projector wf) as [Min Mout].
  assert (Hng : num_gates self = 0).
  { rewrite (wf_num_gates wf), Hstyle. reflexivity. }
  destruct (@linear2_total _ _ (input_gate_projector self) B (map (flatten 2) x))
    as [gi [Hgi Sgi]].
  { destruct Hx as [Hl Hf]. split; [rewrite length_map; assumption|].
    apply Forall_map_impl with (P := Shape2 1 (mem_size self)); [|assumption].
    intros m Hm'. unfold Shape1. rewrite (flatten_2_length Hm'), Iin. lia. }
  destruct (@linear3_total _ _ (memory_gate_projector self) B (mem_slots self)
              (map3 stanh memory)) as [gm [Hgm Sgm]].
  { rewrite Min. apply Shape3_map3. assumption. }
  rewrite Iout, Hng in Sgi. rewrite Mout, Hng in Sgm.
  destruct (bop3_rows_broadcast sadd Sgm (unsqueeze1_shape Sgi)) as [gates [Hgates Sg]].
  unfold create_gates, of_rank.
  rewrite (Shape3_dim1 Hx) by assumption. cbn [Nat.ltb Nat.leb].
  rewrite Hgi. cbn [bind]. rewrite Hgm. cbn [bind]. rewrite Hgates. cbn [bind].
  unfold split_dim2. rewrite (Shape3_dim2 Sg) by assumption. reflexivity.
Qed.

End GateEntries.

(** ** From the seed through the driver *)

Section SeedToDriver.
Context {F : Type} `{Scalar F}.

(** X4. The seed of [initial_state] is a memory [forward] accepts: on a
    sequence of [T >= 1] inputs of width [input_size] for the same batch
    it returns a final memory of shape [B] + [state_size] and outputs of
    width [output_size], [T] of them per batch element with
    [return_all_outputs] and one without. *)
Theorem initial_state_then_forward (a : Args F) (i : Init F)
        (self : RelationalMemory F) (B T : nat) (x : tensor F 3) (tm : bool) :
  __init__ a i = Ok self ->
  1 <= B -> 1 <= T -> 1 <= head_size self -> 1 <= num_heads self ->
  (gating_enabled self = true -> 1 <= mem_slots self) ->
  shape3 B T (input_size self) x = true ->
  exists state outputs final,
    initial_state self B = Ok state /\
    forward self (of_rank 3 x) state tm = Ok (outputs, final) /\
    shape3 B (mem_slots self) (mem_size self) final = true /\
    shape3 B (if return_all_outputs self then T else 1) (output_size self) outputs
    = true.
Proof.
  intros Hinit HB HT Hh Hn Hslots Hx.
  pose proof (init_WellFormed _ _ Hinit) as wf.
  apply shape3_Shape3 in Hx.
  assert (Hstate : Shape3 B (mem_slots self) (mem_size self)
                     (repeat (identity_derived (mem_slots self) (mem_size self)) B)).
  { split; [apply repeat_length|]. apply Forall_repeat.
    apply shape2_Shape2. apply identity_derived_shape. }
  destruct (@forward_run _ _ self wf ltac:(lia) B T x _ tm HB HT
              (gate_sizes_pos wf Hh Hn Hslots) Hx Hstate)
    as (outputs & final & stacked & _ & _ & _ & Sf & Ss & _ & Sl & Hfw).
  do 3 eexists. split; [apply initial_state_eq; assumption|].
  split; [exact Hfw|]. split; [apply shape3_Shape3; assumption|].
  unfold output_size. destruct (return_all_outputs self).
  - apply shape3_Shape3. assumption.
  - apply shape3_Shape3. apply unsqueeze1_shape. assumption.
Qed.

(** X20. A core of head size 0 built without a key size cannot attend: the
    scale [key_size ** -0.5] divides by zero. *)
Theorem multihead_attention_zero_head_size (a : Args F) (i : Init F)
        (self : RelationalMemory F) (B : nat) (memory : list (list (list F))) :
  __init__ a i = Ok self ->
  a_head_size a = 0 -> a_key_size a = None ->
  shape3 B (mem_slots self + 1) (mem_size self) memory = true ->
  multihead_attention self memory = Raise ZeroDivisionError.
Proof.
  intros Hinit Hh Hk Hm. pose proof (init_WellFormed _ _ Hinit) as wf.
  destruct (init_Ok_fields _ _ Hinit) as (_ & _ & _ & _ & _ & _ & _ & Hks).
  rewrite Hk, Hh in Hks.
  apply shape3_Shape3 in Hm.
  unfold multihead_attention.
  destruct (qkv_heads_total wf Hm) as [t [Ht Hst]]. rewrite Ht. cbn [bind].
  destruct (split_qkv_total wf Hst) as [q [k [v [Hs _]]]].
  rewrite Hs. cbn [bind]. unfold q_scale. rewrite Hks. reflexivity.
Qed.

End SeedToDriver.

(** ** Batch elements do not interact *)

Lemma mapM_length {A B : Type} (f : A -> result B) (l : list A) (bs : list B) :
  mapM f l = Ok bs -> length bs = length l.
Proof.
  intros E. apply mapM_Ok in E. symmetry. eapply Forall2_length. exact E.
Qed.

Lemma mapM_app_Ok {A B : Type} (f : A -> result B) (l1 l2 : list A)
      (r1 r2 : list B) :
  mapM f l1 = Ok r1 -> mapM f l2 = Ok r2 -> mapM f (l1 ++ l2) = Ok (r1 ++ r2).
Proof.
  intros E1 E2. apply mapM_Ok. apply Forall2_app; apply mapM_Ok; assumption.
Qed.

Lemma zipM_app_Ok {A B C : Type} (e : exn) (f : A -> B -> result C)
      (a1 b1 : list A) (a2 b2 : list B) (ra rb : list C) :
  zipM e f a1 a2 = Ok ra -> zipM e f b1 b2 = Ok rb ->
  zipM e f (a1 ++ b1) (a2 ++ b2) = Ok (ra ++ rb).
Proof.
  revert a2 ra. induction a1 as [|x a1 IH]; intros [|y a2] ra Ea Eb;
    simpl in Ea; try discriminate.
  - inversion Ea. exact Eb.
  - inv_bind Ea as c Hc. inv_bind Ea as cs Hcs. inversion Ea. subst.
    cbn [app zipM]. rewrite Hc. cbn [bind]. rewrite (IH _ _ Hcs Eb). reflexivity.
Qed.

Lemma bcast_app_Ok {A B C : Type} (f : A -> B -> result C)
      (a1 b1 : list A) (a2 b2 : list B) (ra rb : list C) :
  length a1 = length a2 -> length b1 = length b2 ->
  bcast f a1 a2 = Ok ra -> bcast f b1 b2 = Ok rb ->
  bcast f (a1 ++ b1) (a2 ++ b2) = Ok (ra ++ rb).
Proof.
  intros La Lb Ea Eb. rewrite bcast_equal in Ea, Eb by assumption.
  rewrite bcast_equal by (rewrite !length_app; congruence).
  apply zipM_app_Ok; assumption.
Qed.

Lemma bcast_into_app_Ok {A B : Type} (f : A -> B -> result A)
      (a1 b1 : list A) (a2 b2 : list B) (ra rb : list A) :
  length a1 = length a2 -> length b1 = length b2 ->
  bcast_into f a1 a2 = Ok ra -> bcast_into f b1 b2 = Ok rb ->
  bcast_into f (a1 ++ b1) (a2 ++ b2) = Ok (ra ++ rb).
Proof.
  intros La Lb Ea Eb. rewrite bcast_into_equal in Ea, Eb by assumption.
  rewrite bcast_into_equal by (rewrite !length_app; congruence).
  apply zipM_app_Ok; assumption.
Qed.

Lemma map2_app {A B C : Type} (f : A -> B -> C) (a1 b1 : list A) (a2 b2 : list B) :
  length a1 = length a2 ->
  map2 f (a1 ++ b1) (a2 ++ b2) = map2 f a1 a2 ++ map2 f b1 b2.
Proof.
  revert a2. induction a1 as [|x a1 IH]; intros [|y a2] Hl; try discriminate.
  - reflexivity.
  - unfold map2 in *. cbn [app combine map]. f_equal. apply IH.
    simpl in Hl. lia.
Qed.

Lemma dim1_app {A : Type} (a b : list (list A)) :
  a <> [] -> dim1 (a ++ b) = dim1 a.
Proof. destruct a; [contradiction | reflexivity]. Qed.

Lemma Shape3_app {A : Type} (d0 d0' d1 d2 : nat) (a b : list (list (list A))) :
  Shape3 d0 d1 d2 a -> Shape3 d0' d1 d2 b -> Shape3 (d0 + d0') d1 d2 (a ++ b).
Proof.
  intros [La Fa] [Lb Fb]. split; [rewrite length_app; congruence|].
  apply Forall_app. split; assumption.
Qed.

Lemma Shape3_nonempty {A : Type} (d0 d1 d2 : nat) (a : list (list (list A))) :
  Shape3 d0 d1 d2 a -> 1 <= d0 -> a <> [].
Proof. intros [La _] Hd C. subst a. simpl in La. lia. Qed.

Section BatchAttention.
Context {F : Type} `{Scalar F}.
Variable self : RelationalMemory F.

Lemma qkv_heads_app (a b : list (list (list F)))
      (ra rb : list (list (list (list F)))) :
  a <> [] -> dim1 b = dim1 a ->
  qkv_heads self a = Ok ra -> qkv_heads self b = Ok rb ->
  qkv_heads self (a ++ b) = Ok (ra ++ rb).
Proof.
  intros Ha Hd Ea Eb. unfold qkv_heads in *.
  inv_bind Ea as la Hla. inv_bind Ea as na Hna. inv_bind Ea as va Hva.
  inv_bind Eb as lb Hlb. inv_bind Eb as nb Hnb. inv_bind Eb as vb Hvb.
  inversion Ea. inversion Eb. subst.
  unfold linear3 in *. rewrite (mapM_app_Ok _ _ _ Hla Hlb). cbn [bind].
  unfold layer_norm3 in *. rewrite (mapM_app_Ok _ _ _ Hna Hnb). cbn [bind].
  rewrite dim1_app by assumption. rewrite Hd in Hvb.
  unfold view_heads in *. rewrite (mapM_app_Ok _ _ _ Hva Hvb). cbn [bind].
  rewrite map_app. reflexivity.
Qed.

Lemma qkv_heads_length (a : list (list (list F))) (ra : list (list (list (list F)))) :
  qkv_heads self a = Ok ra -> length ra = length a.
Proof.
  intros Ea. unfold qkv_heads in Ea.
  inv_bind Ea as la Hla. inv_bind Ea as na Hna. inv_bind Ea as va Hva.
  inversion Ea. rewrite length_map.
  apply mapM_length in Hla, Hna, Hva. congruence.
Qed.

Lemma split_qkv_app (ta tb qa ka va qb kb vb : list (list (list (list F)))) :
  split_qkv self ta = Ok (qa, ka, va) -> split_qkv self tb = Ok (qb, kb, vb) ->
  split_qkv self (ta ++ tb) = Ok (qa ++ qb, ka ++ kb, va ++ vb).
Proof.
  unfold split_qkv. intros Ea Eb.
  destruct (forallb _ ta) eqn:Ca; [|discriminate].
  destruct (forallb _ tb) eqn:Cb; [|discriminate].
  rewrite forallb_app, Ca, Cb. cbn [andb].
  inversion Ea. inversion Eb. unfold map3. rewrite !map_app. reflexivity.
Qed.

Lemma split_qkv_length (t q k v : list (list (list (list F)))) :
  split_qkv self t = Ok (q, k, v) ->
  length q = length t /\ length k = length t /\ length v = length t.
Proof.
  unfold split_qkv. destruct (forallb _ t); [|discriminate].
  intros E. inversion E. unfold map3. rewrite !length_map. auto.
Qed.

Lemma attention_app (slots : nat) (qa ka va qb kb vb : list (list (list (list F))))
      (c : F) :
  length qa = length ka -> length ka = length va ->
  attention slots (qa ++ qb) (ka ++ kb) (va ++ vb) c =
  attention slots qa ka va c ++ attention slots qb kb vb c.
Proof.
  intros Lq Lk. unfold attention, map4, map3.
  rewrite !map_app.
  rewrite (map2_app (map2 matmul_nt)) by (rewrite !length_map; assumption).
  rewrite !map_app.
  rewrite (map2_app (map2 matmul))
    by (rewrite !length_map, map2_length; rewrite !length_map; congruence).
  rewrite !map_app. reflexivity.
Qed.

Lemma attention_length (slots n : nat) (q k v : list (list (list (list F)))) (c : F) :
  length q = n -> length k = n -> length v = n ->
  length (attention slots q k v c) = n.
Proof.
  intros Lq Lk Lv. unfold attention, map4, map3.
  rewrite !length_map, map2_length; rewrite !length_map, ?map2_length;
    rewrite ?length_map; congruence.
Qed.

Lemma multihead_attention_app (a b ra rb : list (list (list F))) :
  a <> [] -> dim1 b = dim1 a ->
  multihead_attention self a = Ok ra -> multihead_attention self b = Ok rb ->
  multihead_attention self (a ++ b) = Ok (ra ++ rb).
Proof.
  intros Ha Hd Ea Eb. unfold multihead_attention in *.
  inv_bind Ea as ta Hta. inv_bind Ea as sa Hsa. destruct sa as [[qa ka] va].
  inv_bind Ea as ca Hca.
  inv_bind Eb as tb Htb. inv_bind Eb as sb Hsb. destruct sb as [[qb kb] vb].
  inv_bind Eb as cb Hcb.
  inversion Ea. inversion Eb. subst.
  rewrite (@qkv_heads_app a b _ _ Ha Hd Hta Htb). cbn [bind].
  rewrite (split_qkv_app _ _ Hsa Hsb). cbn [bind]. rewrite Hca. cbn [bind].
  rewrite Hca in Hcb. inversion Hcb. subst cb.
  destruct (split_qkv_length _ Hsa) as (Lq & Lk & Lv).
  rewrite dim1_app by assumption. rewrite Hd.
  rewrite attention_app by congruence. reflexivity.
Qed.

Lemma multihead_attention_length (a ra : list (list (list F))) :
  multihead_attention self a = Ok ra -> length ra = length a.
Proof.
  intros Ea. unfold multihead_attention in Ea.
  inv_bind Ea as ta Hta. inv_bind Ea as sa Hsa. destruct sa as [[qa ka] va].
  inv_bind Ea as ca Hca. inversion Ea.
  destruct (split_qkv_length _ Hsa) as (Lq & Lk & Lv).
  pose proof (qkv_heads_length _ Hta) as Lt.
  apply attention_length; congruence.
Qed.

End BatchAttention.

Lemma zipM_length {A B C : Type} (e : exn) (f : A -> B -> result C)
      (l1 : list A) (l2 : list B) (cs : list C) :
  zipM e f l1 l2 = Ok cs -> length cs = length l1 /\ length l2 = length l1.
Proof.
  revert l2 cs. induction l1 as [|a l1 IH]; intros [|b l2] cs E; simpl in E;
    try discriminate.
  - inversion E. auto.
  - inv_bind E as c Hc. inv_bind E as cs' Hcs. inversion E. subst.
    destruct (IH _ _ Hcs) as [L1 L2]. simpl. auto.
Qed.

Lemma bop3_app_Ok {A B C : Type} (f : A -> B -> C)
      (a1 b1 : list (list (list A))) (a2 b2 : list (list (list B)))
      (ra rb : list (list (list C))) :
  length a1 = length a2 -> length b1 = length b2 ->
  bop3 f a1 a2 = Ok ra -> bop3 f b1 b2 = Ok rb ->
  bop3 f (a1 ++ b1) (a2 ++ b2) = Ok (ra ++ rb).
Proof. unfold bop3. apply bcast_app_Ok. Qed.

Lemma ibop3_app_Ok {A B : Type} (f : A -> B -> A)
      (a1 b1 : list (list (list A))) (a2 b2 : list (list (list B)))
      (ra rb : list (list (list A))) :
  length a1 = length a2 -> length b1 = length b2 ->
  ibop3 f a1 a2 = Ok ra -> ibop3 f b1 b2 = Ok rb ->
  ibop3 f (a1 ++ b1) (a2 ++ b2) = Ok (ra ++ rb).
Proof. unfold ibop3. apply bcast_into_app_Ok. Qed.

Lemma bop3_length {A B C : Type} (f : A -> B -> C)
      (a1 : list (list (list A))) (a2 : list (list (list B)))
      (r : list (list (list C))) :
  length a1 = length a2 -> bop3 f a1 a2 = Ok r -> length r = length a1.
Proof.
  intros Hl E. unfold bop3 in E. rewrite bcast_equal in E by assumption.
  apply zipM_length in E. apply E.
Qed.

Section BatchAttend.
Context {F : Type} `{Scalar F}.
Variable self : RelationalMemory F.

Lemma mlp_app (layers : list (Linear F)) (a b ra rb : list (list (list F))) :
  foldM (fun x l => y <- linear3 l x ;; Ok (map3 srelu y)) a layers = Ok ra ->
  foldM (fun x l => y <- linear3 l x ;; Ok (map3 srelu y)) b layers = Ok rb ->
  foldM (fun x l => y <- linear3 l x ;; Ok (map3 srelu y)) (a ++ b) layers
  = Ok (ra ++ rb).
Proof.
  revert a b. induction layers as [|l layers IH]; intros a b Ea Eb; simpl in *.
  - inversion Ea. inversion Eb. reflexivity.
  - inv_bind Ea as xa Hxa. inv_bind Hxa as ya Hya. inversion Hxa. subst xa.
    inv_bind Eb as xb Hxb. inv_bind Hxb as yb Hyb. inversion Hxb. subst xb.
    unfold linear3 in *. rewrite (mapM_app_Ok _ _ _ Hya Hyb). cbn [bind].
    unfold map3 in *. rewrite map_app. apply IH; assumption.
Qed.

Lemma mlp_length (layers : list (Linear F)) (a ra : list (list (list F))) :
  foldM (fun x l => y <- linear3 l x ;; Ok (map3 srelu y)) a layers = Ok ra ->
  length ra = length a.
Proof.
  revert a. induction layers as [|l layers IH]; intros a Ea; simpl in *.
  - inversion Ea. reflexivity.
  - inv_bind Ea as xa Hxa. inv_bind Hxa as ya Hya. inversion Hxa. subst xa.
    rewrite (IH _ Ea). unfold map3. rewrite length_map.
    apply (@mapM_length _ _ _ _ _ Hya).
Qed.

Lemma layer_norm3_dim1 (ln : LayerNorm F) (t y : list (list (list F))) :
  layer_norm3 ln t = Ok y -> y <> [] -> dim1 y = fst (normalized_shape ln).
Proof.
  intros E Hy. unfold layer_norm3 in E. apply mapM_Ok in E.
  destruct E as [|m m' t y Hm _]; [contradiction|].
  unfold layer_norm in Hm.
  destruct (shape2 _ _ m) eqn:Hs; [|discriminate]. inversion Hm.
  apply shape2_Shape2 in Hs.
  destruct (normalize_shape ln Hs) as [Hl _]. exact Hl.
Qed.

Lemma attend_block_app (a b ra rb : list (list (list F))) :
  a <> [] -> dim1 b = dim1 a ->
  attend_block self a = Ok ra -> attend_block self b = Ok rb ->
  attend_block self (a ++ b) = Ok (ra ++ rb) /\
  length ra = length a /\ length rb = length b /\
  (b <> [] -> dim1 rb = dim1 ra).
Proof.
  intros Ha Hd Ea Eb. unfold attend_block in *.
  inv_bind Ea as ata Hata. inv_bind Ea as sa Hsa. inv_bind Ea as ma Hma.
  inv_bind Ea as pa Hpa. inv_bind Ea as ua Hua.
  inv_bind Eb as atb Hatb. inv_bind Eb as sb Hsb. inv_bind Eb as mb Hmb.
  inv_bind Eb as pb Hpb. inv_bind Eb as ub Hub.
  pose proof (@multihead_attention_length _ _ self _ _ Hata) as Lata.
  pose proof (@multihead_attention_length _ _ self _ _ Hatb) as Latb.
  pose proof (@bop3_length _ _ _ _ _ _ _ (eq_sym Lata) Hsa) as Lsa.
  pose proof (@bop3_length _ _ _ _ _ _ _ (eq_sym Latb) Hsb) as Lsb.
  pose proof (@mapM_length _ _ _ _ _ Hma) as Lma. pose proof (@mapM_length _ _ _ _ _ Hmb) as Lmb.
  pose proof (@mlp_length _ _ _ Hpa) as Lpa. pose proof (@mlp_length _ _ _ Hpb) as Lpb.
  pose proof (@bop3_length _ _ _ _ _ _ _ (eq_sym Lpa) Hua) as Lua.
  pose proof (@bop3_length _ _ _ _ _ _ _ (eq_sym Lpb) Hub) as Lub.
  pose proof (@mapM_length _ _ _ _ _ Ea) as Lra. pose proof (@mapM_length _ _ _ _ _ Eb) as Lrb.
  split; [|split; [congruence|split; [congruence|]]].
  - rewrite (@multihead_attention_app _ _ self _ _ _ _ Ha Hd Hata Hatb). cbn [bind].
    rewrite (@bop3_app_Ok _ _ _ _ _ _ _ _ _ _ (eq_sym Lata) (eq_sym Latb) Hsa Hsb).
    cbn [bind].
    unfold layer_norm3 in *.
    rewrite (@mapM_app_Ok _ _ _ _ _ _ _ Hma Hmb). cbn [bind].
    rewrite (@mlp_app _ _ _ _ _ Hpa Hpb). cbn [bind].
    rewrite (@bop3_app_Ok _ _ _ _ _ _ _ _ _ _ (eq_sym Lpa) (eq_sym Lpb) Hua Hub).
    cbn [bind].
    apply mapM_app_Ok; assumption.
  - intros Hb.
    assert (Hra : ra <> []).
    { intros C. subst ra. destruct a; [contradiction|]. simpl in *. lia. }
    assert (Hrb : rb <> []).
    { intros C. subst rb. destruct b; [contradiction|]. simpl in *. lia. }
    rewrite (@layer_norm3_dim1 _ _ _ Ea Hra), (@layer_norm3_dim1 _ _ _ Eb Hrb).
    reflexivity.
Qed.

Lemma attend_over_memory_app (a b ra rb : list (list (list F))) :
  a <> [] -> b <> [] -> dim1 b = dim1 a ->
  attend_over_memory self a = Ok ra -> attend_over_memory self b = Ok rb ->
  attend_over_memory self (a ++ b) = Ok (ra ++ rb).
Proof.
  unfold attend_over_memory. generalize (Z.to_nat (num_blocks self)) as n.
  intros n. revert a b. induction n as [|n IH]; intros a b Ha Hb Hd Ea Eb;
    cbn [iterM] in *.
  - inversion Ea. inversion Eb. reflexivity.
  - inv_bind Ea as a' Ha'. inv_bind Eb as b' Hb'.
    destruct (@attend_block_app _ _ _ _ Ha Hd Ha' Hb') as (Happ & La & Lb & Hd').
    rewrite Happ. cbn [bind]. apply IH; try assumption.
    + intros C. subst a'. destruct a; [contradiction | discriminate].
    + intros C. subst b'. destruct b; [contradiction | discriminate].
    + apply Hd'. assumption.
Qed.

End BatchAttend.

Ltac same_result E E' :=
  let X := fresh in
  pose proof (eq_trans (eq_sym E) E') as X; inversion X; clear X.

Section BatchStep.
Context {F : Type} `{Scalar F}.
Variable self : RelationalMemory F.
Hypothesis wf : WellFormed self.
Hypothesis head_size_pos : head_size self <> 0.

(** [create_gates] on well-shaped arguments, spelled out. *)
Lemma create_gates_run (d0 : nat) (x : tensor F 3) (memory : list (list (list F))) :
  gating_enabled self = true ->
  1 <= mem_size self -> 1 <= d0 -> 1 <= mem_slots self ->
  Shape3 d0 1 (mem_size self) x ->
  Shape3 d0 (mem_slots self) (mem_size self) memory ->
  exists gi gm gates,
    linear2 (input_gate_projector self) (map (flatten 2) x) = Ok gi /\
    linear3 (memory_gate_projector self) (map3 stanh memory) = Ok gm /\
    bop3 sadd gm (unsqueeze1 gi) = Ok gates /\
    length gi = d0 /\ length gm = d0 /\ length gates = d0 /\
    create_gates self (of_rank 3 x) memory =
    Ok (map3 (fun v => ssigmoid (sadd v (input_bias self)))
             (map (map (fun r : list F =>
                          firstn (gate_size self) (skipn (0 * gate_size self) r)))
                  gates),
        map3 (fun v => ssigmoid (sadd v (forget_bias self)))
             (map (map (fun r : list F =>
                          firstn (gate_size self) (skipn (1 * gate_size self) r)))
                  gates)).
Proof.
  intros Hg HW Hd Hslots Hx Hm.
  assert (Hgs : 1 <= gate_size self).
  { destruct (gate_size_cases self Hg) as [[_ E]|[_ E]]; rewrite E; lia. }
  destruct (wf_input_gate_projector wf) as [Iin Iout].
  destruct (wf_memory_gate_projector wf) as [Min Mout].
  destruct (@linear2_total _ _ (input_gate_projector self) d0 (map (flatten 2) x))
    as [gi [Hgi Sgi]].
  { destruct Hx as [Hl Hf]. split; [rewrite length_map; assumption|].
    apply Forall_map_impl with (P := Shape2 1 (mem_size self)); [|assumption].
    intros m Hm'. unfold Shape1. rewrite (flatten_2_length Hm'), Iin. lia. }
  destruct (@linear3_total _ _ (memory_gate_projector self) d0 (mem_slots self)
              (map3 stanh memory)) as [gm [Hgm Sgm]].
  { rewrite Min. apply Shape3_map3. assumption. }
  rewrite Iout in Sgi. rewrite Mout in Sgm.
  destruct (bop3_rows_broadcast sadd Sgm (unsqueeze1_shape Sgi)) as [gates [Hgates Sg]].
  rewrite (wf_num_gates wf) in Sg. fold (gate_size self) in Sg.
  exists gi, gm, gates. repeat (split; [assumption|]).
  split; [exact (proj1 Sgi)|]. split; [exact (proj1 Sgm)|]. split; [exact (proj1 Sg)|].
  unfold create_gates, of_rank.
  rewrite (Shape3_dim1 Hx) by assumption. cbn [Nat.ltb Nat.leb].
  rewrite Hgi. cbn [bind]. rewrite Hgm. cbn [bind]. rewrite Hgates. cbn [bind].
  unfold split_dim2. rewrite (Shape3_dim2 Sg) by assumption.
  replace (2 * gate_size self / 2) with (gate_size self)
    by (rewrite Nat.mul_comm, Nat.div_mul; lia).
  destruct (Nat.eqb_spec (gate_size self) 0); [lia|].
  replace ((2 * gate_size self + gate_size self - 1) / gate_size self) with 2
    by (apply (Nat.div_unique _ _ _ (gate_size self - 1)); lia).
  cbn [Nat.max seq map bind unpack2].
  set (G := gate_size self) in *.
  assert (Si : Shape3 d0 (mem_slots self) G
                 (map (map (fun r : list F => firstn G (skipn (0 * G) r))) gates)).
  { eapply Shape3_map_rows; [|exact Sg]. intros r Hr.
    rewrite length_firstn, length_skipn. lia. }
  assert (Sf : Shape3 d0 (mem_slots self) G
                 (map (map (fun r : list F => firstn G (skipn (1 * G) r))) gates)).
  { eapply Shape3_map_rows; [|exact Sg]. intros r Hr.
    rewrite length_firstn, length_skipn. lia. }
  rewrite (Shape3_dim2 Si), (Shape3_dim2 Sf), Nat.eqb_refl by assumption.
  reflexivity.
Qed.

Lemma create_gates_app (da db : nat) (xa xb : tensor F 3)
      (ma mb : list (list (list F))) :
  gating_enabled self = true ->
  1 <= mem_size self -> 1 <= da -> 1 <= db -> 1 <= mem_slots self ->
  Shape3 da 1 (mem_size self) xa -> Shape3 db 1 (mem_size self) xb ->
  Shape3 da (mem_slots self) (mem_size self) ma ->
  Shape3 db (mem_slots self) (mem_size self) mb ->
  exists iga fga igb fgb,
    create_gates self (of_rank 3 xa) ma = Ok (iga, fga) /\
    create_gates self (of_rank 3 xb) mb = Ok (igb, fgb) /\
    create_gates self (of_rank 3 (xa ++ xb)) (ma ++ mb) =
    Ok (iga ++ igb, fga ++ fgb) /\
    length iga = da /\ length fga = da /\ length igb = db /\ length fgb = db.
Proof.
  intros Hg HW Ha Hb Hslots Sxa Sxb Sma Smb.
  destruct (create_gates_run Hg HW Ha Hslots Sxa Sma)
    as (gia & gma & gta & Hgia & Hgma & Hgta & Lgia & Lgma & Lgta & Ea).
  destruct (create_gates_run Hg HW Hb Hslots Sxb Smb)
    as (gib & gmb & gtb & Hgib & Hgmb & Hgtb & Lgib & Lgmb & Lgtb & Eb).
  assert (Hab : 1 <= da + db) by lia.
  destruct (create_gates_run Hg HW Hab Hslots (Shape3_app Sxa Sxb) (Shape3_app Sma Smb))
    as (gi & gm & gt & Hgi & Hgm & Hgt & _ & _ & _ & E).
  rewrite map_app in Hgi. unfold linear2 in *.
  pose proof (@mapM_app_Ok _ _ _ _ _ _ _ Hgia Hgib) as Hgi'. same_result Hgi Hgi'. subst gi.
  unfold map3 in Hgm. rewrite map_app in Hgm. unfold linear3, map3 in *.
  pose proof (@mapM_app_Ok _ _ _ _ _ _ _ Hgma Hgmb) as Hgm'. same_result Hgm Hgm'. subst gm.
  unfold unsqueeze1 in Hgt. rewrite map_app in Hgt.
  assert (Hgt' : bop3 sadd (gma ++ gmb) (map (fun r => [r]) gia ++ map (fun r => [r]) gib)
                 = Ok (gta ++ gtb)).
  { apply bop3_app_Ok; try assumption; rewrite length_map; congruence. }
  same_result Hgt Hgt'. subst gt.
  rewrite Ea, Eb, E. do 4 eexists.
  split; [reflexivity|]. split; [reflexivity|].
  split; [rewrite !map_app; reflexivity|].
  rewrite !length_map. auto.
Qed.

Lemma project_input_app (xa xb : tensor F 2) (ia ib : list (list (list F))) :
  project_input self (of_rank 2 xa) false = Ok ia ->
  project_input self (of_rank 2 xb) false = Ok ib ->
  project_input self (of_rank 2 (xa ++ xb)) false = Ok (ia ++ ib).
Proof.
  unfold project_input, of_rank. intros Ea Eb.
  inv_bind Ea as ya Hya. inv_bind Eb as yb Hyb. inversion Ea. inversion Eb.
  rewrite map_app. unfold linear2 in *.
  apply bind_Ok. exists (ya ++ yb).
  split; [exact (@mapM_app_Ok _ _ _ _ _ _ _ Hya Hyb)|].
  unfold unsqueeze1. rewrite map_app. reflexivity.
Qed.

(** A step on two batches laid end to end is the two steps' results laid
    end to end. *)
Lemma forward_step_app (da db : nat) (xa xb : tensor F 2)
      (ma mb : list (list (list F))) :
  1 <= da -> 1 <= db ->
  (gating_enabled self = true -> 1 <= mem_slots self /\ 1 <= mem_size self) ->
  Shape2 da (input_size self) xa -> Shape2 db (input_size self) xb ->
  Shape3 da (mem_slots self) (mem_size self) ma ->
  Shape3 db (mem_slots self) (mem_size self) mb ->
  exists oa na ob nb,
    forward_step self (of_rank 2 xa) ma false = Ok (oa, na) /\
    forward_step self (of_rank 2 xb) mb false = Ok (ob, nb) /\
    forward_step self (of_rank 2 (xa ++ xb)) (ma ++ mb) false =
    Ok (oa ++ ob, na ++ nb) /\
    Shape3 da (mem_slots self) (mem_size self) na /\
    Shape3 db (mem_slots self) (mem_size self) nb.
Proof.
  intros Ha Hb Hgate Sxa Sxb Sma Smb.
  destruct (project_input_vector wf Sxa) as [ia [Hia Sia]].
  destruct (project_input_vector wf Sxb) as [ib [Hib Sib]].
  destruct (forward_step_run wf head_size_pos (of_rank 2 xa) false Ha Hgate Hia Sia Sma)
    as (pa & ata & Hca & Hata & Sata & Sta & Hoffa & Hona).
  destruct (forward_step_run wf head_size_pos (of_rank 2 xb) false Hb Hgate Hib Sib Smb)
    as (pb & atb & Hcb & Hatb & Satb & Stb & Hoffb & Honb).
  destruct (cat_dim1_total Sma Sia) as [pa' [Hca' [Spa _]]]. same_result Hca Hca'. subst pa'.
  destruct (cat_dim1_total Smb Sib) as [pb' [Hcb' [Spb _]]]. same_result Hcb Hcb'. subst pb'.
  assert (Hpa : pa <> []) by (apply (Shape3_nonempty Spa); assumption).
  assert (Hpb : pb <> []) by (apply (Shape3_nonempty Spb); assumption).
  assert (Hdp : dim1 pb = dim1 pa).
  { rewrite (Shape3_dim1 Spa), (Shape3_dim1 Spb) by assumption. reflexivity. }
  pose proof (@attend_over_memory_app _ _ self _ _ _ _ Hpa Hpb Hdp Hata Hatb) as Hatt.
  assert (Hwhole :
      forward_step self (of_rank 2 (xa ++ xb)) (ma ++ mb) false =
      (next_memory <-
         (if gating_enabled self then
            '(input_gate, forget_gate) <-
              create_gates self (of_rank 3 (ia ++ ib)) (ma ++ mb) ;;
            next_memory <- bop3 smul input_gate
                             (map3 stanh (map (firstn (mem_slots self)) (ata ++ atb))) ;;
            gated <- bop3 smul forget_gate (ma ++ mb) ;;
            ibop3 sadd next_memory gated
          else Ok (map (firstn (mem_slots self)) (ata ++ atb))) ;;
       Ok (map (flatten 2) next_memory, next_memory))).
  { unfold forward_step.
    rewrite (project_input_app _ _ Hia Hib). cbn [bind].
    unfold cat_dim1 in *. rewrite (@zipM_app_Ok _ _ _ _ _ _ _ _ _ _ _ Hca Hcb).
    cbn [bind]. rewrite Hatt. cbn [bind].
    rewrite dim1_app by (apply (Shape3_nonempty Sia); assumption).
    rewrite (Shape3_dim1 Sia) by assumption.
    assert (Sat : Shape3 (da + db) (mem_slots self + 1) (mem_size self) (ata ++ atb))
      by (apply Shape3_app; assumption).
    rewrite (proj1 (truncate_rows self head_size_pos Sat)). reflexivity. }
  rewrite Hwhole. clear Hwhole.
  destruct (gating_enabled self) eqn:Hg.
  - destruct (Hgate eq_refl) as [Hslots HW].
    destruct (Hona eq_refl) as (iga & fga & na & Hga & Siga & Sfga & Hsa & Sna & _).
    destruct (Honb eq_refl) as (igb & fgb & nb & Hgb & Sigb & Sfgb & Hsb & Snb & _).
    destruct (create_gates_app Hg HW Ha Hb Hslots Sia Sib Sma Smb)
      as (iga' & fga' & igb' & fgb' & Hga' & Hgb' & Hgab & _).
    same_result Hga Hga'. subst iga' fga'.
    same_result Hgb Hgb'. subst igb' fgb'.
    exists (map (flatten 2) na), na, (map (flatten 2) nb), nb.
    split; [assumption|]. split; [assumption|].
    split; [|split; assumption].
    rewrite Hgab. cbn [bind].
    unfold forward_step in Hsa, Hsb.
    rewrite Hia in Hsa. rewrite Hib in Hsb. cbn [bind] in Hsa, Hsb.
    rewrite Hca in Hsa. rewrite Hcb in Hsb. cbn [bind] in Hsa, Hsb.
    rewrite Hata in Hsa. rewrite Hatb in Hsb. cbn [bind] in Hsa, Hsb.
    rewrite Hg, Hga in Hsa. rewrite Hg, Hgb in Hsb. cbn [bind] in Hsa, Hsb.
    rewrite (Shape3_dim1 Sia) in Hsa by assumption.
    rewrite (Shape3_dim1 Sib) in Hsb by assumption.
    rewrite (proj1 (truncate_rows self head_size_pos Sata)) in Hsa.
    rewrite (proj1 (truncate_rows self head_size_pos Satb)) in Hsb.
    inv_bind Hsa as nma Hnma. inv_bind Hnma as prodA HprodA.
    inv_bind Hnma as gatedA HgatedA.
    inv_bind Hsb as nmb Hnmb. inv_bind Hnmb as prodB HprodB.
    inv_bind Hnmb as gatedB HgatedB.
    inversion Hsa. inversion Hsb. subst nma nmb. clear Hsa Hsb.
    pose proof (proj1 Siga) as Liga. pose proof (proj1 Sigb) as Ligb.
    pose proof (proj1 Sfga) as Lfga. pose proof (proj1 Sfgb) as Lfgb.
    pose proof (proj1 Sta) as Lta. pose proof (proj1 Stb) as Ltb.
    pose proof (proj1 Sma) as Lma. pose proof (proj1 Smb) as Lmb.
    assert (LtA : length iga =
                  length (map3 stanh (map (firstn (mem_slots self)) ata)))
      by (unfold map3; rewrite length_map; congruence).
    assert (LtB : length igb =
                  length (map3 stanh (map (firstn (mem_slots self)) atb)))
      by (unfold map3; rewrite length_map; congruence).
    assert (LfA : length fga = length ma) by congruence.
    assert (LfB : length fgb = length mb) by congruence.
    pose proof (@bop3_length _ _ _ _ _ _ _ LtA HprodA) as LpA.
    pose proof (@bop3_length _ _ _ _ _ _ _ LtB HprodB) as LpB.
    pose proof (@bop3_length _ _ _ _ _ _ _ LfA HgatedA) as LgA.
    pose proof (@bop3_length _ _ _ _ _ _ _ LfB HgatedB) as LgB.
    assert (X : map3 stanh (map (firstn (mem_slots self)) (ata ++ atb)) =
                map3 stanh (map (firstn (mem_slots self)) ata) ++
                map3 stanh (map (firstn (mem_slots self)) atb))
      by (unfold map3; rewrite !map_app; reflexivity).
    rewrite X.
    rewrite (@bop3_app_Ok _ _ _ smul _ _ _ _ _ _ LtA LtB HprodA HprodB).
    cbn [bind].
    rewrite (@bop3_app_Ok _ _ _ smul _ _ _ _ _ _ LfA LfB HgatedA HgatedB).
    cbn [bind].
    rewrite (@ibop3_app_Ok _ _ sadd prodA prodB gatedA gatedB na nb);
      try assumption; try congruence.
    cbn [bind]. rewrite map_app. reflexivity.
  - exists (map (flatten 2) (map (firstn (mem_slots self)) ata)),
           (map (firstn (mem_slots self)) ata),
           (map (flatten 2) (map (firstn (mem_slots self)) atb)),
           (map (firstn (mem_slots self)) atb).
    split; [apply Hoffa; reflexivity|]. split; [apply Hoffb; reflexivity|].
    split; [|split; assumption].
    cbn [bind]. rewrite !map_app. reflexivity.
Qed.

End BatchStep.

Section BatchClaims.
Context {F : Type} `{Scalar F}.

(** X19. Attention looks at one batch element at a time: on two batches laid
    end to end it returns the two results laid end to end. *)
Theorem multihead_attention_batch (a : Args F) (i : Init F)
        (self : RelationalMemory F) (Ba Bb : nat) (ma mb : list (list (list F))) :
  __init__ a i = Ok self ->
  1 <= Ba -> 1 <= Bb -> 1 <= head_size self ->
  shape3 Ba (mem_slots self + 1) (mem_size self) ma = true ->
  shape3 Bb (mem_slots self + 1) (mem_size self) mb = true ->
  exists ra rb,
    multihead_attention self ma = Ok ra /\
    multihead_attention self mb = Ok rb /\
    multihead_attention self (ma ++ mb) = Ok (ra ++ rb).
Proof.
  intros Hinit Ha Hb Hh Sa Sb. pose proof (init_WellFormed _ _ Hinit) as wf.
  apply shape3_Shape3 in Sa. apply shape3_Shape3 in Sb.
  assert (Hhp : head_size self <> 0) by lia.
  destruct (multihead_attention_total wf Hhp Sa) as [ra [Hra _]].
  destruct (multihead_attention_total wf Hhp Sb) as [rb [Hrb _]].
  exists ra, rb. split; [assumption|]. split; [assumption|].
  apply multihead_attention_app; try assumption.
  - apply (Shape3_nonempty Sa). assumption.
  - rewrite (Shape3_dim1 Sa), (Shape3_dim1 Sb) by assumption. reflexivity.
Qed.

(** X13. A step treats the batch elements independently: on two batches
    laid end to end it returns the two steps' outputs and next memories
    laid end to end, so what a batch element gets depends on its own input
    and memory alone. *)
Theorem forward_step_batch (a : Args F) (i : Init F) (self : RelationalMemory F)
        (Ba Bb : nat) (xa xb : tensor F 2) (ma mb : list (list (list F))) :
  __init__ a i = Ok self ->
  1 <= Ba -> 1 <= Bb -> 1 <= head_size self -> 1 <= num_heads self ->
  (gating_enabled self = true -> 1 <= mem_slots self) ->
  shape2 Ba (input_size self) xa = true ->
  shape2 Bb (input_size self) xb = true ->
  shape3 Ba (mem_slots self) (mem_size self) ma = true ->
  shape3 Bb (mem_slots self) (mem_size self) mb = true ->
  exists oa na ob nb,
    forward_step self (of_rank 2 xa) ma false = Ok (oa, na) /\
    forward_step self (of_rank 2 xb) mb false = Ok (ob, nb) /\
    forward_step self (of_rank 2 (xa ++ xb)) (ma ++ mb) false =
    Ok (oa ++ ob, na ++ nb).
Proof.
  intros Hinit Ha Hb Hh Hn Hslots Sxa Sxb Sma Smb.
  pose proof (init_WellFormed _ _ Hinit) as wf.
  apply shape2_Shape2 in Sxa. apply shape2_Shape2 in Sxb.
  apply shape3_Shape3 in Sma. apply shape3_Shape3 in Smb.
  assert (Hhp : head_size self <> 0) by lia.
  destruct (forward_step_app wf Hhp Ha Hb (gate_sizes_pos wf Hh Hn Hslots)
              Sxa Sxb Sma Smb) as (oa & na & ob & nb & Ea & Eb & Eab & _).
  exists oa, na, ob, nb. auto.
Qed.

End BatchClaims.

(** ** Concrete runs of the further properties *)

Lemma forward_step_single_row_witness :
  exists self,
    __init__ (example_args (Some "unit"%string) None) example_init = Ok self /\
    forward_step self (of_rank 3 (example_tensor 2 1 4)) (example_tensor 2 1 4) true =
    forward_step self (of_rank 2 (repeat (repeat (TConst 2) 4) 2))
                 (example_tensor 2 1 4) false.
Proof.
  eexists. split; [reflexivity|].
  apply (@forward_step_single_row term _ _ (example_tensor 2 1 4)).
  repeat constructor.
Defined.

Lemma forward_step_rejects_mismatch_witness :
  exists self,
    __init__ (example_args (Some "unit"%string) None) example_init = Ok self /\
    forward_step self (of_rank 2 (repeat (repeat (TConst 2) 4) 2))
                 (example_tensor 3 1 4) false = Raise cat_mismatch.
Proof.
  eexists. split; [reflexivity|].
  apply (proj1 (@forward_step_rejects_mismatch term _
                  (example_args (Some "unit"%string) None) example_init _ 2
                  (repeat (repeat (TConst 2) 4) 2) (example_tensor 3 1 4) eq_refl)).
  - reflexivity.
  - simpl. lia.
Defined.

Lemma forward_step_sizes_witness :
  exists self output next_memory,
    __init__ (example_args (Some "unit"%string) None) example_init = Ok self /\
    forward_step self (of_rank 2 (repeat (repeat (TConst 2) 4) 2))
                 (example_tensor 2 1 4) false = Ok (output, next_memory) /\
    shape2 2 4 output = true.
Proof.
  eexists.
  destruct (@forward_step_sizes term _
              (example_args (Some "unit"%string) None) example_init _ 2
              (repeat (repeat (TConst 2) 4) 2) (example_tensor 2 1 4) eq_refl)
    as (output & nm & Hstep & _ & So & _);
    try reflexivity; try (simpl; lia).
  exists output, nm. split; [reflexivity|]. split; [exact Hstep | exact So].
Defined.

Lemma attend_over_memory_shape_witness :
  exists self out,
    __init__ (example_args (Some "unit"%string) None) example_init = Ok self /\
    attend_over_memory self (example_tensor 2 2 4) = Ok out /\
    shape3 2 2 4 out = true.
Proof.
  eexists.
  destruct (@attend_over_memory_shape term _
              (example_args (Some "unit"%string) None) example_init _ 2
              (example_tensor 2 2 4) eq_refl) as (out & Hout & So);
    try reflexivity; try (simpl; lia).
  exists out. split; [reflexivity|]. split; [exact Hout | exact So].
Defined.

Lemma forward_step_matrix_rows_witness :
  exists self msg,
    __init__ (example_args (Some "unit"%string) None) example_init = Ok self /\
    forward_step self (of_rank 3 (example_tensor 2 3 4)) (example_tensor 2 1 4) true =
    Raise (RuntimeError msg).
Proof.
  eexists.
  destruct (@forward_step_matrix_rows term _
              (example_args (Some "unit"%string) None) example_init _ 2 3
              (example_tensor 2 3 4) (example_tensor 2 1 4) eq_refl) as (msg & Hmsg);
    try reflexivity; try lia.
  exists msg. split; [reflexivity | exact Hmsg].
Defined.

Lemma forward_last_of_all_witness :
  exists self stacked single final,
    __init__ (example_args (Some "unit"%string) None) example_init = Ok self /\
    forward (set_return_all_outputs false self) (of_rank 3 (example_tensor 2 3 4))
            (example_tensor 2 1 4) false = Ok (single, final) /\
    forward (set_return_all_outputs true self) (of_rank 3 (example_tensor 2 3 4))
            (example_tensor 2 1 4) false = Ok (stacked, final) /\
    single = map (fun row => [last row []]) stacked.
Proof.
  eexists.
  destruct (@forward_last_of_all term _
              (example_args (Some "unit"%string) None) example_init _ 2 3
              (example_tensor 2 3 4) (example_tensor 2 1 4) false eq_refl)
    as (stacked & single & final & Hall & Hone & Hlast);
    try reflexivity; try (simpl; lia).
  exists stacked, single, final.
  split; [reflexivity|]. split; [exact Hone|]. split; [exact Hall | exact Hlast].
Defined.

Lemma forward_in_two_pieces_witness :
  exists self o1 m1 o2 m2 x,
    __init__ (example_args (Some "unit"%string) None) example_init = Ok self /\
    forward self (of_rank 3 (example_tensor 2 2 4)) (example_tensor 2 1 4) false
    = Ok (o1, m1) /\
    forward self (of_rank 3 (example_tensor 2 1 4)) m1 false = Ok (o2, m2) /\
    cat_dim1 (example_tensor 2 2 4) (example_tensor 2 1 4) = Ok x /\
    forward self (of_rank 3 x) (example_tensor 2 1 4) false = Ok (o2, m2).
Proof.
  eexists.
  destruct (@forward_in_two_pieces term _
              (example_args (Some "unit"%string) None) example_init _ 2 2 1
              (example_tensor 2 2 4) (example_tensor 2 1 4) (example_tensor 2 1 4)
              false eq_refl)
    as (o1 & m1 & o2 & m2 & x & o & H1 & H2 & Hx & Hw & Ho);
    try reflexivity; try (simpl; lia).
  simpl in Ho. subst o.
  exists o1, m1, o2, m2, x.
  split; [reflexivity|]. split; [exact H1|]. split; [exact H2|].
  split; [exact Hx | exact Hw].
Defined.

Lemma create_gates_entries_witness :
  exists self input_gate forget_gate,
    __init__ (example_args (Some "memory"%string) None) example_init = Ok self /\
    create_gates self (of_rank 3 (example_tensor 2 1 4)) (example_tensor 2 1 4) =
    Ok (input_gate, forget_gate).
Proof.
  eexists.
  destruct (@create_gates_entries term _
              (example_args (Some "memory"%string) None) example_init _ 2
              (example_tensor 2 1 4) (example_tensor 2 1 4) eq_refl)
    as (gi & gm & ig & fg & _ & _ & Hcg & _);
    try reflexivity; try (simpl; lia).
  exists ig, fg. split; [reflexivity | exact Hcg].
Defined.

Lemma create_gates_without_gating_witness :
  exists self,
    __init__ (example_args None None) example_init = Ok self /\
    create_gates self (of_rank 3 (example_tensor 2 1 4)) (example_tensor 2 1 4) =
    Raise (ValueError "not enough values to unpack (expected 2)").
Proof.
  eexists. split; [reflexivity|].
  apply (@create_gates_without_gating term _
           (example_args None None) example_init _ 2 (example_tensor 2 1 4)
           (example_tensor 2 1 4) eq_refl);
    try reflexivity; try (simpl; lia).
Defined.

Lemma initial_state_then_forward_witness :
  exists self state outputs final,
    __init__ (example_args (Some "unit"%string) None) example_init = Ok self /\
    initial_state self 2 = Ok state /\
    forward self (of_rank 3 (example_tensor 2 3 4)) state false = Ok (outputs, final) /\
    shape3 2 1 4 final = true /\ shape3 2 1 4 outputs = true.
Proof.
  eexists.
  destruct (@initial_state_then_forward term _
              (example_args (Some "unit"%string) None) example_init _ 2 3
              (example_tensor 2 3 4) false eq_refl)
    as (state & outputs & final & Hs & Hf & Sf & So);
    try reflexivity; try (simpl; lia).
  exists state, outputs, final.
  split; [reflexivity|]. split; [exact Hs|]. split; [exact Hf|].
  split; [exact Sf | exact So].
Defined.

Lemma multihead_attention_zero_head_size_witness :
  exists self,
    __init__ example_args_head_size_0 example_init = Ok self /\
    multihead_attention self (example_tensor 2 2 0) = Raise ZeroDivisionError.
Proof.
  eexists. split; [reflexivity|].
  apply (@multihead_attention_zero_head_size term _ example_args_head_size_0
           example_init _ 2 (example_tensor 2 2 0) eq_refl); reflexivity.
Defined.

Lemma multihead_attention_batch_witness :
  exists self ra rb,
    __init__ (example_args (Some "unit"%string) None) example_init = Ok self /\
    multihead_attention self (example_tensor 1 2 4) = Ok ra /\
    multihead_attention self (example_tensor 2 2 4) = Ok rb /\
    multihead_attention self (example_tensor 1 2 4 ++ example_tensor 2 2 4) =
    Ok (ra ++ rb).
Proof.
  eexists.
  destruct (@multihead_attention_batch term _
              (example_args (Some "unit"%string) None) example_init _ 1 2
              (example_tensor 1 2 4) (example_tensor 2 2 4) eq_refl)
    as (ra & rb & Ha & Hb & Hab);
    try reflexivity; try (simpl; lia).
  exists ra, rb. split; [reflexivity|]. split; [exact Ha|].
  split; [exact Hb | exact Hab].
Defined.

Lemma forward_step_batch_witness :
  exists self oa na ob nb,
    __init__ (example_args (Some "memory"%string) None) example_init = Ok self /\
    forward_step self (of_rank 2 (repeat (repeat (TConst 2) 4) 1))
                 (example_tensor 1 1 4) false = Ok (oa, na) /\
    forward_step self (of_rank 2 (repeat (repeat (TConst 3) 4) 2))
                 (example_tensor 2 1 4) false = Ok (ob, nb) /\
    forward_step self
      (of_rank 2 (repeat (repeat (TConst 2) 4) 1 ++ repeat (repeat (TConst 3) 4) 2))
      (example_tensor 1 1 4 ++ example_tensor 2 1 4) false =
    Ok (oa ++ ob, na ++ nb).
Proof.
  eexists.
  destruct (@forward_step_batch term _
              (example_args (Some "memory"%string) None) example_init _ 1 2
              (repeat (repeat (TConst 2) 4) 1) (repeat (repeat (TConst 3) 4) 2)
              (example_tensor 1 1 4) (example_tensor 2 1 4) eq_refl)
    as (oa & na & ob & nb & Ha & Hb & Hab);
    try reflexivity; try (simpl; lia).
  exists oa, na, ob, nb. split; [reflexivity|]. split; [exact Ha|].
  split; [exact Hb | exact Hab].
Defined.

(** ** One-step sequences and the grain of the gates *)

Section Grain.
Context {F : Type} `{Scalar F}.

(** X6. On a sequence of one position [forward] is [forward_step] on that
    position with the output unsqueezed, whatever [return_all_outputs]
    is. *)
Theorem forward_one_position (self : RelationalMemory F) (n : nat)
        (x : tensor F (S (S n))) (memory : list (list (list F))) (tm : bool) :
  dim1 x = 1 ->
  forward self (of_rank (S (S n)) x) memory tm =
  ('(output, next_memory) <-
     forward_step self (of_rank (S n) (select1 0 x)) memory false ;;
   Ok (unsqueeze1 output, next_memory)).
Proof.
  intros Hx. unfold forward, of_rank. rewrite Hx. cbn [seq foldM].
  unfold forward_loop at 1. unfold of_rank.
  destruct (forward_step self (existT _ (S n) (select1 0 x)) memory false)
    as [[output next_memory]|e]; [|reflexivity].
  cbn [bind app cat_list_dim1 foldM].
  destruct (return_all_outputs self); reflexivity.
Qed.

(** X14. Unit-grained gates have one value per feature, memory-grained gates
    one value per slot that is used for every feature of the slot. *)
Theorem gate_grain (a : Args F) (i : Init F) (self : RelationalMemory F)
        (B : nat) (x : tensor F 2) (memory : list (list (list F))) :
  __init__ a i = Ok self ->
  gating_enabled self = true ->
  1 <= B -> 1 <= mem_slots self -> 1 <= head_size self -> 1 <= num_heads self ->
  shape2 B (input_size self) x = true ->
  shape3 B (mem_slots self) (mem_size self) memory = true ->
  exists ir mpi att ig fg nm,
    project_input self (of_rank 2 x) false = Ok ir /\
    cat_dim1 memory ir = Ok mpi /\
    attend_over_memory self mpi = Ok att /\
    create_gates self (of_rank 3 ir) memory = Ok (ig, fg) /\
    forward_step self (of_rank 2 x) memory false = Ok (map (flatten 2) nm, nm) /\
    (gate_style self = Some "unit"%string ->
     shape3 B (mem_slots self) (mem_size self) ig = true /\
     shape3 B (mem_slots self) (mem_size self) fg = true /\
     forall b s j, b < B -> s < mem_slots self -> j < mem_size self ->
       get3 s0 nm b s j =
       sadd (smul (get3 s0 ig b s j) (stanh (get3 s0 att b s j)))
            (smul (get3 s0 fg b s j) (get3 s0 memory b s j))) /\
    (gate_style self = Some "memory"%string ->
     shape3 B (mem_slots self) 1 ig = true /\
     shape3 B (mem_slots self) 1 fg = true /\
     forall b s j, b < B -> s < mem_slots self -> j < mem_size self ->
       get3 s0 nm b s j =
       sadd (smul (get3 s0 ig b s 0) (stanh (get3 s0 att b s j)))
            (smul (get3 s0 fg b s 0) (get3 s0 memory b s j))).
Proof.
  intros Hinit Hg HB Hslots Hh Hn Hx Hm.
  pose proof (init_WellFormed _ _ Hinit) as wf.
  apply shape2_Shape2 in Hx. apply shape3_Shape3 in Hm.
  destruct (project_input_vector wf Hx) as [ir [Hir Sir]].
  destruct (@forward_step_run _ _ self wf ltac:(lia) B (of_rank 2 x) false memory ir
              HB (fun _ => conj Hslots (mem_size_pos wf Hh Hn)) Hir Sir Hm)
    as (mpi & att & Hcat & Hatt & _ & _ & _ & Hrun).
  destruct (Hrun Hg) as (ig & fg & nm & Hcg & Si & Sf & Hstep & _ & Eq).
  exists ir, mpi, att, ig, fg, nm. repeat (split; [assumption|]).
  unfold gate_size, calculate_gate_size in *. split.
  - intros Hs. rewrite Hs in *. cbn [gate_style_eqb String.eqb] in *.
    change (String.eqb "unit" "unit") with true in *. cbv iota in *.
    split; [apply shape3_Shape3; assumption|].
    split; [apply shape3_Shape3; assumption|].
    intros b s j Hb Hsl Hj. rewrite (Eq b s j Hb Hsl Hj).
    unfold bcol. rewrite Nat.eqb_refl. reflexivity.
  - intros Hs. rewrite Hs in *.
    change (gate_style_eqb (Some "memory"%string) (Some "unit"%string)) with false in *.
    change (gate_style_eqb (Some "memory"%string) (Some "memory"%string)) with true in *.
    cbv iota in *.
    split; [apply shape3_Shape3; assumption|].
    split; [apply shape3_Shape3; assumption|].
    intros b s j Hb Hsl Hj. rewrite (Eq b s j Hb Hsl Hj).
    unfold bcol. destruct (Nat.eqb_spec 1 (mem_size self)) as [E|E];
      [|reflexivity].
    assert (j = 0) by lia. subst j. reflexivity.
Qed.

End Grain.

Lemma forward_one_position_witness :
  exists self,
    __init__ (example_args (Some "unit"%string) None) example_init = Ok self /\
    forward self (of_rank 3 (example_tensor 2 1 4)) (example_tensor 2 1 4) true =
    ('(output, next_memory) <-
       forward_step self (of_rank 2 (select1 (n:=1) 0 (example_tensor 2 1 4)))
                    (example_tensor 2 1 4) false ;;
     Ok (unsqueeze1 output, next_memory)).
Proof.
  eexists. split; [reflexivity|].
  apply (@forward_one_position term _ _ 1 (example_tensor 2 1 4)). reflexivity.
Defined.

Lemma gate_grain_witness :
  exists self ir ig fg,
    __init__ (example_args (Some "memory"%string) None) example_init = Ok self /\
    project_input self (of_rank 2 (repeat (repeat (TConst 2) 4) 2)) false = Ok ir /\
    create_gates self (of_rank 3 ir) (example_tensor 2 1 4) = Ok (ig, fg) /\
    shape3 2 1 1 ig = true /\ shape3 2 1 1 fg = true.
Proof.
  eexists.
  destruct (@gate_grain term _
              (example_args (Some "memory"%string) None) example_init _ 2
              (repeat (repeat (TConst 2) 4) 2) (example_tensor 2 1 4) eq_refl)
    as (ir & mpi & att & ig & fg & nm & Hir & _ & _ & Hcg & _ & _ & Hmem);
    try reflexivity; try (simpl; lia).
  destruct (Hmem eq_refl) as (Si & Sf & _).
  exists ir, ig, fg. split; [reflexivity|]. split; [exact Hir|].
  split; [exact Hcg|]. split; [exact Si | exact Sf].
Defined.
